(** * GlobeSurfaceTileProvider: a shallow embedding and its properties

    The development follows [Source/Scene/GlobeSurfaceTileProvider.js].
    JavaScript numbers are IEEE 754 binary64 values, modelled by Rocq's
    primitive [float]; [undefined] is [None]; objects that are mutated
    through shared references (quadtree tiles and their surface data, the
    pooled draw commands) live in explicit stores. *)

From Stdlib Require Import ZArith Floats Lia String.
From Stdlib Require Reals Lra.
From stdpp Require Import base option list gmap relations sorting.

Local Open Scope Z_scope.

(** ** JavaScript numbers *)

Module Js.

(** [a === b] on two numbers: false as soon as one of them is NaN. *)
Definition strictEq (a b : float) : bool := PrimFloat.eqb a b.

(** [a === b] where either side may be [undefined]. *)
Definition strictEqU (a b : option float) : bool :=
  match a, b with
  | None, None => true
  | Some u, Some v => strictEq u v
  | _, _ => false
  end.

(** The number a possibly [undefined] operand stands for in arithmetic:
    [undefined] converts to NaN. *)
Definition num (a : option float) : float := default nan a.

(** [a <= b], [a < b], [a > b], [a >= b]: all false on NaN. *)
Definition le (a b : float) : bool := PrimFloat.leb a b.
Definition lt (a b : float) : bool := PrimFloat.ltb a b.
Definition gt (a b : float) : bool := PrimFloat.ltb b a.
Definition ge (a b : float) : bool := PrimFloat.leb b a.

(** An array write [a[i] = v]: in range it replaces, past the end the array
    grows and the skipped slots are holes ([undefined]). *)
Definition arraySet {A} (a : list (option A)) (i : nat) (v : A) : list (option A) :=
  if decide (i < length a)%nat then <[i := Some v]> a
  else a ++ replicate (i - length a) None ++ [Some v].

(** [a.length = n]: truncates, or pads with holes. *)
Definition setLength {A} (a : list (option A)) (n : nat) : list (option A) :=
  take n a ++ replicate (n - length a) None.

End Js.

(** ** Geometry values *)

Record Cartesian3 := mkCartesian3 { c3x : float; c3y : float; c3z : float }.
Record Cartesian4 := mkCartesian4 { c4x : float; c4y : float; c4z : float; c4w : float }.
Record Color := mkColor { red : float; green : float; blue : float; alpha : float }.
Record Rectangle := mkRectangle { west : float; south : float; east : float; north : float }.
Record BoundingSphere := mkBoundingSphere { sphere_center : Cartesian3; radius : float }.
Record OrientedBoundingBox := mkOrientedBoundingBox { obb_center : Cartesian3; halfAxes : list float }.

(** The volume handed to the culling and clipping tests: the oriented box in
    3D, a sphere in the other scene modes. *)
Inductive BoundingVolume :=
| BoxVolume (b : option OrientedBoundingBox)
| SphereVolume (s : BoundingSphere).

Inductive Intersect := OUTSIDE | INTERSECTING | INSIDE.
Inductive Visibility := NONE | PARTIAL | FULL.
Inductive SceneMode := MORPHING | COLUMBUS_VIEW | SCENE2D | SCENE3D.

(** [Intersect] and [Visibility] share their numeric values (-1, 0, 1):
    [computeTileVisibility] returns the culling result as a visibility. *)
Definition asVisibility (i : Intersect) : Visibility :=
  match i with
  | OUTSIDE => NONE
  | INTERSECTING => PARTIAL
  | INSIDE => FULL
  end.

#[global] Instance Intersect_eq_dec : EqDecision Intersect.
Proof. solve_decision. Defined.
#[global] Instance Visibility_eq_dec : EqDecision Visibility.
Proof. solve_decision. Defined.
#[global] Instance SceneMode_eq_dec : EqDecision SceneMode.
Proof. solve_decision. Defined.

(** Modelled from the spec: [Cartesian3] is not part of the sources; its
    [subtract], [magnitude], [normalize] and [dot] are the component-wise
    difference, the Euclidean length, the division by that length and the
    inner product, the operations behind the spec's
    [(1 - cos angle) * distance]. *)
Module Cartesian3Ops.
Definition subtract (l r : Cartesian3) : Cartesian3 :=
  mkCartesian3 (c3x l - c3x r) (c3y l - c3y r) (c3z l - c3z r)%float.
Definition magnitude (c : Cartesian3) : float :=
  PrimFloat.sqrt (c3x c * c3x c + c3y c * c3y c + c3z c * c3z c)%float.
Definition normalize (c : Cartesian3) : Cartesian3 :=
  let m := magnitude c in
  mkCartesian3 (c3x c / m) (c3y c / m) (c3z c / m)%float.
Definition dot (l r : Cartesian3) : float :=
  (c3x l * c3x r + c3y l * c3y r + c3z l * c3z r)%float.
End Cartesian3Ops.

(** ** The data model *)

(** A quadtree node. Its place in the tree (level, x, y, rectangle, parent)
    is fixed when the node is built, so it is a value; the fields that the
    provider mutates are kept in the [Store] under the node's key. *)
#[warnings="-register-all"]
Inductive QuadtreeTile := mkQuadtreeTile {
  tile_level : nat;
  tile_x : nat;
  tile_y : nat;
  rectangle : Rectangle;
  parent : option QuadtreeTile
}.

Abbreviation TileKey := (nat * nat * nat)%type.

Definition key (t : QuadtreeTile) : TileKey := (tile_level t, tile_x t, tile_y t).

(** [a === b] on tile objects. *)
Definition sameTile (a b : QuadtreeTile) : bool := bool_decide (key a = key b).

(** [a === b] where [a] may be [undefined]. *)
Definition sameTileU (a : option QuadtreeTile) (b : QuadtreeTile) : bool :=
  match a with
  | Some t => sameTile t b
  | None => false
  end.

(** [tile.parent], [tile.parent.parent], ... up to the root. *)
Fixpoint ancestors (t : QuadtreeTile) : list QuadtreeTile :=
  match t with
  | mkQuadtreeTile _ _ _ _ (Some p) => p :: ancestors p
  | mkQuadtreeTile _ _ _ _ None => []
  end.

(** The quadtree's shape: every parent sits on a lower level than its
    child, so a tile and its ancestors are pairwise different objects. *)
Fixpoint levelsDescend (t : QuadtreeTile) : Prop :=
  match t with
  | mkQuadtreeTile level _ _ _ (Some p) => (tile_level p < level)%nat /\ levelsDescend p
  | mkQuadtreeTile _ _ _ _ None => True
  end.

Record TerrainMesh := mkTerrainMesh {
  mesh_minimumHeight : option float;
  mesh_maximumHeight : option float;
  mesh_center : Cartesian3;
  boundingSphere3D : BoundingSphere
}.

Record TerrainData := mkTerrainData {
  _minimumHeight : option float;
  _maximumHeight : option float
}.

Record TileBoundingRegion := mkTileBoundingRegion {
  region_rectangle : Rectangle;
  minimumHeight : float;
  maximumHeight : float
}.

Definition Texture : Type := nat.

Record ImageryLayer := mkImageryLayer {
  layer_alpha : float;
  _layerIndex : nat
}.

Record Imagery := mkImagery {
  imageryLayer : ImageryLayer;
  texture : option Texture;
  textureWebMercator : option Texture
}.

Record TileImagery := mkTileImagery {
  readyImagery : option Imagery;
  loadingImagery : option Imagery;
  useWebMercatorT : bool
}.

Record GlobeSurfaceTile := mkGlobeSurfaceTile {
  mesh : option TerrainMesh;
  terrainData : option TerrainData;
  _bvh : option (list float);
  tileBoundingRegion : option TileBoundingRegion;
  boundingVolumeSourceTile : option QuadtreeTile;
  orientedBoundingBox : option OrientedBoundingBox;
  occludeePointInScaledSpace : option Cartesian3;
  renderableTile : option QuadtreeTile;
  renderableTileSubset : Cartesian4;
  imagery : list TileImagery;
  vertexArray : option nat;
  fillMesh : option TerrainMesh;
  fillVertexArray : option nat;
  waterMaskTexture : option Texture
}.

(** Modelled from the spec: the constructor of [GlobeSurfaceTile] is not
    part of the sources; a new surface tile has no mesh, no terrain data, no
    height summary, no bounding data, no back-reference and no imagery. *)
Definition newGlobeSurfaceTile : GlobeSurfaceTile :=
  {| mesh := None; terrainData := None; _bvh := None;
     tileBoundingRegion := None; boundingVolumeSourceTile := None;
     orientedBoundingBox := None; occludeePointInScaledSpace := None;
     renderableTile := None;
     renderableTileSubset := mkCartesian4 0 0 0 0;
     imagery := []; vertexArray := None; fillMesh := None;
     fillVertexArray := None; waterMaskTexture := None |}.

(** The mutable fields of a [QuadtreeTile] object. *)
Record TileFields := mkTileFields {
  data : option GlobeSurfaceTile;
  _distance : option float;
  isClipped : option bool
}.

Abbreviation Store := (gmap TileKey TileFields).

Definition noFields : TileFields :=
  {| data := None; _distance := None; isClipped := None |}.

Definition fieldsOf (s : Store) (t : QuadtreeTile) : TileFields :=
  default noFields (s !! key t).

(** [tile.data] *)
Definition dataOf (s : Store) (t : QuadtreeTile) : option GlobeSurfaceTile :=
  data (fieldsOf s t).

(** [tile.data = d] *)
Definition setData (s : Store) (t : QuadtreeTile) (d : GlobeSurfaceTile) : Store :=
  let f := fieldsOf s t in
  <[key t := {| data := Some d; _distance := _distance f; isClipped := isClipped f |}]> s.

Definition setDistance (s : Store) (t : QuadtreeTile) (d : float) : Store :=
  let f := fieldsOf s t in
  <[key t := {| data := data f; _distance := Some d; isClipped := isClipped f |}]> s.

Definition setIsClipped (s : Store) (t : QuadtreeTile) (b : bool) : Store :=
  let f := fieldsOf s t in
  <[key t := {| data := data f; _distance := _distance f; isClipped := Some b |}]> s.

(** Field updates of a surface tile. *)
Definition withRegion (d : GlobeSurfaceTile) (r : TileBoundingRegion) : GlobeSurfaceTile :=
  {| mesh := mesh d; terrainData := terrainData d; _bvh := _bvh d;
     tileBoundingRegion := Some r;
     boundingVolumeSourceTile := boundingVolumeSourceTile d;
     orientedBoundingBox := orientedBoundingBox d;
     occludeePointInScaledSpace := occludeePointInScaledSpace d;
     renderableTile := renderableTile d;
     renderableTileSubset := renderableTileSubset d;
     imagery := imagery d; vertexArray := vertexArray d; fillMesh := fillMesh d;
     fillVertexArray := fillVertexArray d; waterMaskTexture := waterMaskTexture d |}.

Definition withBoundingVolume (d : GlobeSurfaceTile) (source : QuadtreeTile)
    (obb : OrientedBoundingBox) (occludee : Cartesian3) : GlobeSurfaceTile :=
  {| mesh := mesh d; terrainData := terrainData d; _bvh := _bvh d;
     tileBoundingRegion := tileBoundingRegion d;
     boundingVolumeSourceTile := Some source;
     orientedBoundingBox := Some obb;
     occludeePointInScaledSpace := Some occludee;
     renderableTile := renderableTile d;
     renderableTileSubset := renderableTileSubset d;
     imagery := imagery d; vertexArray := vertexArray d; fillMesh := fillMesh d;
     fillVertexArray := fillVertexArray d; waterMaskTexture := waterMaskTexture d |}.

Definition withRenderableTile (d : GlobeSurfaceTile) (r : option QuadtreeTile) : GlobeSurfaceTile :=
  {| mesh := mesh d; terrainData := terrainData d; _bvh := _bvh d;
     tileBoundingRegion := tileBoundingRegion d;
     boundingVolumeSourceTile := boundingVolumeSourceTile d;
     orientedBoundingBox := orientedBoundingBox d;
     occludeePointInScaledSpace := occludeePointInScaledSpace d;
     renderableTile := r;
     renderableTileSubset := renderableTileSubset d;
     imagery := imagery d; vertexArray := vertexArray d; fillMesh := fillMesh d;
     fillVertexArray := fillVertexArray d; waterMaskTexture := waterMaskTexture d |}.

Definition withRenderableTileSubset (d : GlobeSurfaceTile) (c : Cartesian4) : GlobeSurfaceTile :=
  {| mesh := mesh d; terrainData := terrainData d; _bvh := _bvh d;
     tileBoundingRegion := tileBoundingRegion d;
     boundingVolumeSourceTile := boundingVolumeSourceTile d;
     orientedBoundingBox := orientedBoundingBox d;
     occludeePointInScaledSpace := occludeePointInScaledSpace d;
     renderableTile := renderableTile d;
     renderableTileSubset := c;
     imagery := imagery d; vertexArray := vertexArray d; fillMesh := fillMesh d;
     fillVertexArray := fillVertexArray d; waterMaskTexture := waterMaskTexture d |}.

Definition withHeights (r : TileBoundingRegion) (lo hi : float) : TileBoundingRegion :=
  {| region_rectangle := region_rectangle r; minimumHeight := lo; maximumHeight := hi |}.

(** ** The frame and the collaborators *)

Record Fog := mkFog { fog_enabled : bool; fog_density : float }.

Record Camera := mkCamera {
  positionWC : Cartesian3;
  directionWC : Cartesian3;
  positionCartographic_height : float;
  frustumIsOrthographic : bool
}.

(** [frameState.commandList] holds references to draw commands: indices
    into the provider's command pool. *)
Record FrameState := mkFrameState {
  fog : Fog;
  mode : SceneMode;
  camera : Camera;
  cullingVolume_computeVisibility : BoundingVolume -> Intersect;
  terrainExaggeration : float;
  commandList : list nat
}.

Record QuadtreeOccluders := mkQuadtreeOccluders {
  isScaledSpacePointVisible : Cartesian3 -> bool
}.

Record ClippingPlaneCollection := mkClippingPlaneCollection {
  clipping_enabled : bool;
  computeIntersectionWithBoundingVolume : BoundingVolume -> Intersect
}.

(** The functions of other modules that the provider calls and that the
    sources do not contain. They are parameters of the whole development. *)
Class Collaborators := {
  (** [CesiumMath.fog(distanceToCamera, density)] *)
  CesiumMath_fog : float -> float -> float;
  (** [TileBoundingRegion.prototype.distanceToCamera(frameState)] *)
  distanceToCamera : TileBoundingRegion -> FrameState -> float;
  (** [OrientedBoundingBox.fromRectangle(rectangle, minimumHeight, maximumHeight, ellipsoid)] *)
  OrientedBoundingBox_fromRectangle : Rectangle -> float -> float -> OrientedBoundingBox;
  (** [Cartesian3.fromRadians(longitude, latitude, height, ellipsoid)] *)
  Cartesian3_fromRadians : float -> float -> float -> Cartesian3;
  (** [EllipsoidalOccluder.prototype.computeHorizonCullingPoint(center, positions)] *)
  computeHorizonCullingPoint : Cartesian3 -> list Cartesian3 -> Cartesian3;
  (** [BoundingSphere.fromRectangleWithHeights2D(rectangle, projection, minimumHeight, maximumHeight)] *)
  BoundingSphere_fromRectangleWithHeights2D : Rectangle -> float -> float -> BoundingSphere;
  (** [BoundingSphere.union(left, right)] *)
  BoundingSphere_union : BoundingSphere -> BoundingSphere -> BoundingSphere
}.

(** ** Height resolution and distance *)

Section BoundingAndVisibility.
Context `{Collaborators}.

(** [mesh !== undefined && mesh.minimumHeight !== undefined &&
    mesh.maximumHeight !== undefined], and the two heights when it holds. *)
Definition meshHeights (m : option TerrainMesh) : option (float * float) :=
  match m with
  | Some m =>
      match mesh_minimumHeight m, mesh_maximumHeight m with
      | Some lo, Some hi => Some (lo, hi)
      | _, _ => None
      end
  | None => None
  end.

(** The same test on raw terrain data; its heights are scaled by the
    terrain exaggeration. *)
Definition terrainDataHeights (exaggeration : float) (t : option TerrainData)
    : option (float * float) :=
  match t with
  | Some t =>
      match _minimumHeight t, _maximumHeight t with
      | Some lo, Some hi => Some (lo * exaggeration, hi * exaggeration)%float
      | _, _ => None
      end
  | None => None
  end.

(** [bvh !== undefined && bvh[0] === bvh[0] && bvh[1] === bvh[1]]: the first
    two entries are not NaN. *)
Definition bvhHeights (exaggeration : float) (bvh : option (list float))
    : option (float * float) :=
  match bvh with
  | Some b =>
      if Js.strictEqU (b !! 0%nat) (b !! 0%nat) && Js.strictEqU (b !! 1%nat) (b !! 1%nat)
      then Some (Js.num (b !! 0%nat) * exaggeration, Js.num (b !! 1%nat) * exaggeration)%float
      else None
  | None => None
  end.

(** Modelled from the spec: [GlobeSurfaceTile.prototype.getBvh] is not part
    of the sources; the spec describes it as "a cached height-extent summary
    for the tile if already computed", which is the [_bvh] field that the
    ancestor loop reads directly. *)
Definition getBvh (surfaceTile : GlobeSurfaceTile) (tile : QuadtreeTile)
    : option (list float) :=
  _bvh surfaceTile.

(** The [while (ancestor !== undefined)] loop of [updateTileBoundingRegion]
    over [tile.parent], [tile.parent.parent], ...: the first ancestor with a
    height source, and the heights taken from it. *)
Fixpoint ancestorLoop (exaggeration : float) (s : Store) (chain : list QuadtreeTile)
    : option (QuadtreeTile * (float * float)) :=
  match chain with
  | [] => None
  | ancestor :: rest =>
      match dataOf s ancestor with
      | Some ancestorSurfaceTile =>
          match meshHeights (mesh ancestorSurfaceTile) with
          | Some h => Some (ancestor, h)
          | None =>
              match terrainDataHeights exaggeration (terrainData ancestorSurfaceTile) with
              | Some h => Some (ancestor, h)
              | None =>
                  match bvhHeights exaggeration (_bvh ancestorSurfaceTile) with
                  | Some h => Some (ancestor, h)
                  | None => ancestorLoop exaggeration s rest
                  end
              end
          end
      | None => ancestorLoop exaggeration s rest
      end
  end.

(** [updateTileBoundingRegion(tile, terrainProvider, frameState)]: the
    source tile (or [undefined]) and the store after the call. *)
Definition updateTileBoundingRegion (tile : QuadtreeTile) (frameState : FrameState)
    (s : Store) : option QuadtreeTile * Store :=
  let surfaceTile := default newGlobeSurfaceTile (dataOf s tile) in
  let tileBoundingRegion :=
    default (mkTileBoundingRegion (rectangle tile) 0 0) (tileBoundingRegion surfaceTile) in
  let exaggeration := terrainExaggeration frameState in
  let store lo hi := setData s tile (withRegion surfaceTile (withHeights tileBoundingRegion lo hi)) in
  match meshHeights (mesh surfaceTile) with
  | Some (lo, hi) => (Some tile, store lo hi)
  | None =>
      match terrainDataHeights exaggeration (terrainData surfaceTile) with
      | Some (lo, hi) => (Some tile, store lo hi)
      | None =>
          match bvhHeights exaggeration (getBvh surfaceTile tile) with
          | Some (lo, hi) => (Some tile, store lo hi)
          | None =>
              let s1 := store nan nan in
              match ancestorLoop exaggeration s1 (ancestors tile) with
              | Some (ancestor, (lo, hi)) =>
                  (Some ancestor,
                   setData s1 tile (withRegion surfaceTile (withHeights tileBoundingRegion lo hi)))
              | None => (None, s1)
              end
          end
      end
  end.

(** Reads of [tile.data] and [tile.data.tileBoundingRegion] after
    [updateTileBoundingRegion] has made sure both exist. *)
Definition surfaceOf (s : Store) (t : QuadtreeTile) : GlobeSurfaceTile :=
  default newGlobeSurfaceTile (dataOf s t).

Definition regionOf (s : Store) (t : QuadtreeTile) : TileBoundingRegion :=
  default (mkTileBoundingRegion (rectangle t) 0 0) (tileBoundingRegion (surfaceOf s t)).

(** [computeOccludeePoint(tileProvider, center, rectangle, height)] *)
Definition computeOccludeePoint (center : Cartesian3) (rectangle : Rectangle)
    (height : float) : Cartesian3 :=
  let cornerPositions :=
    [ Cartesian3_fromRadians (west rectangle) (south rectangle) height;
      Cartesian3_fromRadians (east rectangle) (south rectangle) height;
      Cartesian3_fromRadians (west rectangle) (north rectangle) height;
      Cartesian3_fromRadians (east rectangle) (north rectangle) height ] in
  computeHorizonCullingPoint center cornerPositions.

(** The range that [computeDistanceToTile] hands to [distanceToCamera]: the
    resolved one when the heights are the tile's own, otherwise the resolved
    range collapsed onto the height that is farther from the camera. *)
Definition measuredRegion (fromTileItself : bool) (cameraHeight : float)
    (r : TileBoundingRegion) : TileBoundingRegion :=
  let min := minimumHeight r in
  let max := maximumHeight r in
  if fromTileItself then r
  else
    let distanceToMin := PrimFloat.abs (cameraHeight - min) in
    let distanceToMax := PrimFloat.abs (cameraHeight - max) in
    if Js.gt distanceToMin distanceToMax then withHeights r min min
    else withHeights r max max.

(** [GlobeSurfaceTileProvider.prototype.computeDistanceToTile(tile, frameState)] *)
Definition computeDistanceToTile (tile : QuadtreeTile) (frameState : FrameState)
    (s : Store) : float * Store :=
  let '(heightSource, s) := updateTileBoundingRegion tile frameState s in
  let surfaceTile := surfaceOf s tile in
  let tileBoundingRegion := regionOf s tile in
  match heightSource with
  | None => (9999999999%float, s)
  | Some heightSource =>
      let surfaceTile :=
        if negb (sameTileU (boundingVolumeSourceTile surfaceTile) heightSource) then
          let obb := OrientedBoundingBox_fromRectangle (rectangle tile)
                       (minimumHeight tileBoundingRegion) (maximumHeight tileBoundingRegion) in
          withBoundingVolume surfaceTile heightSource obb
            (computeOccludeePoint (obb_center obb) (rectangle tile)
               (maximumHeight tileBoundingRegion))
        else surfaceTile in
      let min := minimumHeight tileBoundingRegion in
      let max := maximumHeight tileBoundingRegion in
      let collapsed :=
        measuredRegion (sameTileU (boundingVolumeSourceTile surfaceTile) tile)
          (positionCartographic_height (camera frameState)) tileBoundingRegion in
      let s := setData s tile (withRegion surfaceTile collapsed) in
      let result := distanceToCamera (regionOf s tile) frameState in
      let s := setData s tile (withRegion (surfaceOf s tile) (withHeights (regionOf s tile) min max)) in
      (result, s)
  end.

(** ** Visibility and load priority *)

(** The part of the provider that the visibility test reads. *)
Definition clippingActive (clippingPlanes : option ClippingPlaneCollection)
    : option ClippingPlaneCollection :=
  match clippingPlanes with
  | Some c => if clipping_enabled c then Some c else None
  | None => None
  end.

(** The bounding volume tested by [computeTileVisibility]: the oriented box
    in 3D; otherwise a 2D sphere whose center components are permuted, merged
    with the mesh's 3D sphere while morphing. *)
Definition visibilityVolume (tile : QuadtreeTile) (frameState : FrameState)
    (surfaceTile : GlobeSurfaceTile) (tileBoundingRegion : TileBoundingRegion)
    : BoundingVolume :=
  if decide (mode frameState = SCENE3D) then BoxVolume (orientedBoundingBox surfaceTile)
  else
    let sphere := BoundingSphere_fromRectangleWithHeights2D (rectangle tile)
                    (minimumHeight tileBoundingRegion) (maximumHeight tileBoundingRegion) in
    let c := sphere_center sphere in
    let sphere := mkBoundingSphere (mkCartesian3 (c3z c) (c3x c) (c3y c)) (radius sphere) in
    match mesh surfaceTile with
    | Some m =>
        if decide (mode frameState = MORPHING)
        then SphereVolume (BoundingSphere_union (boundingSphere3D m) sphere)
        else SphereVolume sphere
    | None => SphereVolume sphere
    end.

(** [GlobeSurfaceTileProvider.prototype.computeTileVisibility(tile,
    frameState, occluders)]; [clippingPlanes] is the provider's
    [_clippingPlanes]. *)
Definition computeTileVisibility (clippingPlanes : option ClippingPlaneCollection)
    (tile : QuadtreeTile) (frameState : FrameState)
    (occluders : option QuadtreeOccluders) (s : Store) : Visibility * Store :=
  let '(distance, s) := computeDistanceToTile tile frameState s in
  let s := setDistance s tile distance in
  if fog_enabled (fog frameState)
     && Js.ge (CesiumMath_fog distance (fog_density (fog frameState))) 1
  then (NONE, s)
  else
    let surfaceTile := surfaceOf s tile in
    let tileBoundingRegion := regionOf s tile in
    match boundingVolumeSourceTile surfaceTile with
    | None => (PARTIAL, s)
    | Some _ =>
        let boundingVolume := visibilityVolume tile frameState surfaceTile tileBoundingRegion in
        let clipped :=
          match clippingActive clippingPlanes with
          | Some c =>
              let planeIntersection := computeIntersectionWithBoundingVolume c boundingVolume in
              (setIsClipped s tile (negb (bool_decide (planeIntersection = INSIDE))),
               bool_decide (planeIntersection = OUTSIDE))
          | None => (s, false)
          end in
        let '(s, outsidePlanes) := clipped in
        if outsidePlanes then (NONE, s)
        else
          let intersection := cullingVolume_computeVisibility frameState boundingVolume in
          if decide (intersection = OUTSIDE) then (NONE, s)
          else
            let ortho3D := bool_decide (mode frameState = SCENE3D)
                           && frustumIsOrthographic (camera frameState) in
            match occluders with
            | Some occluders =>
                if bool_decide (mode frameState = SCENE3D) && negb ortho3D then
                  match occludeePointInScaledSpace surfaceTile with
                  | None => (asVisibility intersection, s)
                  | Some occludee =>
                      if isScaledSpacePointVisible occluders occludee
                      then (asVisibility intersection, s)
                      else (NONE, s)
                  end
                else (asVisibility intersection, s)
            | None => (asVisibility intersection, s)
            end
    end.

(** [GlobeSurfaceTileProvider.prototype.computeTileLoadPriority(tile, frameState)] *)
Definition computeTileLoadPriority (tile : QuadtreeTile) (frameState : FrameState)
    (s : Store) : float :=
  match dataOf s tile with
  | None => 0
  | Some surfaceTile =>
      match orientedBoundingBox surfaceTile with
      | None => 0
      | Some obb =>
          let cameraPosition := positionWC (camera frameState) in
          let cameraDirection := directionWC (camera frameState) in
          let tileDirection :=
            Cartesian3Ops.normalize (Cartesian3Ops.subtract (obb_center obb) cameraPosition) in
          ((1 - Cartesian3Ops.dot tileDirection cameraDirection)
           * Js.num (_distance (fieldsOf s tile)))%float
      end
  end.

End BoundingAndVisibility.

(** ** The provider and its draw commands *)

Inductive MissingTileStrategy := RENDER_NOTHING | RENDER_ANCESTOR_SUBSET | CREATE_FILL_TILE.
Inductive DepthFunction := LESS | LESS_OR_EQUAL.
Inductive BlendingState := ALPHA_BLEND.

#[global] Instance MissingTileStrategy_eq_dec : EqDecision MissingTileStrategy.
Proof. solve_decision. Defined.

Record RenderState := mkRenderState {
  cull_enabled : bool;
  depthTest_enabled : bool;
  depthTest_func : DepthFunction;
  blending : option BlendingState
}.

(** The arguments of [getShaderProgram] that select the shader variant. *)
Record ShaderKey := mkShaderKey {
  numberOfDayTextures : Z;
  applyAlpha : bool;
  showReflectiveOcean : bool;
  showOceanWaves : bool;
  useSubset : bool
}.

(** A pooled draw command together with the properties of its uniform map
    (the pool keeps the two at the same index). The fields kept are the
    owner, the render state, the shader selection, the initial color, the
    texture slots with their alpha values, the subset and the vertex array;
    the other uniforms (per-slot transforms and color adjustments, water
    mask, clipping planes, height range) are left out. *)
Record DrawCommand := mkDrawCommand {
  owner : option QuadtreeTile;
  renderState : option RenderState;
  shaderProgram : option ShaderKey;
  initialColor : Cartesian4;
  dayTextures : list (option Texture);
  dayTextureAlpha : list (option float);
  textureCoordinateSubset : Cartesian4;
  command_vertexArray : option nat
}.

(** [new DrawCommand()] with the uniform map of [createTileUniformMap]. *)
Definition newDrawCommand : DrawCommand :=
  {| owner := None; renderState := None; shaderProgram := None;
     initialColor := mkCartesian4 0 0 0.5 1;
     dayTextures := []; dayTextureAlpha := [];
     textureCoordinateSubset := mkCartesian4 0 0 0 0;
     command_vertexArray := None |}.

Record GlobeSurfaceTileProvider := mkGlobeSurfaceTileProvider {
  hasWaterMask : bool;
  oceanNormalMap : option Texture;
  missingTileStrategy : MissingTileStrategy;
  _renderState : option RenderState;
  _blendRenderState : option RenderState;
  _tilesToRenderByTextureCount : list (option (list QuadtreeTile));
  _drawCommands : list DrawCommand;
  _usedDrawCommands : nat;
  _baseColor : Color;
  _firstPassInitialColor : Cartesian4;
  _clippingPlanes : option ClippingPlaneCollection
}.

Definition withTilesToRender (p : GlobeSurfaceTileProvider)
    (b : list (option (list QuadtreeTile))) : GlobeSurfaceTileProvider :=
  {| hasWaterMask := hasWaterMask p; oceanNormalMap := oceanNormalMap p;
     missingTileStrategy := missingTileStrategy p;
     _renderState := _renderState p; _blendRenderState := _blendRenderState p;
     _tilesToRenderByTextureCount := b;
     _drawCommands := _drawCommands p; _usedDrawCommands := _usedDrawCommands p;
     _baseColor := _baseColor p;
     _firstPassInitialColor := _firstPassInitialColor p;
     _clippingPlanes := _clippingPlanes p |}.

Definition withCommands (p : GlobeSurfaceTileProvider) (pool : list DrawCommand)
    (used : nat) : GlobeSurfaceTileProvider :=
  {| hasWaterMask := hasWaterMask p; oceanNormalMap := oceanNormalMap p;
     missingTileStrategy := missingTileStrategy p;
     _renderState := _renderState p; _blendRenderState := _blendRenderState p;
     _tilesToRenderByTextureCount := _tilesToRenderByTextureCount p;
     _drawCommands := pool; _usedDrawCommands := used;
     _baseColor := _baseColor p;
     _firstPassInitialColor := _firstPassInitialColor p;
     _clippingPlanes := _clippingPlanes p |}.

Definition withRenderStates (p : GlobeSurfaceTileProvider)
    (first other : RenderState) : GlobeSurfaceTileProvider :=
  {| hasWaterMask := hasWaterMask p; oceanNormalMap := oceanNormalMap p;
     missingTileStrategy := missingTileStrategy p;
     _renderState := Some first; _blendRenderState := Some other;
     _tilesToRenderByTextureCount := _tilesToRenderByTextureCount p;
     _drawCommands := _drawCommands p; _usedDrawCommands := _usedDrawCommands p;
     _baseColor := _baseColor p;
     _firstPassInitialColor := _firstPassInitialColor p;
     _clippingPlanes := _clippingPlanes p |}.

(** [Cartesian4.fromColor(color)] *)
Definition Cartesian4_fromColor (c : Color) : Cartesian4 :=
  mkCartesian4 (red c) (green c) (blue c) (alpha c).

(** The setter of [baseColor]: the color of the globe where no imagery is
    available, kept a second time as the first pass's initial color. *)
Definition setBaseColor (p : GlobeSurfaceTileProvider) (value : Color)
    : GlobeSurfaceTileProvider :=
  {| hasWaterMask := hasWaterMask p; oceanNormalMap := oceanNormalMap p;
     missingTileStrategy := missingTileStrategy p;
     _renderState := _renderState p; _blendRenderState := _blendRenderState p;
     _tilesToRenderByTextureCount := _tilesToRenderByTextureCount p;
     _drawCommands := _drawCommands p; _usedDrawCommands := _usedDrawCommands p;
     _baseColor := value;
     _firstPassInitialColor := Cartesian4_fromColor value;
     _clippingPlanes := _clippingPlanes p |}.

(** ** Exceptions *)

Inductive JsError := TypeError | DeveloperError (message : string).

(** How a call ends: normally with a value, by a thrown error, or not at
    all within the steps allowed ([Unfinished]). The state reached is kept in
    the first two cases: what was written before a throw stays written. *)
Inductive Completion (S A : Type) :=
| Return (a : A) (s : S)
| Throw (e : JsError) (s : S)
| Unfinished.
Arguments Return {S A} a s.
Arguments Throw {S A} e s.
Arguments Unfinished {S A}.

(** ** Showing a tile *)

(** [defined(tileImagery.readyImagery) &&
    tileImagery.readyImagery.imageryLayer.alpha !== 0.0] *)
Definition countsAsReady (tileImagery : TileImagery) : bool :=
  match readyImagery tileImagery with
  | Some imagery => negb (Js.strictEq (layer_alpha (imageryLayer imagery)) 0)
  | None => false
  end.

Definition readyTextureCount (tileImageryCollection : list TileImagery) : nat :=
  length (filter (fun t => countsAsReady t = true) tileImageryCollection).

(** [GlobeSurfaceTileProvider.prototype.showTileThisFrame(tile, frameState,
    nearestRenderableTile)]. The two debug counters are not modelled. Reading
    [tile.data.imagery] or [nearestRenderableTile.data.renderableTile] of a
    tile without surface data throws a [TypeError]. *)
Definition showTileThisFrame (tile : QuadtreeTile)
    (nearestRenderableTile : option QuadtreeTile)
    (st : GlobeSurfaceTileProvider * Store)
    : Completion (GlobeSurfaceTileProvider * Store) unit :=
  let '(p, s) := st in
  match dataOf s tile with
  | None => Throw TypeError (p, s)
  | Some surfaceTile =>
      let readyTextureCount := readyTextureCount (imagery surfaceTile) in
      let tileSet :=
        default [] (mjoin (_tilesToRenderByTextureCount p !! readyTextureCount)) in
      let p := withTilesToRender p
                 (Js.arraySet (_tilesToRenderByTextureCount p) readyTextureCount
                    (tileSet ++ [tile])) in
      match nearestRenderableTile with
      | Some nearest =>
          if negb (sameTile nearest tile) then
            let s := setData s tile (withRenderableTile surfaceTile (Some nearest)) in
            match dataOf s nearest with
            | None => Throw TypeError (p, s)
            | Some nearestData =>
                let s := setData s nearest (withRenderableTile nearestData None) in
                let myRectangle := rectangle tile in
                let ancestorRectangle := rectangle nearest in
                let ancestorSubset :=
                  mkCartesian4
                    ((west myRectangle - west ancestorRectangle)
                     / (east ancestorRectangle - west ancestorRectangle))
                    ((south myRectangle - south ancestorRectangle)
                     / (north ancestorRectangle - south ancestorRectangle))
                    ((east myRectangle - west ancestorRectangle)
                     / (east ancestorRectangle - west ancestorRectangle))
                    ((north myRectangle - south ancestorRectangle)
                     / (north ancestorRectangle - south ancestorRectangle)) in
                let s := setData s tile (withRenderableTileSubset (surfaceOf s tile) ancestorSubset) in
                Return tt (p, s)
            end
          else Return tt (p, setData s tile (withRenderableTile surfaceTile None))
      | None => Return tt (p, setData s tile (withRenderableTile surfaceTile None))
      end
  end.

(** The state a call leaves behind, however it ended. *)
Definition stateAfter {S A} (before : S) (c : Completion S A) : S :=
  match c with
  | Return _ s => s
  | Throw _ s => s
  | Unfinished => before
  end.

(** A sequence of [showTileThisFrame] calls, frame after frame. A call that
    throws leaves its partial writes behind and the next call goes on from
    there. *)
Definition showTiles (calls : list (QuadtreeTile * option QuadtreeTile))
    (st : GlobeSurfaceTileProvider * Store) : GlobeSurfaceTileProvider * Store :=
  foldl (fun st call => stateAfter st (showTileThisFrame call.1 call.2 st)) st calls.

(** The back-reference of the tile stored under key [k]: the key of its
    [data.renderableTile], when it has surface data and the field is set. *)
Definition backReference (s : Store) (k : TileKey) : option TileKey :=
  match s !! k with
  | Some f =>
      match data f with
      | Some d => key <$> renderableTile d
      | None => None
      end
  | None => None
  end.

(** [a] defers to [b]. *)
Definition defersTo (s : Store) (a b : TileKey) : Prop := backReference s a = Some b.

(** No tile reaches itself by following back-references. *)
Definition acyclicRefs (s : Store) : Prop := forall k, ~ tc (defersTo s) k k.

(** Back-references are at most one hop long: a tile that is deferred to
    defers to nobody. *)
Definition oneHop (s : Store) : Prop :=
  forall a b, defersTo s a b -> backReference s b = None.

(** ** The fan triangulation of a fill tile *)

(** [indices[i] = v] on a [Uint16Array]: the value is stored modulo 2^16,
    and a write outside the array is ignored. *)
Definition uint16Set (a : list Z) (i : nat) (v : Z) : list Z := <[i := v mod 65536]> a.

(** The [for (i = 0; i < vertexCount - 2; ++i)] loop of [createFillTile],
    with [n] iterations left. *)
Fixpoint fanLoop (n : nat) (i : nat) (centerIndex : Z) (indexOut : nat) (indices : list Z)
    : nat * nat * list Z :=
  match n with
  | O => (i, indexOut, indices)
  | S n =>
      let indices := uint16Set indices indexOut centerIndex in
      let indices := uint16Set indices (indexOut + 1) (Z.of_nat i) in
      let indices := uint16Set indices (indexOut + 2) (Z.of_nat i + 1) in
      fanLoop n (S i) centerIndex (indexOut + 3) indices
  end.

(** The index list that [createFillTile] builds for a fill mesh of
    [vertexCount] vertices, the last of which is the center ([vertexCount] is
    at least 1: the center vertex is always pushed). *)
Definition createFillTile_indices (vertexCount : nat) : list Z :=
  let indices := replicate ((vertexCount - 1) * 3) 0 in
  let centerIndex := Z.of_nat vertexCount - 1 in
  let '(i, indexOut, indices) := fanLoop (vertexCount - 2) 0 centerIndex 0 indices in
  let indices := uint16Set indices indexOut centerIndex in
  let indices := uint16Set indices (indexOut + 1) (Z.of_nat i) in
  uint16Set indices (indexOut + 2) 0.

(** The fan as the spec words it: one triangle (center, i, i + 1) per
    boundary vertex [i], the last one closing the loop back to vertex 0. *)
Definition closedFan (vertexCount : nat) : list Z :=
  let boundary := (vertexCount - 1)%nat in
  flat_map (fun i => [Z.of_nat boundary; Z.of_nat i; Z.of_nat (S i mod boundary)])
           (seq 0 boundary).

(** ** Draw command assembly *)

Definition otherPassesInitialColor : Cartesian4 := mkCartesian4 0 0 0 0.

(** [tileImagery.useWebMercatorT ? imagery.textureWebMercator : imagery.texture] *)
Definition selectedTexture (tileImagery : TileImagery) (imagery : Imagery) : option Texture :=
  if useWebMercatorT tileImagery then textureWebMercator imagery else texture imagery.

Definition withDayTexture (c : DrawCommand) (slot : nat) (t : Texture) (a : float) : DrawCommand :=
  {| owner := owner c; renderState := renderState c; shaderProgram := shaderProgram c;
     initialColor := initialColor c;
     dayTextures := Js.arraySet (dayTextures c) slot t;
     dayTextureAlpha := Js.arraySet (dayTextureAlpha c) slot a;
     textureCoordinateSubset := textureCoordinateSubset c;
     command_vertexArray := command_vertexArray c |}.

(** What the inner [while] loop of a pass hands back: the error it threw, if
    any, the number of textures packed, the imagery entries not yet
    visited, the command as written so far and the [applyAlpha] flag. *)
Record Packed := mkPacked {
  thrown : option JsError;
  packedCount : nat;
  remaining : list TileImagery;
  packedCommand : DrawCommand;
  packedApplyAlpha : bool
}.

(** [while (numberOfDayTextures < maxTextures && imageryIndex < imageryLen)]:
    [rest] is the collection from [imageryIndex] on. *)
Fixpoint dayTextureLoop (maxTextures : Z) (rest : list TileImagery)
    (numberOfDayTextures : nat) (command : DrawCommand) (applyAlpha : bool) : Packed :=
  match rest with
  | [] => mkPacked None numberOfDayTextures [] command applyAlpha
  | tileImagery :: rest' =>
      if Z.of_nat numberOfDayTextures <? maxTextures then
        match readyImagery tileImagery with
        | Some imagery =>
            if Js.strictEq (layer_alpha (imageryLayer imagery)) 0
            then dayTextureLoop maxTextures rest' numberOfDayTextures command applyAlpha
            else
              match selectedTexture tileImagery imagery with
              | None =>
                  mkPacked (Some (DeveloperError "readyImagery is not actually ready!"))
                    numberOfDayTextures rest' command applyAlpha
              | Some texture =>
                  let alpha := layer_alpha (imageryLayer imagery) in
                  dayTextureLoop maxTextures rest' (S numberOfDayTextures)
                    (withDayTexture command numberOfDayTextures texture alpha)
                    (applyAlpha || negb (Js.strictEq alpha 1))
              end
        | None => dayTextureLoop maxTextures rest' numberOfDayTextures command applyAlpha
        end
      else mkPacked None numberOfDayTextures rest command applyAlpha
  end.

(** What stays the same from pass to pass of one tile. *)
Record PassContext := mkPassContext {
  pass_tile : QuadtreeTile;
  pass_subset : option Cartesian4;
  pass_maxTextures : Z;
  pass_showReflectiveOcean : bool;
  pass_showOceanWaves : bool;
  pass_vertexArray : option nat;
  pass_otherRenderState : option RenderState;
  pass_tileBoundingRegion : option TileBoundingRegion
}.

(** The command object a pass writes to: a new one pushed onto the pool when
    the pool has no unused entry, else the pooled one at [_usedDrawCommands]. *)
Definition acquireCommand (pool : list DrawCommand) (used : nat) : nat * list DrawCommand :=
  if decide (length pool <= used)%nat then (length pool, pool ++ [newDrawCommand])
  else (used, pool).

Definition beginCommand (c : DrawCommand) (ctx : PassContext) (color : Cartesian4) : DrawCommand :=
  {| owner := Some (pass_tile ctx); renderState := renderState c;
     shaderProgram := shaderProgram c;
     initialColor := color;
     dayTextures := dayTextures c; dayTextureAlpha := dayTextureAlpha c;
     textureCoordinateSubset := default (textureCoordinateSubset c) (pass_subset ctx);
     command_vertexArray := command_vertexArray c |}.

Definition finishCommand (c : DrawCommand) (ctx : PassContext) (count : nat)
    (applyAlpha : bool) (state : option RenderState) : DrawCommand :=
  {| owner := owner c; renderState := state;
     shaderProgram :=
       Some (mkShaderKey (Z.of_nat count) applyAlpha (pass_showReflectiveOcean ctx)
               (pass_showOceanWaves ctx) (bool_decide (is_Some (pass_subset ctx))));
     initialColor := initialColor c;
     dayTextures := Js.setLength (dayTextures c) count;
     dayTextureAlpha := dayTextureAlpha c;
     textureCoordinateSubset := textureCoordinateSubset c;
     command_vertexArray := pass_vertexArray ctx |}.

(** [frameState.commandList.push(command)], the command being the pooled
    object at [index]. *)
Definition pushCommand (frameState : FrameState) (index : nat) : FrameState :=
  {| fog := fog frameState; mode := mode frameState; camera := camera frameState;
     cullingVolume_computeVisibility := cullingVolume_computeVisibility frameState;
     terrainExaggeration := terrainExaggeration frameState;
     commandList := commandList frameState ++ [index] |}.

(** The command's bounding volume, as far as computing it can fail: outside
    [SceneMode.SCENE3D] the heights are read off
    [surfaceTile.tileBoundingRegion], which throws a [TypeError] when the
    region is undefined. In [SCENE3D] the mesh's sphere and the tile's box
    are cloned, which does not fail. *)
Definition readsMissingRegion (ctx : PassContext) (frameState : FrameState) : bool :=
  negb (bool_decide (mode frameState = SCENE3D))
  && negb (bool_decide (is_Some (pass_tileBoundingRegion ctx))).

(** The [do ... while (imageryIndex < imageryLen)] loop of
    [addDrawCommandsForTile], one pass per step; [fuel] bounds the number of
    passes. A pass takes a command from the pool, packs textures into it,
    writes shader, render state and vertex array, computes the bounding
    volume and only then pushes the command: an error in the texture loop
    or in the bounding volume leaves the command taken and written, but not
    pushed. *)
Fixpoint drawPasses (fuel : nat) (ctx : PassContext) (rest : list TileImagery)
    (state : option RenderState) (color : Cartesian4)
    (st : GlobeSurfaceTileProvider * FrameState)
    : Completion (GlobeSurfaceTileProvider * FrameState) unit :=
  match fuel with
  | O => Unfinished
  | S fuel =>
      let '(p, frameState) := st in
      let '(index, pool) := acquireCommand (_drawCommands p) (_usedDrawCommands p) in
      let used := S (_usedDrawCommands p) in
      let command := beginCommand (default newDrawCommand (pool !! index)) ctx color in
      let packed := dayTextureLoop (pass_maxTextures ctx) rest 0 command false in
      match thrown packed with
      | Some e =>
          Throw e (withCommands p (<[index := packedCommand packed]> pool) used, frameState)
      | None =>
          let command :=
            finishCommand (packedCommand packed) ctx (packedCount packed)
              (packedApplyAlpha packed) state in
          let p := withCommands p (<[index := command]> pool) used in
          if readsMissingRegion ctx frameState then Throw TypeError (p, frameState)
          else
            let frameState := pushCommand frameState index in
            match remaining packed with
            | [] => Return tt (p, frameState)
            | _ :: _ =>
                drawPasses fuel ctx (remaining packed) (pass_otherRenderState ctx)
                  otherPassesInitialColor (p, frameState)
            end
      end
  end.

Section DrawCommands.
(** [ContextLimits.maximumTextureImageUnits] *)
Variable maximumTextureImageUnits : Z.
(** The effect of [createFillTile(tileProvider, tile, frameState)] on the
    tiles: its geometry depends on modules outside the sources (only its
    triangulation is modelled, above). *)
Variable createFillTile : GlobeSurfaceTileProvider -> QuadtreeTile -> FrameState -> Store -> Store.

(** The texture budget of one draw command. *)
Definition maxTexturesFor (p : GlobeSurfaceTileProvider) (surfaceTile : GlobeSurfaceTile) : Z :=
  let showReflectiveOcean := hasWaterMask p && bool_decide (is_Some (waterMaskTexture surfaceTile)) in
  let showOceanWaves := showReflectiveOcean && bool_decide (is_Some (oceanNormalMap p)) in
  maximumTextureImageUnits - (if showReflectiveOcean then 1 else 0)
                           - (if showOceanWaves then 1 else 0).

(** [surfaceTile.vertexArray ? surfaceTile.mesh : surfaceTile.fillMesh] *)
Definition meshInUse (surfaceTile : GlobeSurfaceTile) : option TerrainMesh :=
  if bool_decide (is_Some (vertexArray surfaceTile))
  then mesh surfaceTile else fillMesh surfaceTile.

(** What [addDrawCommandsForTile] fixes before its loop. *)
Definition passContextFor (p : GlobeSurfaceTileProvider) (tile : QuadtreeTile)
    (subset : option Cartesian4) (surfaceTile : GlobeSurfaceTile) : PassContext :=
  let showReflectiveOcean :=
    hasWaterMask p && bool_decide (is_Some (waterMaskTexture surfaceTile)) in
  let showOceanWaves := showReflectiveOcean && bool_decide (is_Some (oceanNormalMap p)) in
  {| pass_tile := tile; pass_subset := subset;
     pass_maxTextures := maxTexturesFor p surfaceTile;
     pass_showReflectiveOcean := showReflectiveOcean;
     pass_showOceanWaves := showOceanWaves;
     pass_vertexArray :=
       match vertexArray surfaceTile with
       | Some v => Some v
       | None => fillVertexArray surfaceTile
       end;
     pass_otherRenderState := _blendRenderState p;
     pass_tileBoundingRegion := tileBoundingRegion surfaceTile |}.

(** [addDrawCommandsForTile(tileProvider, tile, frameState, subset)];
    [depth] bounds the recursion through [renderableTile]. Reading a field
    of an undefined [tile.data] or of an undefined mesh throws a
    [TypeError], and so does, outside [SCENE3D], reading the heights of an
    undefined bounding region. A mesh carries its encoding. The provider's
    [_debug] options are as the constructor sets them ([wireframe] false,
    [boundingSphereTile] undefined), so that neither the debug primitive
    nor the wireframe vertex array comes into play; the spec leaves the
    wireframe path out of scope. Credits, the projected tile rectangle, the
    values of the command's bounding volumes and the lazily computed
    texture transforms are not modelled. *)
Fixpoint addDrawCommandsForTile (depth : nat) (tile : QuadtreeTile)
    (subset : option Cartesian4)
    (st : GlobeSurfaceTileProvider * FrameState * Store)
    : Completion (GlobeSurfaceTileProvider * FrameState * Store) unit :=
  match depth with
  | O => Unfinished
  | S depth =>
      let '(p, frameState, s) := st in
      match dataOf s tile with
      | None => Throw TypeError st
      | Some surfaceTile =>
          let deferred :=
            match renderableTile surfaceTile with
            | Some ancestor =>
                if decide (missingTileStrategy p = RENDER_ANCESTOR_SUBSET)
                then inl ancestor
                else if decide (missingTileStrategy p = CREATE_FILL_TILE)
                     then inr (createFillTile p tile frameState s)
                     else inr s
            | None => inr s
            end in
          match deferred with
          | inl ancestor =>
              addDrawCommandsForTile depth ancestor
                (Some (renderableTileSubset surfaceTile)) st
          | inr s =>
              match dataOf s tile with
              | None => Throw TypeError (p, frameState, s)
              | Some surfaceTile =>
                  match meshInUse surfaceTile with
                  | None => Throw TypeError (p, frameState, s)
                  | Some _ =>
                      match drawPasses (S (length (imagery surfaceTile)))
                              (passContextFor p tile subset surfaceTile)
                              (imagery surfaceTile) (_renderState p)
                              (_firstPassInitialColor p) (p, frameState) with
                      | Return _ (p, frameState) => Return tt (p, frameState, s)
                      | Throw e (p, frameState) => Throw e (p, frameState, s)
                      | Unfinished => Unfinished
                      end
                  end
              end
          end
      end
  end.

(** The render states that [endUpdate] installs the first time it runs. *)
Definition firstPassRenderState : RenderState :=
  {| cull_enabled := true; depthTest_enabled := true; depthTest_func := LESS;
     blending := None |}.
Definition blendRenderState : RenderState :=
  {| cull_enabled := true; depthTest_enabled := true; depthTest_func := LESS_OR_EQUAL;
     blending := Some ALPHA_BLEND |}.

Definition ensureRenderStates (p : GlobeSurfaceTileProvider) : GlobeSurfaceTileProvider :=
  match _renderState p with
  | None => withRenderStates p firstPassRenderState blendRenderState
  | Some _ => p
  end.

(** [GlobeSurfaceTileProvider.prototype.endUpdate(frameState)]: the queued
    tiles, bucket after bucket by ascending texture count, each handed to
    [addDrawCommandsForTile]. A throw ends the frame's assembly. *)
Definition endUpdate (depth : nat) (st : GlobeSurfaceTileProvider * FrameState * Store)
    : Completion (GlobeSurfaceTileProvider * FrameState * Store) unit :=
  let '(p, frameState, s) := st in
  let p := ensureRenderStates p in
  let tilesToRender :=
    flat_map (fun bucket => default [] bucket) (_tilesToRenderByTextureCount p) in
  foldl (fun acc tile =>
           match acc with
           | Return _ st => addDrawCommandsForTile depth tile None st
           | other => other
           end)
        (Return tt (p, frameState, s)) tilesToRender.

End DrawCommands.

(** ** Height resolution as the spec words it *)

(** An entry of a cached height summary is not NaN. The summary holds two
    heights; an entry that is missing reads as [undefined], which is not NaN
    either and which scales to NaN. *)
Definition notNaN (entry : option float) : bool :=
  match entry with
  | Some h => negb (PrimFloat.is_nan h)
  | None => true
  end.

Definition scaledEntry (entry : option float) (exaggeration : float) : float :=
  match entry with
  | Some h => (h * exaggeration)%float
  | None => nan
  end.

(** The height range that one tile offers, first match wins: (a) the
    heights of its mesh; (b) the declared heights of its raw terrain data,
    scaled by the exaggeration; (c) its cached height summary, when its two
    entries are not NaN, scaled by the exaggeration. A tile without surface
    data offers nothing. *)
Definition offeredHeights (exaggeration : float) (d : option GlobeSurfaceTile)
    : option (float * float) :=
  match d with
  | None => None
  | Some d =>
      match mesh d with
      | Some (mkTerrainMesh (Some lo) (Some hi) _ _) => Some (lo, hi)
      | _ =>
          match terrainData d with
          | Some (mkTerrainData (Some lo) (Some hi)) =>
              Some (lo * exaggeration, hi * exaggeration)%float
          | _ =>
              match _bvh d with
              | Some summary =>
                  if notNaN (summary !! 0%nat) && notNaN (summary !! 1%nat)
                  then Some (scaledEntry (summary !! 0%nat) exaggeration,
                             scaledEntry (summary !! 1%nat) exaggeration)
                  else None
              | None => None
              end
          end
      end
  end.

(** (d): the tile [n] steps up the parent chain of [t]; [t] itself for 0,
    none above the root. *)
Fixpoint nthParent (n : nat) (t : QuadtreeTile) : option QuadtreeTile :=
  match n with
  | O => Some t
  | S n =>
      match parent t with
      | Some p => nthParent n p
      | None => None
      end
  end.

(** ** The search of the code in one function

    Helpers of the proofs: the three tests of [updateTileBoundingRegion] on
    one tile, and its loop over a chain of tiles. *)

Definition heightSourceOf (exaggeration : float) (d : option GlobeSurfaceTile)
    : option (float * float) :=
  match d with
  | Some d =>
      match meshHeights (mesh d) with
      | Some h => Some h
      | None =>
          match terrainDataHeights exaggeration (terrainData d) with
          | Some h => Some h
          | None => bvhHeights exaggeration (_bvh d)
          end
      end
  | None => None
  end.

Fixpoint firstHeightSource (exaggeration : float) (s : Store) (chain : list QuadtreeTile)
    : option (QuadtreeTile * (float * float)) :=
  match chain with
  | [] => None
  | t :: rest =>
      match heightSourceOf exaggeration (dataOf s t) with
      | Some h => Some (t, h)
      | None => firstHeightSource exaggeration s rest
      end
  end.

Definition resolveHeightRange (exaggeration : float) (s : Store) (tile : QuadtreeTile)
    : option (QuadtreeTile * (float * float)) :=
  firstHeightSource exaggeration s (tile :: ancestors tile).

(** ** Texture packing as the spec words it *)

(** The texture a counted entry contributes: the selected form of its ready
    imagery. *)
Definition slotTexture (tileImagery : TileImagery) : option Texture :=
  match readyImagery tileImagery with
  | Some imagery => selectedTexture tileImagery imagery
  | None => None
  end.

(** An entry that needs no texture (it is skipped) or carries the one it
    needs. *)
Definition carriesTexture (tileImagery : TileImagery) : bool :=
  negb (countsAsReady tileImagery) || bool_decide (is_Some (slotTexture tileImagery)).

(** The entries packed into one command under a budget of [budget] textures:
    entries are visited in order until [budget] counted ones have been
    taken or the collection ends; the second component is what is left. *)
Fixpoint takeReady (rest : list TileImagery) (budget : nat)
    : list TileImagery * list TileImagery :=
  match rest with
  | [] => ([], [])
  | tileImagery :: rest' =>
      match budget with
      | O => ([], rest)
      | S budget' =>
          if countsAsReady tileImagery
          then let '(taken, unvisited) := takeReady rest' budget' in (tileImagery :: taken, unvisited)
          else takeReady rest' budget
      end
  end.

(** The textures of the taken entries, in slot order. *)
Definition texturesOf (taken : list TileImagery) : list Texture := omap slotTexture taken.

(** The textures of all counted entries of a collection, in order. *)
Definition readyTextures (tileImageryCollection : list TileImagery) : list Texture :=
  texturesOf (filter (fun t => countsAsReady t = true) tileImageryCollection).

(** The groups of entries that successive commands of one tile pack, each
    under the same budget; at most [fuel] groups. *)
Fixpoint passesOf (fuel : nat) (budget : nat) (rest : list TileImagery)
    : list (list TileImagery) :=
  match fuel with
  | O => []
  | S fuel =>
      let '(taken, unvisited) := takeReady rest budget in
      taken :: match unvisited with
               | [] => []
               | _ :: _ => passesOf fuel budget unvisited
               end
  end.

(** What the finished command of one pass looks like: it belongs to the
    tile, has the pass's render state and initial color, holds exactly the
    textures of the entries taken, and asks for a shader with that many
    textures. *)
Definition CommandFor (ctx : PassContext) (state : option RenderState)
    (color : Cartesian4) (taken : list TileImagery) (c : DrawCommand) : Prop :=
  owner c = Some (pass_tile ctx)
  /\ renderState c = state
  /\ initialColor c = color
  /\ dayTextures c = Some <$> texturesOf taken
  /\ numberOfDayTextures <$> shaderProgram c = Some (Z.of_nat (length taken))
  /\ command_vertexArray c = pass_vertexArray ctx.

(** The fields of a command that the inner loop leaves alone. *)
Definition commandFrame (c : DrawCommand) :=
  (owner c, renderState c, shaderProgram c, initialColor c,
   textureCoordinateSubset c, command_vertexArray c).

(** The alpha of the layer an entry's ready imagery belongs to. *)
Definition entryAlpha (t : TileImagery) : float :=
  match readyImagery t with
  | Some imagery => layer_alpha (imageryLayer imagery)
  | None => nan
  end.

Definition notReady : JsError := DeveloperError "readyImagery is not actually ready!".


(** The first pass uses [first], every later pass [other]. *)
Definition passState {A} (k : nat) (first other : A) : A :=
  match k with
  | O => first
  | S _ => other
  end.

(** ** Load priority as the spec words it *)

(** The score at [center] and at a [distance], in the vector operations. *)
Definition priorityScore (cam : Camera) (center : Cartesian3) (distance : float) : float :=
  let toTile := Cartesian3Ops.normalize (Cartesian3Ops.subtract center (positionWC cam)) in
  ((1 - Cartesian3Ops.dot toTile (directionWC cam)) * distance)%float.

(** The arithmetic in which a score is evaluated: the program computes in
    binary64 numbers, the spec's formula speaks of real numbers. *)
Record Arithmetic (N : Type) := mkArithmetic {
  a_one : N;
  a_add : N -> N -> N;
  a_sub : N -> N -> N;
  a_mul : N -> N -> N;
  a_div : N -> N -> N;
  a_sqrt : N -> N
}.
Arguments a_one {N}.
Arguments a_add {N}.
Arguments a_sub {N}.
Arguments a_mul {N}.
Arguments a_div {N}.
Arguments a_sqrt {N}.

Definition binary64 : Arithmetic float :=
  mkArithmetic float 1%float PrimFloat.add PrimFloat.sub PrimFloat.mul PrimFloat.div
    PrimFloat.sqrt.

(** The expression of the score, operation by operation: with [v] the
    vector from the camera's position to the center and [t] that vector
    divided by its length, [(1 - t . direction) * distance]. *)
Definition scoreIn {N} (A : Arithmetic N) (position direction center : N * N * N)
    (distance : N) : N :=
  let '(px, py, pz) := position in
  let '(dx, dy, dz) := direction in
  let '(cx, cy, cz) := center in
  let vx := a_sub A cx px in
  let vy := a_sub A cy py in
  let vz := a_sub A cz pz in
  let magnitude :=
    a_sqrt A (a_add A (a_add A (a_mul A vx vx) (a_mul A vy vy)) (a_mul A vz vz)) in
  let tx := a_div A vx magnitude in
  let ty := a_div A vy magnitude in
  let tz := a_div A vz magnitude in
  let dot := a_add A (a_add A (a_mul A tx dx) (a_mul A ty dy)) (a_mul A tz dz) in
  a_mul A (a_sub A (a_one A) dot) distance.

Definition components (c : Cartesian3) : float * float * float := (c3x c, c3y c, c3z c).

Section ExactArithmetic.
Import Reals.
Local Open Scope R_scope.

Definition exact : Arithmetic R := mkArithmetic R 1 Rplus Rminus Rmult Rdiv sqrt.

(** Vectors of real numbers: inner product, length, the vector from one
    point to another, and the angle between two vectors. *)
Definition dotR (u v : R * R * R) : R :=
  let '(ux, uy, uz) := u in
  let '(vx, vy, vz) := v in
  ux * vx + uy * vy + uz * vz.

Definition lengthR (u : R * R * R) : R := sqrt (dotR u u).

Definition fromTo (a b : R * R * R) : R * R * R :=
  let '(ax, ay, az) := a in
  let '(bx, b_y, bz) := b in
  (bx - ax, b_y - ay, bz - az).

Definition angleBetween (u v : R * R * R) : R :=
  acos (dotR u v / (lengthR u * lengthR v)).

End ExactArithmetic.

(** ** The stored fan *)

(** One stored triangle of the fan around [center] over [boundary] ring
    vertices. *)
Definition storedTriangle (boundary : nat) (i : nat) : list Z :=
  [Z.of_nat boundary mod 65536; Z.of_nat i mod 65536;
   Z.of_nat (S i mod boundary)%nat mod 65536]%Z.

Definition storedFan (boundary done : nat) : list Z :=
  flat_map (storedTriangle boundary) (seq 0%nat done).

(** ** Changes of back-references *)

(** How one call changes the back-references: not at all, or the shown
    tile's reference is cleared, or the shown tile now defers to a different
    tile whose own reference is clear. *)
Inductive RefChange (s s' : Store) (kt : TileKey) : Prop :=
| RefSame : (forall k, backReference s' k = backReference s k) -> RefChange s s' kt
| RefCleared :
    backReference s' kt = None ->
    (forall k, k <> kt -> backReference s' k = backReference s k) -> RefChange s s' kt
| RefDeferred kn :
    kn <> kt ->
    backReference s' kt = Some kn ->
    backReference s' kn = None ->
    (forall k, k <> kt -> k <> kn -> backReference s' k = backReference s k) ->
    RefChange s s' kt.

(** ** Induction along the parent chain *)

(** The induction principle of [QuadtreeTile] that hands over the
    hypothesis for the parent. *)
Fixpoint QuadtreeTile_parent_ind (P : QuadtreeTile -> Prop)
    (step : forall level x y rect (parent : option QuadtreeTile),
        (forall p, parent = Some p -> P p) -> P (mkQuadtreeTile level x y rect parent))
    (t : QuadtreeTile) : P t :=
  match t with
  | mkQuadtreeTile level x y rect parent =>
      step level x y rect parent
        (match parent return forall p, parent = Some p -> P p with
         | Some q => fun p Heq =>
             match Heq in _ = o return match o with Some p => P p | None => True end with
             | eq_refl => QuadtreeTile_parent_ind P step q
             end
         | None => fun p Heq => match Heq with end
         end)
  end.


(** ** Sample inputs

    Concrete collaborators, tiles, frames and stores on which the functions
    are evaluated. *)

Module Sample.

(** Stand-ins for the collaborators: a fog that saturates once
    [distance * density] reaches 1, the vertical distance from the camera to
    the height range, and flat-earth boxes and spheres. *)
Definition collaborators : Collaborators :=
  {| CesiumMath_fog := fun distance density =>
       if Js.ge (distance * density)%float 1 then 1%float else 0%float;
     distanceToCamera := fun region frameState =>
       let h := positionCartographic_height (camera frameState) in
       if Js.gt h (maximumHeight region) then (h - maximumHeight region)%float
       else if Js.lt h (minimumHeight region) then (minimumHeight region - h)%float
       else 0%float;
     OrientedBoundingBox_fromRectangle := fun rectangle lo hi =>
       mkOrientedBoundingBox
         (mkCartesian3 ((west rectangle + east rectangle) / 2)
                       ((south rectangle + north rectangle) / 2)
                       ((lo + hi) / 2)) [];
     Cartesian3_fromRadians := fun longitude latitude height =>
       mkCartesian3 longitude latitude height;
     computeHorizonCullingPoint := fun center _ => center;
     BoundingSphere_fromRectangleWithHeights2D := fun rectangle lo hi =>
       mkBoundingSphere (mkCartesian3 (west rectangle) (south rectangle) lo) (hi - lo);
     BoundingSphere_union := fun left _ => left |}.

Definition root : QuadtreeTile :=
  mkQuadtreeTile 0 0 0 (mkRectangle 0 0 4 4) None.
Definition middle : QuadtreeTile :=
  mkQuadtreeTile 1 0 0 (mkRectangle 0 0 2 2) (Some root).
Definition leaf : QuadtreeTile :=
  mkQuadtreeTile 2 1 1 (mkRectangle 1 1 2 2) (Some middle).

Definition someMesh (lo hi : float) : TerrainMesh :=
  mkTerrainMesh (Some lo) (Some hi) (mkCartesian3 0 0 0)
    (mkBoundingSphere (mkCartesian3 0 0 0) 1).

Definition surfaceWith (m : option TerrainMesh) (t : option TerrainData)
    (b : option (list float)) : GlobeSurfaceTile :=
  {| mesh := m; terrainData := t; _bvh := b;
     tileBoundingRegion := None; boundingVolumeSourceTile := None;
     orientedBoundingBox := None; occludeePointInScaledSpace := None;
     renderableTile := None;
     renderableTileSubset := mkCartesian4 0 0 0 0;
     imagery := []; vertexArray := None; fillMesh := None;
     fillVertexArray := None; waterMaskTexture := None |}.

(** A camera 100 m up, looking straight down. *)
Definition cameraAbove : Camera :=
  mkCamera (mkCartesian3 0 0 100) (mkCartesian3 0 0 (-1)) 100 false.

Definition frame (fogOn : bool) : FrameState :=
  mkFrameState (mkFog fogOn 1) SCENE3D cameraAbove (fun _ => INSIDE) 1 [].

Definition emptyStore : Store := ∅.

(** Only the root has heights: a mesh spanning 5 m to 50 m. *)
Definition rootMeshStore : Store :=
  setData emptyStore root (surfaceWith (Some (someMesh 5 50)) None None).

(** The leaf has raw terrain data (10 m to 20 m), the root a mesh. *)
Definition leafDataStore : Store :=
  setData rootMeshStore leaf
    (surfaceWith None (Some (mkTerrainData (Some 10%float) (Some 20%float))) None).

(** All three tiles have surface data and no back-reference. *)
Definition threeTiles : Store :=
  setData (setData (setData emptyStore root (surfaceWith (Some (someMesh 5 50)) None None))
             middle (surfaceWith None None None))
    leaf (surfaceWith None None None).

Definition provider : GlobeSurfaceTileProvider :=
  {| hasWaterMask := false; oceanNormalMap := None;
     missingTileStrategy := CREATE_FILL_TILE;
     _renderState := None; _blendRenderState := None;
     _tilesToRenderByTextureCount := [];
     _drawCommands := []; _usedDrawCommands := 0;
     _baseColor := mkColor 0 0 0.5 1;
     _firstPassInitialColor := mkCartesian4 0 0 0.5 1;
     _clippingPlanes := None |}.

(** Imagery entries: ready with a geographic texture, ready with a Web
    Mercator texture only, still loading, and ready but fully transparent. *)
Definition readyEntry (t : Texture) : TileImagery :=
  mkTileImagery (Some (mkImagery (mkImageryLayer 1 0) (Some t) None)) None false.
Definition mercatorOnlyEntry (t : Texture) : TileImagery :=
  mkTileImagery (Some (mkImagery (mkImageryLayer 1 0) None (Some t))) None false.
Definition loadingEntry : TileImagery :=
  mkTileImagery None (Some (mkImagery (mkImageryLayer 1 0) None None)) false.
Definition transparentEntry : TileImagery :=
  mkTileImagery (Some (mkImagery (mkImageryLayer 0 0) None None)) None false.

Definition surfaceWithImagery (entries : list TileImagery) : GlobeSurfaceTile :=
  {| mesh := Some (someMesh 5 50); terrainData := None; _bvh := None;
     tileBoundingRegion := None; boundingVolumeSourceTile := None;
     orientedBoundingBox := None; occludeePointInScaledSpace := None;
     renderableTile := None;
     renderableTileSubset := mkCartesian4 0 0 0 0;
     imagery := entries; vertexArray := Some 7%nat; fillMesh := None;
     fillVertexArray := None; waterMaskTexture := None |}.

(** Nine ready layers, with a loading entry and a transparent one among
    them. *)
Definition nineLayers : list TileImagery :=
  [readyEntry 1; readyEntry 2; loadingEntry; readyEntry 3; readyEntry 4;
   readyEntry 5; transparentEntry; readyEntry 6; readyEntry 7; readyEntry 8;
   readyEntry 9]%nat.

Definition nineLayerStore : Store :=
  setData emptyStore leaf (surfaceWithImagery nineLayers).

(** A ready entry whose geographic texture is missing, after two good ones. *)
Definition brokenLayers : list TileImagery :=
  [readyEntry 1; readyEntry 2; mercatorOnlyEntry 3; readyEntry 4]%nat.

Definition brokenStore : Store :=
  setData emptyStore leaf (surfaceWithImagery brokenLayers).

Definition noFillTile : GlobeSurfaceTileProvider -> QuadtreeTile -> FrameState -> Store -> Store :=
  fun _ _ _ s => s.

End Sample.

(** The leaf after one visibility pass over [Sample.rootMeshStore]: its
    heights come from the root's mesh, so it has surface data and a bounding
    box, but no mesh of its own. *)
Definition leafAfterVisibility : Store :=
  (@computeTileVisibility Sample.collaborators None Sample.leaf (Sample.frame false) None
     Sample.rootMeshStore).2.

(** ** The frame protocol: [beginUpdate], [endUpdate], [updateForPick] *)

Definition withClippingPlanes (p : GlobeSurfaceTileProvider)
    (c : option ClippingPlaneCollection) : GlobeSurfaceTileProvider :=
  {| hasWaterMask := hasWaterMask p; oceanNormalMap := oceanNormalMap p;
     missingTileStrategy := missingTileStrategy p;
     _renderState := _renderState p; _blendRenderState := _blendRenderState p;
     _tilesToRenderByTextureCount := _tilesToRenderByTextureCount p;
     _drawCommands := _drawCommands p; _usedDrawCommands := _usedDrawCommands p;
     _baseColor := _baseColor p;
     _firstPassInitialColor := _firstPassInitialColor p;
     _clippingPlanes := c |}.

(** [tiles.length = 0] on every bucket that exists; a hole stays a hole. *)
Definition emptyBucket (tiles : option (list QuadtreeTile)) : option (list QuadtreeTile) :=
  match tiles with
  | Some _ => Some []
  | None => None
  end.

Section BeginUpdate.
(** [ClippingPlaneCollection.prototype.update(frameState)], which is not part
    of the sources: the collection after the call. *)
Variable ClippingPlaneCollection_update :
  ClippingPlaneCollection -> FrameState -> ClippingPlaneCollection.

(** [GlobeSurfaceTileProvider.prototype.beginUpdate(frameState)] *)
Definition beginUpdate (p : GlobeSurfaceTileProvider) (frameState : FrameState)
    : GlobeSurfaceTileProvider :=
  let p := withTilesToRender p (emptyBucket <$> _tilesToRenderByTextureCount p) in
  let p :=
    match _clippingPlanes p with
    | Some clippingPlanes =>
        if clipping_enabled clippingPlanes
        then withClippingPlanes p (Some (ClippingPlaneCollection_update clippingPlanes frameState))
        else p
    | None => p
    end in
  withCommands p (_drawCommands p) 0.

End BeginUpdate.

(** [GlobeSurfaceTileProvider.prototype.updateForPick(frameState)]: the
    commands used in the last frame are pushed again, pool entry after pool
    entry. *)
Definition updateForPick (p : GlobeSurfaceTileProvider) (frameState : FrameState)
    : FrameState :=
  foldl pushCommand frameState (seq 0 (_usedDrawCommands p)).

(** The bucket of the tiles with [count] ready textures; a hole and a slot
    past the end read as no tiles. *)
Definition bucketOf (p : GlobeSurfaceTileProvider) (count : nat) : list QuadtreeTile :=
  default [] (mjoin (_tilesToRenderByTextureCount p !! count)).

(** The queued tiles in the order in which [endUpdate] visits them. *)
Definition queuedTiles (p : GlobeSurfaceTileProvider) : list QuadtreeTile :=
  flat_map (fun bucket => default [] bucket) (_tilesToRenderByTextureCount p).

(** The number of ready textures that [showTileThisFrame] counts for a tile. *)
Definition textureCountOf (s : Store) (t : QuadtreeTile) : nat :=
  readyTextureCount (imagery (surfaceOf s t)).

(** The commands that a call appended to the frame's command list. *)
Definition appendedCommands (before after : FrameState) : list nat :=
  drop (length (commandList before)) (commandList after).

(** The owner of the pooled command behind a reference. *)
Definition ownerOf (p : GlobeSurfaceTileProvider) (index : nat) : option QuadtreeTile :=
  match _drawCommands p !! index with
  | Some c => owner c
  | None => None
  end.

(** What every finished command of a pass shows, whatever its textures: it
    belongs to the pass's tile, has the pass's render state and initial
    color, carries the subset handed to the assembler and asks for a shader
    with or without subset accordingly, draws the pass's vertex array and
    holds no more textures than the budget allows. *)
Definition PassCommand (ctx : PassContext) (state : option RenderState)
    (color : Cartesian4) (c : DrawCommand) : Prop :=
  owner c = Some (pass_tile ctx)
  /\ renderState c = state
  /\ initialColor c = color
  /\ (forall subset, pass_subset ctx = Some subset -> textureCoordinateSubset c = subset)
  /\ useSubset <$> shaderProgram c = Some (bool_decide (is_Some (pass_subset ctx)))
  /\ command_vertexArray c = pass_vertexArray ctx
  /\ (Z.of_nat (length (dayTextures c)) <= Z.max 0 (pass_maxTextures ctx))%Z.

(** The provider after a call that touched only its command pool. *)
Definition samePoolOwner (p p' : GlobeSurfaceTileProvider) : Prop :=
  p' = withCommands p (_drawCommands p') (_usedDrawCommands p').

(** What [n] finished passes of one tile leave behind, starting from the
    provider [p] and the frame [frameState]: the commands were taken from
    the pool at consecutive positions from [_usedDrawCommands p] on and
    pushed in that order, the pool did not shrink, the commands of earlier
    tiles were not touched, and every command is a [PassCommand] of its
    pass. *)
Definition PassesRan (ctx : PassContext) (state : option RenderState) (color : Cartesian4)
    (p : GlobeSurfaceTileProvider) (frameState : FrameState)
    (p' : GlobeSurfaceTileProvider) (frameState' : FrameState) (n : nat) : Prop :=
  frameState' = foldl pushCommand frameState (seq (_usedDrawCommands p) n)
  /\ samePoolOwner p p'
  /\ (_usedDrawCommands p' <= length (_drawCommands p'))%nat
  /\ (length (_drawCommands p) <= length (_drawCommands p'))%nat
  /\ (forall j, (j < _usedDrawCommands p)%nat -> _drawCommands p' !! j = _drawCommands p !! j)
  /\ (forall k, (k < n)%nat ->
        exists c, _drawCommands p' !! (_usedDrawCommands p + k)%nat = Some c
                  /\ PassCommand ctx (passState k state (pass_otherRenderState ctx))
                       (passState k color otherPassesInitialColor) c).

(** What a call that appended [n] commands keeps of the pool: the appended
    references are consecutive from [_usedDrawCommands p] on, the provider
    changed in its pool only, no more commands are in use than the pool
    holds, the pool did not shrink and the commands in use before the call
    were not touched. *)
Definition PoolGrew (p : GlobeSurfaceTileProvider) (frameState : FrameState)
    (p' : GlobeSurfaceTileProvider) (frameState' : FrameState) (n : nat) : Prop :=
  frameState' = foldl pushCommand frameState (seq (_usedDrawCommands p) n)
  /\ samePoolOwner p p'
  /\ (_usedDrawCommands p' <= length (_drawCommands p'))%nat
  /\ (length (_drawCommands p) <= length (_drawCommands p'))%nat
  /\ (forall j, (j < _usedDrawCommands p)%nat -> _drawCommands p' !! j = _drawCommands p !! j)
  /\ (_usedDrawCommands p + n <= _usedDrawCommands p')%nat.

(** The loop of [endUpdate] over the queued tiles. *)
Definition drawTiles (maximumTextureImageUnits : Z)
    (createFillTile : GlobeSurfaceTileProvider -> QuadtreeTile -> FrameState -> Store -> Store)
    (depth : nat) (tiles : list QuadtreeTile)
    (start : Completion (GlobeSurfaceTileProvider * FrameState * Store) unit)
    : Completion (GlobeSurfaceTileProvider * FrameState * Store) unit :=
  foldl (fun acc tile =>
           match acc with
           | Return _ st =>
               addDrawCommandsForTile maximumTextureImageUnits createFillTile depth tile None st
           | other => other
           end) start tiles.

(** Sample frames. *)
Module FrameSample.

(** A clipping-plane collection whose update changes nothing that is
    modelled. *)
Definition noUpdate : ClippingPlaneCollection -> FrameState -> ClippingPlaneCollection :=
  fun c _ => c.

(** The leaf has nine ready layers, the root has surface data without
    imagery. *)
Definition store : Store :=
  setData Sample.nineLayerStore Sample.root (Sample.surfaceWithImagery []).

(** The leaf is shown first, then the root. *)
Definition calls : list (QuadtreeTile * option QuadtreeTile) :=
  [(Sample.leaf, None); (Sample.root, None)].

(** The provider and the tiles after [beginUpdate] and the two calls. *)
Definition shown : GlobeSurfaceTileProvider * Store :=
  showTiles calls (beginUpdate noUpdate Sample.provider (Sample.frame false), store).

(** The state after [endUpdate], with four texture units. *)
Definition drawn : GlobeSurfaceTileProvider * FrameState * Store :=
  stateAfter (shown.1, Sample.frame false, shown.2)
    (endUpdate 4 Sample.noFillTile 1 (shown.1, Sample.frame false, shown.2)).

(** A provider that renders ancestor subsets. *)
Definition subsetProvider : GlobeSurfaceTileProvider :=
  {| hasWaterMask := false; oceanNormalMap := None;
     missingTileStrategy := RENDER_ANCESTOR_SUBSET;
     _renderState := None; _blendRenderState := None;
     _tilesToRenderByTextureCount := [];
     _drawCommands := []; _usedDrawCommands := 0;
     _baseColor := mkColor 0 0 0.5 1;
     _firstPassInitialColor := mkCartesian4 0 0 0.5 1;
     _clippingPlanes := None |}.

(** The leaf is shown through the middle tile, then the middle tile through
    the root: a chain of two back-references. *)
Definition twoHops : list (QuadtreeTile * option QuadtreeTile) :=
  [(Sample.leaf, Some Sample.middle); (Sample.middle, Some Sample.root)].

(** Three tiles with surface data and no back-reference; only the root can
    be drawn. *)
Definition chainStore : Store :=
  setData (setData (setData Sample.emptyStore Sample.root
                      (Sample.surfaceWithImagery [Sample.readyEntry 1%nat]))
             Sample.middle (Sample.surfaceWith None None None))
    Sample.leaf (Sample.surfaceWith None None None).

(** The chain of two back-references over [chainStore], and what the
    assembly of the leaf's commands leaves behind. *)
Definition chain : GlobeSurfaceTileProvider * Store :=
  showTiles twoHops (subsetProvider, chainStore).

Definition chained : GlobeSurfaceTileProvider * FrameState * Store :=
  stateAfter (chain.1, Sample.frame false, chain.2)
    (addDrawCommandsForTile 4 Sample.noFillTile 3 Sample.leaf None
       (chain.1, Sample.frame false, chain.2)).

(** The middle tile can be drawn (one ready layer); the leaf has no geometry
    yet and is shown through the middle tile. *)
Definition deferring : Store :=
  (stateAfter (subsetProvider,
               setData (setData Sample.emptyStore Sample.middle
                          (Sample.surfaceWithImagery [Sample.readyEntry 1%nat]))
                 Sample.leaf (Sample.surfaceWith None None None))
     (showTileThisFrame Sample.leaf (Some Sample.middle)
        (subsetProvider,
         setData (setData Sample.emptyStore Sample.middle
                    (Sample.surfaceWithImagery [Sample.readyEntry 1%nat]))
           Sample.leaf (Sample.surfaceWith None None None)))).2.

Definition deferred : GlobeSurfaceTileProvider * FrameState * Store :=
  stateAfter (subsetProvider, Sample.frame false, deferring)
    (addDrawCommandsForTile 4 Sample.noFillTile 2 Sample.leaf None
       (subsetProvider, Sample.frame false, deferring)).



(** The three tiles after the middle tile was shown through the root: the
    middle tile holds a back-reference. *)
Definition middleShown : Store :=
  (showTiles [(Sample.middle, Some Sample.root)] (Sample.provider, Sample.threeTiles)).2.


End FrameSample.
(** ** What the bounding and visibility passes leave alone *)

(** Two states of a surface tile that differ at most in the bounding data
    (the bounding region, the source of its heights, the oriented box and
    the occludee point). *)
Definition sameContent (d d' : GlobeSurfaceTile) : Prop :=
  mesh d' = mesh d
  /\ terrainData d' = terrainData d
  /\ _bvh d' = _bvh d
  /\ renderableTile d' = renderableTile d
  /\ renderableTileSubset d' = renderableTileSubset d
  /\ imagery d' = imagery d
  /\ vertexArray d' = vertexArray d
  /\ fillMesh d' = fillMesh d
  /\ fillVertexArray d' = fillVertexArray d
  /\ waterMaskTexture d' = waterMaskTexture d.

(** A pass over [tile] that wrote to no other tile and changed the tile's
    surface data in the bounding data only. *)
Definition writesBoundsOf (tile : QuadtreeTile) (s s' : Store) : Prop :=
  (forall k, k <> key tile -> s' !! k = s !! k)
  /\ sameContent (surfaceOf s tile) (surfaceOf s' tile).

(** The bounding volume that [computeTileVisibility] tests, read from the
    store the call leaves behind. *)
Definition testedVolume `{Collaborators} (tile : QuadtreeTile) (frameState : FrameState)
    (s' : Store) : BoundingVolume :=
  visibilityVolume tile frameState (surfaceOf s' tile) (regionOf s' tile).

Module PrioritySample.

(** A camera 100 m up that looks straight down, with a direction vector of
    length 2. *)
Definition longCamera : Camera :=
  mkCamera (mkCartesian3 0 0 100) (mkCartesian3 0 0 (-2)) 100 false.

Definition longFrame : FrameState :=
  mkFrameState (mkFog false 1) SCENE3D longCamera (fun _ => INSIDE) 1 [].

(** The root with a box centered right below the camera, 95 m away. *)
Definition below : Store :=
  setDistance
    (setData Sample.emptyStore Sample.root
       (withBoundingVolume (Sample.surfaceWith None None None) Sample.root
          (mkOrientedBoundingBox (mkCartesian3 0 0 5) []) (mkCartesian3 0 0 5)))
    Sample.root 95.

End PrioritySample.
(** ** Removing an imagery layer *)

(** [array.splice(start, deleteCount)] with two non-negative integers: the
    array without the [deleteCount] elements from [start] on; both
    arguments are cut off at the end of the array. *)
Definition splice {A} (a : list A) (start deleteCount : nat) : list A :=
  take start a ++ drop (start + deleteCount) a.

Definition withImagery (d : GlobeSurfaceTile) (entries : list TileImagery)
    : GlobeSurfaceTile :=
  {| mesh := mesh d; terrainData := terrainData d; _bvh := _bvh d;
     tileBoundingRegion := tileBoundingRegion d;
     boundingVolumeSourceTile := boundingVolumeSourceTile d;
     orientedBoundingBox := orientedBoundingBox d;
     occludeePointInScaledSpace := occludeePointInScaledSpace d;
     renderableTile := renderableTile d;
     renderableTileSubset := renderableTileSubset d;
     imagery := entries; vertexArray := vertexArray d; fillMesh := fillMesh d;
     fillVertexArray := fillVertexArray d; waterMaskTexture := waterMaskTexture d |}.

(** The imagery that [_onLayerRemoved] reads off an entry: the loading one,
    and the ready one when nothing is loading. *)
Definition loadingOrReady (tileImagery : TileImagery) : option Imagery :=
  match loadingImagery tileImagery with
  | Some imagery => Some imagery
  | None => readyImagery tileImagery
  end.

Section LayerRemoved.
(** [imagery.imageryLayer === layer]: whether an imagery layer is the layer
    that the event is about. Layers are compared as objects, so the test is
    a parameter. *)
Variable isLayer : ImageryLayer -> bool.

(** The [for] loop of [_onLayerRemoved] over one tile's collection; [rest]
    is the collection from index [i] on and [freed] lists the entries on
    which [freeResources] has been called. Reading [imageryLayer] off an
    entry without any imagery throws a [TypeError]. *)
Fixpoint removalScan (rest : list TileImagery) (i : nat) (startIndex : option nat)
    (numDestroyed : nat) (freed : list TileImagery)
    : Completion (list TileImagery) (option nat * nat) :=
  match rest with
  | [] => Return (startIndex, numDestroyed) freed
  | tileImagery :: rest' =>
      match loadingOrReady tileImagery with
      | None => Throw TypeError freed
      | Some imagery =>
          if isLayer (imageryLayer imagery) then
            removalScan rest' (S i) (Some (default i startIndex)) (S numDestroyed)
              (freed ++ [tileImagery])
          else
            match startIndex with
            | Some _ => Return (startIndex, numDestroyed) freed
            | None => removalScan rest' (S i) None numDestroyed freed
            end
      end
  end.

(** The callback that [_onLayerRemoved] hands to [forEachLoadedTile]. *)
Definition removeLayerFromTile (tile : QuadtreeTile) (st : Store * list TileImagery)
    : Completion (Store * list TileImagery) unit :=
  let '(s, freed) := st in
  match dataOf s tile with
  | None => Throw TypeError st
  | Some surfaceTile =>
      let tileImageryCollection := imagery surfaceTile in
      match removalScan tileImageryCollection 0 None 0 freed with
      | Return (startIndex, numDestroyed) freed =>
          match startIndex with
          | Some start =>
              Return tt
                (setData s tile
                   (withImagery surfaceTile (splice tileImageryCollection start numDestroyed)),
                 freed)
          | None => Return tt (s, freed)
          end
      | Throw e freed => Throw e (s, freed)
      | Unfinished => Unfinished
      end
  end.

(** [GlobeSurfaceTileProvider.prototype._onLayerRemoved(layer, index)] over
    the tiles that [forEachLoadedTile] visits, in its order. What follows
    the loop (the provider's [_reload] hook is dropped and the update event
    is raised) is not modelled. *)
Definition _onLayerRemoved (loadedTiles : list QuadtreeTile) (st : Store * list TileImagery)
    : Completion (Store * list TileImagery) unit :=
  foldl (fun acc tile =>
           match acc with
           | Return _ st => removeLayerFromTile tile st
           | other => other
           end) (Return tt st) loadedTiles.

(** Whether an entry belongs to the layer, by the imagery that
    [_onLayerRemoved] reads off it. *)
Definition ofLayer (tileImagery : TileImagery) : bool :=
  match loadingOrReady tileImagery with
  | Some imagery => isLayer (imageryLayer imagery)
  | None => false
  end.

(** The entries of the layer sit together in the collection. *)
Definition layerContiguous (entries : list TileImagery) : Prop :=
  forall i j k a c,
    (i < j < k)%nat ->
    entries !! i = Some a -> ofLayer a = true ->
    entries !! k = Some c -> ofLayer c = true ->
    exists b, entries !! j = Some b /\ ofLayer b = true.

End LayerRemoved.

Module LayerSample.

(** Entries of three layers, told apart by their layer index. *)
Definition entryOf (index : nat) (t : Texture) : TileImagery :=
  mkTileImagery (Some (mkImagery (mkImageryLayer 1 index) (Some t) None)) None false.


(** The layer with index 1. *)
Definition isLayerOne (layer : ImageryLayer) : bool := bool_decide (_layerIndex layer = 1%nat).

Definition sorted : list TileImagery :=
  [entryOf 0 10; entryOf 1 11; entryOf 1 12; entryOf 2 13]%nat.

(** The entries of layer 1 are split by an entry of layer 2. *)
Definition split : list TileImagery :=
  [entryOf 0 10; entryOf 1 11; entryOf 2 13; entryOf 1 12]%nat.

Definition storeWith (entries : list TileImagery) : Store :=
  setData Sample.emptyStore Sample.leaf (Sample.surfaceWithImagery entries).

End LayerSample.
(** ** Fill tiles: the rendered neighbours *)

(** The selection results that [findRenderedTiles] tells apart. A tile that
    was visited in the frame and is neither kicked, rendered nor culled is
    treated as refined, whatever its result says. *)
Module TileSelectionResult.
Inductive t := NONE | CULLED | RENDERED | REFINED | KICKED.
#[global] Instance eq_dec : EqDecision t.
Proof. solve_decision. Defined.
End TileSelectionResult.

Module TileEdge.
Inductive t := WEST | NORTH | EAST | SOUTH.
End TileEdge.

(** A quadtree tile as the selection of a frame left it: the frame in which
    it was last visited, the result of that visit, and its four children. A
    child that was never created is [None]: the getter would create a tile
    that no frame has visited, for which a search that only goes down
    returns no tile, as it does for [undefined]. *)
#[warnings="-register-all"]
Inductive SelectedTile := mkSelectedTile {
  selected : QuadtreeTile;
  _lastSelectionResultFrame : option nat;
  _lastSelectionResult : TileSelectionResult.t;
  southwestChild : option SelectedTile;
  southeastChild : option SelectedTile;
  northwestChild : option SelectedTile;
  northeastChild : option SelectedTile
}.

(** [tile._lastSelectionResultFrame !== currentFrameNumber] *)
Definition notVisitedIn (currentFrameNumber : nat) (tile : SelectedTile) : bool :=
  negb (bool_decide (_lastSelectionResultFrame tile = Some currentFrameNumber)).

(** [while (tile && tile._lastSelectionResultFrame !== currentFrameNumber)
    tile = tile.parent] over the chain [startTile.parent],
    [startTile.parent.parent], ... *)
Fixpoint closestVisited (currentFrameNumber : nat) (chain : list SelectedTile)
    : option SelectedTile :=
  match chain with
  | [] => None
  | tile :: rest =>
      if notVisitedIn currentFrameNumber tile then closestVisited currentFrameNumber rest
      else Some tile
  end.

(** [a.concat(b)], [a] being evaluated first. *)
Definition concatResults (a b : Completion unit (list SelectedTile))
    : Completion unit (list SelectedTile) :=
  match a with
  | Return tilesA _ =>
      match b with
      | Return tilesB _ => Return (tilesA ++ tilesB) tt
      | other => other
      end
  | other => other
  end.

(** [findRenderedTiles(startTile, currentFrameNumber, edge, downOnly)] for a
    start tile that is defined; [parents] is the chain of the start tile's
    ancestors, nearest first, and an [edge] that is none of the four values
    of [TileEdge] is [None]. The calls for the children are those of the
    [switch]; a child that is [undefined] gives no tile. *)
Fixpoint findRenderedFrom (startTile : SelectedTile) (parents : list SelectedTile)
    (currentFrameNumber : nat) (edge : option TileEdge.t) (downOnly : bool)
    {struct startTile} : Completion unit (list SelectedTile) :=
  match startTile with
  | mkSelectedTile q frame result southwest southeast northwest northeast =>
      let below child :=
        match child with
        | Some c => findRenderedFrom c [] currentFrameNumber edge true
        | None => Return [] tt
        end in
      if negb (bool_decide (frame = Some currentFrameNumber))
         || bool_decide (result = TileSelectionResult.KICKED)
      then
        if downOnly then Return [] tt
        else
          match closestVisited currentFrameNumber parents with
          | Some ancestor =>
              if bool_decide (_lastSelectionResult ancestor = TileSelectionResult.RENDERED)
              then Return [ancestor] tt
              else Return [] tt
          | None => Return [] tt
          end
      else if bool_decide (result = TileSelectionResult.RENDERED) then Return [startTile] tt
      else if bool_decide (result = TileSelectionResult.CULLED) then Return [] tt
      else
        match edge with
        | Some TileEdge.WEST => concatResults (below southwest) (below northwest)
        | Some TileEdge.EAST => concatResults (below northeast) (below southeast)
        | Some TileEdge.SOUTH => concatResults (below southeast) (below southwest)
        | Some TileEdge.NORTH => concatResults (below northwest) (below northeast)
        | None => Throw (DeveloperError "Invalid edge") tt
        end
  end.

(** [findRenderedTiles(startTile, currentFrameNumber, edge, downOnly)]:
    there are no tiles north or south of the poles, where the start tile is
    [undefined]. *)
Definition findRenderedTiles (startTile : option SelectedTile) (parents : list SelectedTile)
    (currentFrameNumber : nat) (edge : option TileEdge.t) (downOnly : bool)
    : Completion unit (list SelectedTile) :=
  match startTile with
  | None => Return [] tt
  | Some tile => findRenderedFrom tile parents currentFrameNumber edge downOnly
  end.

(** Rendered in the frame [currentFrameNumber]. *)
Definition renderedIn (currentFrameNumber : nat) (tile : SelectedTile) : Prop :=
  _lastSelectionResultFrame tile = Some currentFrameNumber
  /\ _lastSelectionResult tile = TileSelectionResult.RENDERED.

(** The tiles of the subtree below and including a tile. *)
Fixpoint subtree (tile : SelectedTile) : list SelectedTile :=
  match tile with
  | mkSelectedTile _ _ _ southwest southeast northwest northeast =>
      tile :: match southwest with Some c => subtree c | None => [] end
           ++ match southeast with Some c => subtree c | None => [] end
           ++ match northwest with Some c => subtree c | None => [] end
           ++ match northeast with Some c => subtree c | None => [] end
  end.

Definition subtreeOf (tile : option SelectedTile) : list SelectedTile :=
  match tile with
  | Some t => subtree t
  | None => []
  end.

(** The induction principle of [SelectedTile] that hands over the
    hypotheses for the four children. *)
Fixpoint SelectedTile_children_ind (P : SelectedTile -> Prop)
    (step : forall q frame result southwest southeast northwest northeast,
        (forall c, southwest = Some c -> P c) ->
        (forall c, southeast = Some c -> P c) ->
        (forall c, northwest = Some c -> P c) ->
        (forall c, northeast = Some c -> P c) ->
        P (mkSelectedTile q frame result southwest southeast northwest northeast))
    (tile : SelectedTile) : P tile :=
  let child (o : option SelectedTile) : forall c, o = Some c -> P c :=
    match o return forall c, o = Some c -> P c with
    | Some t => fun c Heq =>
        match Heq in _ = x return match x with Some c => P c | None => True end with
        | eq_refl => SelectedTile_children_ind P step t
        end
    | None => fun c Heq => match Heq with end
    end in
  match tile with
  | mkSelectedTile q frame result southwest southeast northwest northeast =>
      step q frame result southwest southeast northwest northeast
        (child southwest) (child southeast) (child northwest) (child northeast)
  end.

Module SelectionSample.

Definition leafTile (x y : nat) (frame : option nat) (result : TileSelectionResult.t)
    : SelectedTile :=
  mkSelectedTile (mkQuadtreeTile 2 x y (mkRectangle 0 0 1 1) None) frame result
    None None None None.

(** A tile refined in frame 7: its western children were rendered, the
    north-eastern one was culled, the south-eastern one was last visited in
    frame 6. *)
Definition refined : SelectedTile :=
  mkSelectedTile (mkQuadtreeTile 1 0 0 (mkRectangle 0 0 2 2) None) (Some 7%nat)
    TileSelectionResult.REFINED
    (Some (leafTile 0 1 (Some 7%nat) TileSelectionResult.RENDERED))
    (Some (leafTile 1 1 (Some 6%nat) TileSelectionResult.RENDERED))
    (Some (leafTile 0 0 (Some 7%nat) TileSelectionResult.RENDERED))
    (Some (leafTile 1 0 (Some 7%nat) TileSelectionResult.CULLED)).

End SelectionSample.
(** ** Fill tiles: the vertices along the edges *)

(** How the assembly of the vertices ends: with a result, with the
    [RangeError] that a negative array length raises, or not within the
    steps allowed. *)
Inductive Outcome (A : Type) :=
| Done (a : A)
| RangeError
| OutOfSteps.
Arguments Done {A} a.
Arguments RangeError {A}.
Arguments OutOfSteps {A}.

(** [array[index]] for an index that may be negative. *)
Definition lookupZ {A} (a : list A) (index : Z) : option A :=
  if (index <? 0)%Z then None else a !! Z.to_nat index.

(** [6 + (hasWebMercatorT ? 1 : 0) + (hasVertexNormals ? 2 : 0)] *)
Definition strideOf (hasWebMercatorT hasVertexNormals : bool) : nat :=
  (6 + (if hasWebMercatorT then 1 else 0) + (if hasVertexNormals then 2 else 0))%nat.

(** [for (j = start; j < start + count; ++j) tileVertices.push(vertices[j])] *)
Definition pushRange (vertices : list float) (start count : nat)
    (tileVertices : list (option float)) : list (option float) :=
  tileVertices ++ ((fun j => vertices !! j) <$> seq start count).

(** [a !== b] for a value [a] that may be [undefined]. *)
Definition differs (a : option float) (b : float) : bool :=
  negb (Js.strictEqU a (Some b)).

Section FillVertices.
(** [CesiumMath.EPSILON4] *)
Variable EPSILON4 : float.
(** [ellipsoid.cartographicToCartesian] of a longitude, a latitude and a
    height. *)
Variable cartographicToCartesian : float -> float -> float -> Cartesian3.
(** [AttributeCompression.octEncode] of the result of
    [ellipsoid.geodeticSurfaceNormalCartographic] at a longitude, a latitude
    and a height. *)
Variable octEncodedNormal : float -> float -> float -> float * float.

(** [Math.abs(a - b) < CesiumMath.EPSILON4] *)
Definition near (a b : option float) : bool :=
  Js.lt (PrimFloat.abs (Js.num a - Js.num b)) EPSILON4.

(** [addCornerVertexIfNecessary(ellipsoid, u, v, longitude, latitude,
    height, edgeDetails, previousEdgeDetails, hasVertexNormals,
    hasWebMercatorT, tileVertices)]: [vertices] and [previousVertices] are
    the vertex arrays of the two edges; the result is [tileVertices] after
    the call. *)
Definition addCornerVertexIfNecessary (u v longitude latitude height : float)
    (vertices previousVertices : list float) (hasVertexNormals hasWebMercatorT : bool)
    (tileVertices : list (option float)) : list (option float) :=
  if Js.strictEqU (Some u) (vertices !! 4%nat) && Js.strictEqU (Some v) (vertices !! 5%nat)
  then tileVertices
  else
    let stride := strideOf hasWebMercatorT hasVertexNormals in
    let lastVertexStart := Z.of_nat (length previousVertices) - Z.of_nat stride in
    let lastU := lookupZ previousVertices (lastVertexStart + 4) in
    let lastV := lookupZ previousVertices (lastVertexStart + 5) in
    if Js.strictEqU lastU (Some u) && Js.strictEqU lastV (Some v) then
      tileVertices
      ++ ((fun i => lookupZ previousVertices (lastVertexStart + Z.of_nat i)) <$> seq 0 stride)
    else
      let cartesian := cartographicToCartesian longitude latitude height in
      let tileVertices :=
        tileVertices ++ [Some (c3x cartesian); Some (c3y cartesian); Some (c3z cartesian);
                         Some height; Some u; Some v] in
      let tileVertices := if hasWebMercatorT then tileVertices ++ [Some v] else tileVertices in
      if hasVertexNormals then
        let normal := octEncodedNormal longitude latitude height in
        tileVertices ++ [Some normal.1; Some normal.2]
      else tileVertices.

(** The first loop of [addVerticesToFillTile]: all vertices but the last
    are copied, except those that are very close to the vertex copied
    before. The result is the loop variable, the texture coordinates of the
    vertex copied last and the array. *)
Fixpoint copyLoop (steps : nat) (vertices : list float) (stride : nat) (i : nat)
    (lastU lastV : option float) (tileVertices : list (option float))
    : option (nat * option float * option float * list (option float)) :=
  match steps with
  | O => None
  | S steps =>
      if (Z.of_nat i <? Z.of_nat (length vertices) - Z.of_nat stride)%Z then
        let u := vertices !! (i + 4)%nat in
        let v := vertices !! (i + 5)%nat in
        if near u lastU && near v lastV
        then copyLoop steps vertices stride (i + stride) lastU lastV tileVertices
        else copyLoop steps vertices stride (i + stride) u v
               (pushRange vertices i stride tileVertices)
      else Some (i, lastU, lastV, tileVertices)
  end.

(** [addVerticesToFillTile(edgeDetails, stride, tileVertices)] on the vertex
    array of the edge. *)
Definition addVerticesToFillTile (vertices : list float) (stride : nat)
    (tileVertices : list (option float)) : Outcome (list (option float)) :=
  match copyLoop (S (length vertices)) vertices stride 0 None None tileVertices with
  | None => OutOfSteps
  | Some (i, lastU, lastV, tileVertices) =>
      let lastVertexStart := i in
      let u := vertices !! (lastVertexStart + 4)%nat in
      let v := vertices !! (lastVertexStart + 5)%nat in
      if bool_decide (lastVertexStart < length vertices)%nat
         && ((differs u 0 && differs u 1) || (differs v 0 && differs v 1))
      then
        if near u lastU && near v lastV then
          if decide (length tileVertices < stride)%nat then RangeError
          else
            Done (pushRange vertices i (length vertices - i)
                    (take (length tileVertices - stride) tileVertices))
        else Done (pushRange vertices i (length vertices - i) tileVertices)
      else Done tileVertices
  end.

(** The vertex at the center of the tile, as [createFillTile] pushes it. *)
Section CenterVertex.
Context `{Collaborators}.
(** [ellipsoid.cartesianToCartographic], as longitude and latitude. *)
Variable cartesianToCartographic : Cartesian3 -> float * float.
(** [WebMercatorProjection.geodeticLatitudeToMercatorAngle] *)
Variable geodeticLatitudeToMercatorAngle : float -> float.

Definition centerVertex (rectangle : Rectangle) (minimumHeight maximumHeight : float)
    (hasVertexNormals hasWebMercatorT : bool) : list (option float) :=
  let middleHeight := ((minimumHeight + maximumHeight) * 0.5)%float in
  let obb := OrientedBoundingBox_fromRectangle rectangle minimumHeight maximumHeight in
  let '(longitude, latitude) := cartesianToCartographic (obb_center obb) in
  let centerVertexPosition := cartographicToCartesian longitude latitude middleHeight in
  let pushed :=
    [Some (c3x centerVertexPosition); Some (c3y centerVertexPosition);
     Some (c3z centerVertexPosition); Some middleHeight;
     Some ((longitude - west rectangle) / (east rectangle - west rectangle))%float;
     Some ((latitude - south rectangle) / (north rectangle - south rectangle))%float] in
  let pushed :=
    if hasWebMercatorT then
      let southMercatorY := geodeticLatitudeToMercatorAngle (south rectangle) in
      let oneOverMercatorHeight :=
        (1 / (geodeticLatitudeToMercatorAngle (north rectangle) - southMercatorY))%float in
      pushed ++ [Some ((geodeticLatitudeToMercatorAngle latitude - southMercatorY)
                       * oneOverMercatorHeight)%float]
    else pushed in
  if hasVertexNormals then
    let normal := octEncodedNormal longitude latitude middleHeight in
    pushed ++ [Some normal.1; Some normal.2]
  else pushed.

(** The vertices that [createFillTile] collects in [tileVertices], with the
    lengths of the array from which it computes [southwestIndex],
    [southeastIndex] and [northeastIndex] ([hasWebMercatorT] is [true]
    there). *)
Record FillVertices := mkFillVertices {
  fill_tileVertices : list (option float);
  lengthAtSouthwest : nat;
  lengthAtSoutheast : nat;
  lengthAtNortheast : nat
}.

Definition createFillTile_vertices (rectangle : Rectangle)
    (minimumHeight maximumHeight : float)
    (westVertices southVertices eastVertices northVertices : list float)
    (hasVertexNormals : bool) : Outcome FillVertices :=
  let hasWebMercatorT := true in
  let stride := strideOf hasWebMercatorT hasVertexNormals in
  let middleHeight := ((minimumHeight + maximumHeight) * 0.5)%float in
  let corner u v longitude latitude edge previousEdge tileVertices :=
    addCornerVertexIfNecessary u v longitude latitude middleHeight edge previousEdge
      hasVertexNormals hasWebMercatorT tileVertices in
  let tileVertices := [] in
  let tileVertices :=
    corner 0%float 1%float (west rectangle) (north rectangle)
      westVertices northVertices tileVertices in
  match addVerticesToFillTile westVertices stride tileVertices with
  | Done tileVertices =>
      let atSouthwest := length tileVertices in
      let tileVertices :=
        corner 0%float 0%float (west rectangle) (south rectangle)
          southVertices westVertices tileVertices in
      match addVerticesToFillTile southVertices stride tileVertices with
      | Done tileVertices =>
          let atSoutheast := length tileVertices in
          let tileVertices :=
            corner 1%float 0%float (east rectangle) (south rectangle)
              eastVertices southVertices tileVertices in
          match addVerticesToFillTile eastVertices stride tileVertices with
          | Done tileVertices =>
              let atNortheast := length tileVertices in
              let tileVertices :=
                corner 1%float 1%float (east rectangle)
                  (north rectangle) northVertices eastVertices tileVertices in
              match addVerticesToFillTile northVertices stride tileVertices with
              | Done tileVertices =>
                  Done (mkFillVertices
                          (tileVertices
                           ++ centerVertex rectangle minimumHeight maximumHeight
                                hasVertexNormals hasWebMercatorT)
                          atSouthwest atSoutheast atNortheast)
              | RangeError => RangeError
              | OutOfSteps => OutOfSteps
              end
          | RangeError => RangeError
          | OutOfSteps => OutOfSteps
          end
      | RangeError => RangeError
      | OutOfSteps => OutOfSteps
      end
  | RangeError => RangeError
  | OutOfSteps => OutOfSteps
  end.

End CenterVertex.

End FillVertices.

(** ** Fill tiles: the vertex numbers along the edges *)

(** [for (i = highest; i >= lowest; --i) out.push(i)] on whole numbers. *)
Fixpoint countDown (steps : nat) (i lowest : Z) (out : list Z) : option (list Z) :=
  match steps with
  | O => None
  | S steps =>
      if (lowest <=? i)%Z then countDown steps (i - 1) lowest (out ++ [i])
      else Some out
  end.

Record EdgeIndices := mkEdgeIndices {
  westIndicesSouthToNorth : list Z;
  southIndicesEastToWest : list Z;
  eastIndicesNorthToSouth : list Z;
  northIndicesWestToEast : list Z
}.

(** The four lists of vertex numbers that [createFillTile] hands to the
    mesh, from the numbers of the corner vertices and the number of
    vertices, all whole. Every loop is given one step more than it can
    take. *)
Definition createFillTile_edgeIndices
    (southwestIndex southeastIndex northeastIndex vertexCount : Z) : option EdgeIndices :=
  let northwestIndex := 0%Z in
  let centerIndex := (vertexCount - 1)%Z in
  let loop highest lowest out :=
    countDown (S (Z.to_nat (highest - lowest + 1))) highest lowest out in
  westIndices ← loop southwestIndex northwestIndex [];
  southIndices ← loop southeastIndex southwestIndex [];
  eastIndices ← loop northeastIndex southeastIndex [];
  northIndices ← loop (centerIndex - 1)%Z northeastIndex [0%Z];
  Some (mkEdgeIndices westIndices southIndices eastIndices northIndices).

(** The whole numbers from [highest] down to [lowest]. *)
Definition descending (highest lowest : Z) : list Z :=
  (fun k => highest - Z.of_nat k)%Z <$> seq 0 (Z.to_nat (highest - lowest + 1)).

(** The values of vertex [j] of an edge, as they are pushed. *)
Definition vertexAt (vertices : list float) (stride : nat) (j : nat) : list (option float) :=
  (fun k => vertices !! k) <$> seq (j * stride) stride.

(** Whether the texture coordinates of vertex [j] are those of a corner of
    the tile. *)
Definition isCorner (vertices : list float) (stride : nat) (j : nat) : bool :=
  negb ((differs (vertices !! (j * stride + 4)%nat) 0
         && differs (vertices !! (j * stride + 4)%nat) 1)
        || (differs (vertices !! (j * stride + 5)%nat) 0
            && differs (vertices !! (j * stride + 5)%nat) 1)).

Module VertexSample.

(** A vertex of stride 7 with the texture coordinates [u], [v]. *)
Definition vertex (u v : float) : list float := [10; 20; 30; 5; u; v; v]%float.

(** An edge from the corner (0, 1) down to the corner (0, 0): the second
    vertex is almost at the first, the last one is the corner. *)
Definition westEdge : list float :=
  vertex 0 1 ++ vertex 0 0.9999847412109375 ++ vertex 0 0.5 ++ vertex 0 0.

(** The double that [CesiumMath.EPSILON4], 0.0001, stands for. *)
Definition epsilon4 : float := 0x1.a36e2eb1c432dp-14%float.

Definition flatEarth : float -> float -> float -> Cartesian3 :=
  fun longitude latitude height => mkCartesian3 longitude latitude height.

Definition upNormal : float -> float -> float -> float * float :=
  fun _ _ _ => (0%float, 0%float).

(** The longitude and latitude of a position on the flat earth. *)
Definition flatCartographic : Cartesian3 -> float * float :=
  fun position => (c3x position, c3y position).

Definition mercatorAngle : float -> float := fun latitude => latitude.

(** A tile of one by one; the edges are [westEdge] and three edges of the
    two corners each. *)
Definition unitRectangle : Rectangle := mkRectangle 0 0 1 1.

Definition southEdge : list float := vertex 0 0 ++ vertex 1 0.
Definition eastEdge : list float := vertex 1 0 ++ vertex 1 1.
Definition northEdge : list float := vertex 1 1 ++ vertex 0 1.

End VertexSample.
(** ** Reloading an imagery layer *)

(** [defaultValue(tileImagery.readyImagery, tileImagery.loadingImagery)] *)
Definition readyOrLoading (tileImagery : TileImagery) : option Imagery :=
  match readyImagery tileImagery with
  | Some imagery => Some imagery
  | None => loadingImagery tileImagery
  end.

(** The fields of a loaded tile that the [_reload] hook of [_onLayerAdded]
    reads and writes: [tile.data.imagery], [tile._loadedCallbacks] by layer
    index (a callback made by [getTileReadyCallback] is held as the
    [tileImageriesToFree] it was made with) and whether [tile.state] is
    [QuadtreeTileLoadState.LOADING]. *)
Record LoadedTile := mkLoadedTile {
  tile_imagery : list TileImagery;
  _loadedCallbacks : gmap nat nat;
  tile_loading : bool
}.

Section Reload.
(** [imagery.imageryLayer === layer] *)
Variable isLayer : ImageryLayer -> bool.
(** [layer._layerIndex] *)
Variable layerIndex : nat.
(** [layer._createTileImagerySkeletons(tile, terrainProvider,
    insertionPoint)], which is not part of the sources: whether skeletons
    were created, and the tile's collection after the call. *)
Variable createTileImagerySkeletons : list TileImagery -> nat -> bool * list TileImagery.

(** The first loop of the callback of [getTileReadyCallback]: the index of
    the first entry of the layer. Reading [imageryLayer] off an entry
    without any imagery throws a [TypeError]. *)
Fixpoint firstOfLayer (rest : list TileImagery) (i : nat) : JsError + option nat :=
  match rest with
  | [] => inr None
  | tileImagery :: rest' =>
      match readyOrLoading tileImagery with
      | None => inl TypeError
      | Some imagery =>
          if isLayer (imageryLayer imagery) then inr (Some i)
          else firstOfLayer rest' (S i)
      end
  end.

(** The function that [getTileReadyCallback(tileImageriesToFree, layer,
    terrainProvider)] returns, on the tile's collection and the list of the
    entries on which [freeResources] has been called: what it returns and
    the two lists after the call. *)
Definition tileReadyCallback (tileImageriesToFree : nat)
    (st : list TileImagery * list TileImagery)
    : JsError + (bool * (list TileImagery * list TileImagery)) :=
  let '(tileImageryCollection, freed) := st in
  match firstOfLayer tileImageryCollection 0 with
  | inl e => inl e
  | inr None => inr (true, st)
  | inr (Some startIndex) =>
      let endIndex := (startIndex + tileImageriesToFree)%nat in
      let imagery :=
        match tileImageryCollection !! endIndex with
        | Some tileImagery => readyOrLoading tileImagery
        | None => None
        end in
      if match imagery with
         | Some imagery => negb (isLayer (imageryLayer imagery))
         | None => true
         end
      then
        let '(created, tileImageryCollection) :=
          createTileImagerySkeletons tileImageryCollection endIndex in
        inr (negb created, (tileImageryCollection, freed))
      else
        inr (true,
             (splice tileImageryCollection startIndex tileImageriesToFree,
              freed ++ take tileImageriesToFree (drop startIndex tileImageryCollection)))
  end.

(** The loop of the [_reload] hook over one tile's collection: where the
    entries of the layer start and how many there are. *)
Fixpoint reloadScan (rest : list TileImagery) (i : nat) (startIndex : option nat)
    (tileImageriesToFree : nat) : JsError + (option nat * nat) :=
  match rest with
  | [] => inr (startIndex, tileImageriesToFree)
  | tileImagery :: rest' =>
      match readyOrLoading tileImagery with
      | None => inl TypeError
      | Some imagery =>
          if isLayer (imageryLayer imagery) then
            reloadScan rest' (S i) (Some (default i startIndex)) (S tileImageriesToFree)
          else
            match startIndex with
            | Some _ => inr (startIndex, tileImageriesToFree)
            | None => reloadScan rest' (S i) None tileImageriesToFree
            end
      end
  end.

(** The function that the [_reload] hook hands to [forEachLoadedTile]. *)
Definition reloadTile (tile : LoadedTile) : JsError + LoadedTile :=
  match _loadedCallbacks tile !! layerIndex with
  | Some _ => inr tile
  | None =>
      let tileImageryCollection := tile_imagery tile in
      match reloadScan tileImageryCollection 0 None 0 with
      | inl e => inl e
      | inr (None, _) => inr tile
      | inr (Some startIndex, tileImageriesToFree) =>
          let insertionPoint := (startIndex + tileImageriesToFree)%nat in
          let '(created, tileImageryCollection) :=
            createTileImagerySkeletons tileImageryCollection insertionPoint in
          if created then
            inr (mkLoadedTile tileImageryCollection
                   (<[layerIndex := tileImageriesToFree]> (_loadedCallbacks tile)) true)
          else
            inr (mkLoadedTile tileImageryCollection (_loadedCallbacks tile)
                   (tile_loading tile))
      end
  end.

(** Whether an entry belongs to the layer, by the imagery that the hook
    reads off it; [None] for an entry without any imagery. *)
Definition ofReloadedLayer (tileImagery : TileImagery) : option bool :=
  (fun imagery => isLayer (imageryLayer imagery)) <$> readyOrLoading tileImagery.

End Reload.

Module ReloadSample.

(** The new skeleton of layer 1, put at the insertion point. *)
Definition skeleton : TileImagery :=
  mkTileImagery None (Some (mkImagery (mkImageryLayer 1 1) None None)) false.

Definition createSkeleton : list TileImagery -> nat -> bool * list TileImagery :=
  fun entries insertionPoint =>
    (true, take insertionPoint entries ++ [skeleton] ++ drop insertionPoint entries).

Definition tile : LoadedTile := mkLoadedTile LayerSample.sorted ∅ false.

End ReloadSample.
(** ** Properties of the store *)

Lemma fieldsOf_insert_same (s : Store) (t a : QuadtreeTile) (f : TileFields) :
  key a = key t -> fieldsOf (<[key t := f]> s) a = f.
Proof.
  intros Hk. unfold fieldsOf. rewrite Hk. by rewrite lookup_insert_eq.
Qed.

Lemma fieldsOf_insert_other (s : Store) (t a : QuadtreeTile) (f : TileFields) :
  key a <> key t -> fieldsOf (<[key t := f]> s) a = fieldsOf s a.
Proof.
  intros Hk. unfold fieldsOf. by rewrite lookup_insert_ne.
Qed.

Lemma dataOf_setData_same (s : Store) (t a : QuadtreeTile) (d : GlobeSurfaceTile) :
  key a = key t -> dataOf (setData s t d) a = Some d.
Proof.
  intros Hk. unfold dataOf, setData. by rewrite fieldsOf_insert_same.
Qed.

Lemma dataOf_setData_other (s : Store) (t a : QuadtreeTile) (d : GlobeSurfaceTile) :
  key a <> key t -> dataOf (setData s t d) a = dataOf s a.
Proof.
  intros Hk. unfold dataOf, setData. by rewrite fieldsOf_insert_other.
Qed.

Lemma dataOf_setData (s : Store) (t : QuadtreeTile) (d : GlobeSurfaceTile) :
  dataOf (setData s t d) t = Some d.
Proof. by apply dataOf_setData_same. Qed.

Lemma surfaceOf_setData (s : Store) (t : QuadtreeTile) (d : GlobeSurfaceTile) :
  surfaceOf (setData s t d) t = d.
Proof. unfold surfaceOf. by rewrite dataOf_setData. Qed.

Lemma regionOf_setData (s : Store) (t : QuadtreeTile) (d : GlobeSurfaceTile)
    (r : TileBoundingRegion) :
  regionOf (setData s t (withRegion d r)) t = r.
Proof. unfold regionOf. by rewrite surfaceOf_setData. Qed.

Lemma dataOf_setDistance (s : Store) (t a : QuadtreeTile) (x : float) :
  dataOf (setDistance s t x) a = dataOf s a.
Proof.
  unfold dataOf, setDistance.
  destruct (decide (key a = key t)) as [Hk|Hk].
  - rewrite fieldsOf_insert_same by done. unfold fieldsOf. by rewrite Hk.
  - by rewrite fieldsOf_insert_other.
Qed.

Lemma dataOf_setIsClipped (s : Store) (t a : QuadtreeTile) (b : bool) :
  dataOf (setIsClipped s t b) a = dataOf s a.
Proof.
  unfold dataOf, setIsClipped.
  destruct (decide (key a = key t)) as [Hk|Hk].
  - rewrite fieldsOf_insert_same by done. unfold fieldsOf. by rewrite Hk.
  - by rewrite fieldsOf_insert_other.
Qed.

(** ** Height resolution *)

Section HeightResolution.

Lemma heightSourceOf_withRegion e d r :
  heightSourceOf e (Some (withRegion d r)) = heightSourceOf e (Some d).
Proof. reflexivity. Qed.

Lemma heightSourceOf_new e : heightSourceOf e (Some newGlobeSurfaceTile) = None.
Proof. reflexivity. Qed.

(** The ancestor loop is the spec's search over the chain. *)
Lemma ancestorLoop_firstHeightSource e s chain :
  ancestorLoop e s chain = firstHeightSource e s chain.
Proof.
  induction chain as [|a rest IH]; [done|].
  simpl. destruct (dataOf s a) as [d|]; simpl; [|done].
  destruct (meshHeights (mesh d)); [done|].
  destruct (terrainDataHeights e (terrainData d)); [done|].
  destruct (bvhHeights e (_bvh d)); done.
Qed.

(** Writing the tile's own bounding region changes no tile's offer. *)
Lemma firstHeightSource_setData e s tile d r chain :
  heightSourceOf e (dataOf s tile) = None ->
  d = default newGlobeSurfaceTile (dataOf s tile) ->
  firstHeightSource e (setData s tile (withRegion d r)) chain
  = firstHeightSource e s chain.
Proof.
  intros Hnone ->. induction chain as [|a rest IH]; [done|].
  simpl. destruct (decide (key a = key tile)) as [Hk|Hk].
  - rewrite dataOf_setData_same by done.
    rewrite heightSourceOf_withRegion.
    assert (dataOf s a = dataOf s tile) as ->.
    { unfold dataOf, fieldsOf. by rewrite Hk. }
    rewrite Hnone.
    destruct (dataOf s tile) as [d0|]; simpl in *; by rewrite ?Hnone, IH.
  - rewrite dataOf_setData_other by done. by rewrite IH.
Qed.

(** What [updateTileBoundingRegion] returns and stores, in terms of the
    spec's search. *)
Lemma updateTileBoundingRegion_spec tile frameState s :
  let e := terrainExaggeration frameState in
  let r := updateTileBoundingRegion tile frameState s in
  match resolveHeightRange e s tile with
  | Some (source, (lo, hi)) =>
      r.1 = Some source
      /\ minimumHeight (regionOf r.2 tile) = lo
      /\ maximumHeight (regionOf r.2 tile) = hi
  | None =>
      r.1 = None
      /\ minimumHeight (regionOf r.2 tile) = nan
      /\ maximumHeight (regionOf r.2 tile) = nan
  end.
Proof.
  intros e r. subst r. unfold resolveHeightRange, updateTileBoundingRegion, getBvh.
  simpl firstHeightSource. fold e.
  destruct (dataOf s tile) as [d|] eqn:Hd; simpl.
  - destruct (meshHeights (mesh d)) as [[lo hi]|] eqn:Hm; simpl.
    { by rewrite regionOf_setData. }
    destruct (terrainDataHeights e (terrainData d)) as [[lo hi]|] eqn:Ht; simpl.
    { by rewrite regionOf_setData. }
    destruct (bvhHeights e (_bvh d)) as [[lo hi]|] eqn:Hb; simpl.
    { by rewrite regionOf_setData. }
    rewrite ancestorLoop_firstHeightSource.
    rewrite firstHeightSource_setData; [| by rewrite Hd; simpl; rewrite Hm, Ht | by rewrite Hd].
    destruct (firstHeightSource e s (ancestors tile)) as [[a [lo hi]]|]; simpl;
      by rewrite regionOf_setData.
  - rewrite ancestorLoop_firstHeightSource.
    rewrite firstHeightSource_setData; [| by rewrite Hd | by rewrite Hd].
    destruct (firstHeightSource e s (ancestors tile)) as [[a [lo hi]]|]; simpl;
      by rewrite regionOf_setData.
Qed.

Lemma firstHeightSource_elem e s chain source h :
  firstHeightSource e s chain = Some (source, h) ->
  source ∈ chain /\ heightSourceOf e (dataOf s source) = Some h.
Proof.
  induction chain as [|a rest IH]; [done|].
  simpl. destruct (heightSourceOf e (dataOf s a)) as [h'|] eqn:Ha.
  - intros [= <- <-]. split; [left|done].
  - intros Hr. destruct (IH Hr). split; [by right|done].
Qed.

Lemma resolveHeightRange_source e s tile source h :
  resolveHeightRange e s tile = Some (source, h) ->
  (source = tile \/ source ∈ ancestors tile)
  /\ heightSourceOf e (dataOf s source) = Some h.
Proof.
  intros Hres. apply firstHeightSource_elem in Hres as [Hin Hsrc].
  split; [|done]. apply elem_of_cons in Hin. naive_solver.
Qed.

Lemma resolveHeightRange_none e s tile t :
  resolveHeightRange e s tile = None ->
  t = tile \/ t ∈ ancestors tile ->
  heightSourceOf e (dataOf s t) = None.
Proof.
  unfold resolveHeightRange. intros Hres Ht.
  assert (t ∈ tile :: ancestors tile) as Hin by (apply elem_of_cons; naive_solver).
  clear Ht. revert Hres Hin. generalize (tile :: ancestors tile) as chain.
  induction chain as [|a rest IH]; [by inversion 2|].
  simpl. destruct (heightSourceOf e (dataOf s a)) eqn:Ha; [done|].
  intros Hr' [->|Hin]%elem_of_cons; [done|]. by apply IH.
Qed.

Lemma nan_mul (e : float) : (nan * e)%float = nan.
Proof. apply Prim2SF_inj. rewrite mul_spec. reflexivity. Qed.

Lemma notNaN_strictEqU entry : notNaN entry = Js.strictEqU entry entry.
Proof.
  destruct entry as [h|]; [|done]. unfold notNaN, PrimFloat.is_nan.
  apply Bool.negb_involutive.
Qed.

Lemma scaledEntry_num entry e : scaledEntry entry e = (Js.num entry * e)%float.
Proof. destruct entry as [h|]; [done|]. cbn. by rewrite nan_mul. Qed.

(** The three tests of the code are the spec's order of preference. *)
Lemma heightSourceOf_offered e d : heightSourceOf e d = offeredHeights e d.
Proof.
  destruct d as [d|]; [|done]. unfold heightSourceOf, offeredHeights.
  assert (bvhHeights e (_bvh d)
          = match _bvh d with
            | Some summary =>
                if notNaN (summary !! 0%nat) && notNaN (summary !! 1%nat)
                then Some (scaledEntry (summary !! 0%nat) e, scaledEntry (summary !! 1%nat) e)
                else None
            | None => None
            end) as Hsummary.
  { unfold bvhHeights. destruct (_bvh d) as [b|]; [|done].
    by rewrite !notNaN_strictEqU, !scaledEntry_num. }
  assert (match terrainDataHeights e (terrainData d) with
          | Some h => Some h
          | None => bvhHeights e (_bvh d)
          end
          = match terrainData d with
            | Some (mkTerrainData (Some lo) (Some hi)) => Some (lo * e, hi * e)%float
            | _ => bvhHeights e (_bvh d)
            end) as Hdata.
  { unfold terrainDataHeights. by destruct (terrainData d) as [[[lo|] [hi|]]|]. }
  rewrite <- Hsummary, Hdata. unfold meshHeights.
  by destruct (mesh d) as [[[lo|] [hi|] center sphere]|].
Qed.

(** The chain that the code walks is the parent chain. *)
Lemma nthParent_ancestors n tile : nthParent n tile = (tile :: ancestors tile) !! n.
Proof.
  revert tile. induction n as [|n IH]; intros tile; [done|].
  cbn [nthParent lookup list_lookup]. destruct tile as [level x y rect [p|]]; cbn.
  - by rewrite IH.
  - done.
Qed.

(** The search returns the first tile of the chain that offers heights. *)
Lemma firstHeightSource_first e s chain :
  match firstHeightSource e s chain with
  | Some (source, h) =>
      exists n,
        chain !! n = Some source
        /\ heightSourceOf e (dataOf s source) = Some h
        /\ forall m a, (m < n)%nat -> chain !! m = Some a ->
             heightSourceOf e (dataOf s a) = None
  | None => forall n a, chain !! n = Some a -> heightSourceOf e (dataOf s a) = None
  end.
Proof.
  induction chain as [|t rest IH]; cbn [firstHeightSource]; [done|].
  destruct (heightSourceOf e (dataOf s t)) as [h|] eqn:Ht.
  - exists 0%nat. split_and!; [done|done|]. intros m a Hm. lia.
  - destruct (firstHeightSource e s rest) as [[source h]|].
    + destruct IH as (n & Hn & Hsource & Hbefore). exists (S n).
      split_and!; [done|done|]. intros [|m] a Hm Ha.
      * by injection Ha as <-.
      * apply (Hbefore m); [lia|done].
    + intros [|n] a Ha; [by injection Ha as <-|]. by apply (IH n).
Qed.

(** C1. Height resolution: the bounding region's height range is taken from
    the first matching source in the fixed order (a) own mesh, (b) own
    terrain data scaled by the exaggeration, (c) own cached height summary
    scaled by the exaggeration when its two entries are not NaN, (d) the same
    tests on each ancestor in parent order. The function returns the tile
    that was used: the tile itself or one of its ancestors, the first one
    up the parent chain that offers heights, and the region holds the
    heights it offers. It returns [undefined] when no tile of the chain
    offers a source. *)
Theorem updateTileBoundingRegion_first_source tile frameState s :
  let e := terrainExaggeration frameState in
  let r := updateTileBoundingRegion tile frameState s in
  match r.1 with
  | Some source =>
      exists n lo hi,
        nthParent n tile = Some source
        /\ offeredHeights e (dataOf s source) = Some (lo, hi)
        /\ (forall m a, (m < n)%nat -> nthParent m tile = Some a ->
              offeredHeights e (dataOf s a) = None)
        /\ minimumHeight (regionOf r.2 tile) = lo
        /\ maximumHeight (regionOf r.2 tile) = hi
  | None =>
      forall n a, nthParent n tile = Some a -> offeredHeights e (dataOf s a) = None
  end.
Proof.
  intros e r.
  pose proof (updateTileBoundingRegion_spec tile frameState s) as Hspec.
  simpl in Hspec. fold e r in Hspec.
  pose proof (firstHeightSource_first e s (tile :: ancestors tile)) as Hfirst.
  unfold resolveHeightRange in Hspec.
  destruct (firstHeightSource e s (tile :: ancestors tile)) as [[source [lo hi]]|].
  - destruct Hspec as (-> & Hlo & Hhi). destruct Hfirst as (n & Hn & Hsource & Hbefore).
    exists n, lo, hi. rewrite nthParent_ancestors, <- heightSourceOf_offered.
    split_and!; [done|done| |done|done].
    intros m a Hm Ha. rewrite <- heightSourceOf_offered. apply (Hbefore m); [done|].
    by rewrite <- nthParent_ancestors.
  - destruct Hspec as (-> & _). intros n a Ha. rewrite <- heightSourceOf_offered.
    apply (Hfirst n). by rewrite <- nthParent_ancestors.
Qed.

End HeightResolution.

(** ** The ordering of the resolved heights *)

Section HeightOrdering.

(** C7 (as amended). When height resolution returns a source tile, the
    region holds the heights that this source offers, so
    [minimumHeight <= maximumHeight] holds as soon as every height range
    offered along the parent chain (after the exaggeration scaling) is
    ordered; when resolution fails, both heights are NaN. *)
Theorem updateTileBoundingRegion_ordered tile frameState s :
  let e := terrainExaggeration frameState in
  let r := updateTileBoundingRegion tile frameState s in
  (forall source, r.1 = Some source ->
     offeredHeights e (dataOf s source)
     = Some (minimumHeight (regionOf r.2 tile), maximumHeight (regionOf r.2 tile)))
  /\ ((forall n a lo hi, nthParent n tile = Some a ->
         offeredHeights e (dataOf s a) = Some (lo, hi) -> Js.le lo hi = true) ->
      is_Some r.1 ->
      Js.le (minimumHeight (regionOf r.2 tile)) (maximumHeight (regionOf r.2 tile)) = true)
  /\ (r.1 = None ->
     minimumHeight (regionOf r.2 tile) = nan /\ maximumHeight (regionOf r.2 tile) = nan).
Proof.
  intros e r.
  pose proof (updateTileBoundingRegion_spec tile frameState s) as Hspec.
  simpl in Hspec. fold e r in Hspec.
  pose proof (firstHeightSource_first e s (tile :: ancestors tile)) as Hfirst.
  unfold resolveHeightRange in Hspec.
  destruct (firstHeightSource e s (tile :: ancestors tile)) as [[source [lo hi]]|].
  - destruct Hspec as (Hr & Hlo & Hhi). destruct Hfirst as (n & Hn & Hsource & _).
    rewrite heightSourceOf_offered in Hsource. rewrite <- nthParent_ancestors in Hn.
    split_and!.
    + intros source' Hsource'. rewrite Hr in Hsource'. injection Hsource' as <-.
      by rewrite Hlo, Hhi.
    + intros Hordered _. rewrite Hlo, Hhi. by eapply Hordered.
    + rewrite Hr. done.
  - destruct Hspec as (Hr & Hlo & Hhi). split_and!.
    + rewrite Hr. done.
    + rewrite Hr. by intros _ [? ?].
    + done.
Qed.

End HeightOrdering.

(** C7, witness: the leaf with terrain data of 10 m to 20 m holds these
    heights after resolution, in order. *)
Lemma updateTileBoundingRegion_ordered_witness :
  offeredHeights 1 (dataOf Sample.leafDataStore Sample.leaf)
  = Some (minimumHeight (regionOf
            (updateTileBoundingRegion Sample.leaf (Sample.frame false)
               Sample.leafDataStore).2 Sample.leaf),
          maximumHeight (regionOf
            (updateTileBoundingRegion Sample.leaf (Sample.frame false)
               Sample.leafDataStore).2 Sample.leaf))
  /\ Js.le (minimumHeight (regionOf
              (updateTileBoundingRegion Sample.leaf (Sample.frame false)
                 Sample.leafDataStore).2 Sample.leaf))
           (maximumHeight (regionOf
              (updateTileBoundingRegion Sample.leaf (Sample.frame false)
                 Sample.leafDataStore).2 Sample.leaf)) = true.
Proof.
  split.
  - apply (proj1 (updateTileBoundingRegion_ordered Sample.leaf
                    (Sample.frame false) Sample.leafDataStore) Sample.leaf).
    vm_compute. reflexivity.
  - apply (proj1 (proj2 (updateTileBoundingRegion_ordered Sample.leaf
                           (Sample.frame false) Sample.leafDataStore))).
    + intros [|[|[|n]]] a lo hi Ha Hoffer.
      * injection Ha as <-. vm_compute in Hoffer. by injection Hoffer as <- <-.
      * injection Ha as <-. vm_compute in Hoffer. done.
      * injection Ha as <-. vm_compute in Hoffer. by injection Hoffer as <- <-.
      * done.
    + vm_compute. eauto.
Defined.

(** C7, counterexample: a root tile that has no height source at all. After
    resolution its region holds NaN twice, and [NaN <= NaN] is false. *)
Lemma updateTileBoundingRegion_unresolved_not_ordered :
  (updateTileBoundingRegion Sample.root (Sample.frame false)
     Sample.emptyStore).1 = None
  /\ Js.le (minimumHeight (regionOf
             (updateTileBoundingRegion Sample.root (Sample.frame false)
                Sample.emptyStore).2 Sample.root))
           (maximumHeight (regionOf
             (updateTileBoundingRegion Sample.root (Sample.frame false)
                Sample.emptyStore).2 Sample.root)) = false.
Proof. split; vm_compute; reflexivity. Qed.

(** ** Distance *)

Section Distance.
Context `{Collaborators}.

Lemma withHeights_measuredRegion own h r :
  withHeights (measuredRegion own h r) (minimumHeight r) (maximumHeight r) = r.
Proof.
  destruct r as [rect lo hi]. unfold measuredRegion. simpl.
  destruct own; [done|]. by destruct (Js.gt _ _).
Qed.

Lemma updateTileBoundingRegion_data tile frameState s :
  exists d r,
    dataOf (updateTileBoundingRegion tile frameState s).2 tile = Some (withRegion d r).
Proof.
  unfold updateTileBoundingRegion.
  repeat (case_match; simpl); rewrite dataOf_setData; eauto.
Qed.

(** After resolution, the distance is measured on the resolved range itself
    when the source is the tile, and on the range collapsed onto the height
    farther from the camera when the source is another tile. *)
Lemma computeDistanceToTile_measures tile frameState s source :
  let r := updateTileBoundingRegion tile frameState s in
  r.1 = Some source ->
  (computeDistanceToTile tile frameState s).1
  = distanceToCamera
      (measuredRegion (sameTile source tile)
         (positionCartographic_height (camera frameState)) (regionOf r.2 tile))
      frameState.
Proof.
  intros r Hr. unfold computeDistanceToTile. fold r.
  destruct r as [hs s1] eqn:Hupd. simpl in Hr. subst hs. simpl.
  rewrite regionOf_setData. f_equal. f_equal.
  destruct (sameTileU (boundingVolumeSourceTile (surfaceOf s1 tile)) source) eqn:Hsame; simpl.
  - destruct (boundingVolumeSourceTile (surfaceOf s1 tile)) as [b|]; [|done].
    simpl in *. unfold sameTile in *. apply bool_decide_eq_true in Hsame.
    by rewrite Hsame.
  - done.
Qed.

(** C10. The collapse is temporary: when [computeDistanceToTile] returns,
    the tile's bounding region is the one height resolution produced. *)
Theorem computeDistanceToTile_restores_region tile frameState s :
  regionOf (computeDistanceToTile tile frameState s).2 tile
  = regionOf (updateTileBoundingRegion tile frameState s).2 tile.
Proof.
  unfold computeDistanceToTile.
  destruct (updateTileBoundingRegion tile frameState s) as [hs s1]. simpl.
  destruct hs as [hs|]; [|done]. simpl.
  rewrite !regionOf_setData. apply withHeights_measuredRegion.
Qed.

(** The distance pass leaves the tile with surface data. *)
Lemma computeDistanceToTile_data tile frameState s :
  is_Some (dataOf (computeDistanceToTile tile frameState s).2 tile).
Proof.
  unfold computeDistanceToTile.
  destruct (updateTileBoundingRegion_data tile frameState s) as (d & r & Hd).
  destruct (updateTileBoundingRegion tile frameState s) as [hs s1]. simpl in *.
  destruct hs; simpl; [by rewrite dataOf_setData | by rewrite Hd].
Qed.

End Distance.

(** ** Visibility *)

Section VisibilityProperties.
Context `{Collaborators}.

(** C3 (as amended). With fog enabled, a fog opacity of at least 1.0 at the
    computed distance makes the tile invisible, whatever the clipping planes,
    the culling volume and the occluders say. *)
Theorem computeTileVisibility_fog clippingPlanes tile frameState occluders s :
  fog_enabled (fog frameState) = true ->
  Js.ge (CesiumMath_fog (computeDistanceToTile tile frameState s).1
           (fog_density (fog frameState))) 1 = true ->
  (computeTileVisibility clippingPlanes tile frameState occluders s).1 = NONE.
Proof.
  intros Hon Hfog. unfold computeTileVisibility.
  destruct (computeDistanceToTile tile frameState s) as [distance s1]. simpl in *.
  by rewrite Hon, Hfog.
Qed.

End VisibilityProperties.

(** C3, witness: fog on; the leaf takes its heights from the root's mesh
    and is measured 95 m from the camera, where the sample fog is saturated. *)
Lemma computeTileVisibility_fog_witness :
  (@computeTileVisibility Sample.collaborators None Sample.leaf (Sample.frame true) None
     Sample.rootMeshStore).1 = NONE.
Proof.
  apply (@computeTileVisibility_fog Sample.collaborators); vm_compute; reflexivity.
Defined.

(** C3, counterexample: the same tile, the same distance and the same
    saturated fog opacity, but fog is switched off in the frame: the tile is
    reported as fully visible. *)
Lemma computeTileVisibility_fog_disabled :
  Js.ge (@CesiumMath_fog Sample.collaborators
           (@computeDistanceToTile Sample.collaborators Sample.leaf (Sample.frame false)
              Sample.rootMeshStore).1
           (fog_density (fog (Sample.frame false)))) 1 = true
  /\ (@computeTileVisibility Sample.collaborators None Sample.leaf (Sample.frame false) None
        Sample.rootMeshStore).1 = FULL.
Proof. split; vm_compute; reflexivity. Qed.

(** ** Load priority *)

Section ExactScore.
Import Reals Lra.
Local Open Scope R_scope.

Lemma dotR_self_nonneg u : 0 <= dotR u u.
Proof.
  destruct u as [[x y] z]. cbn.
  pose proof (Rle_0_sqr x). pose proof (Rle_0_sqr y). pose proof (Rle_0_sqr z).
  unfold Rsqr in *. lra.
Qed.

Lemma cauchy_schwarz u v : (dotR u v)² <= dotR u u * dotR v v.
Proof.
  destruct u as [[a b] c], v as [[x y] z]. unfold Rsqr. cbn.
  pose proof (Rle_0_sqr (a * y - b * x)). pose proof (Rle_0_sqr (a * z - c * x)).
  pose proof (Rle_0_sqr (b * z - c * y)). unfold Rsqr in *. lra.
Qed.

(** The quotient of which the angle is the arc cosine lies between -1 and 1. *)
Lemma cosine_bounds u v :
  0 < lengthR u -> 0 < lengthR v -> -1 <= dotR u v / (lengthR u * lengthR v) <= 1.
Proof.
  intros Hu Hv.
  assert (0 < lengthR u * lengthR v) as Hpos by (apply Rmult_lt_0_compat; lra).
  assert ((dotR u v)² <= (lengthR u * lengthR v)²) as Hsq.
  { unfold lengthR. rewrite Rsqr_mult, !Rsqr_sqrt by apply dotR_self_nonneg.
    apply cauchy_schwarz. }
  apply Rsqr_le_abs_0 in Hsq. rewrite (Rabs_pos_eq (_ * _)) in Hsq by lra.
  assert (- (lengthR u * lengthR v) <= dotR u v <= lengthR u * lengthR v) as Hbounds.
  { unfold Rabs in Hsq. destruct (Rcase_abs (dotR u v)); lra. }
  clear Hsq. split.
  - apply (Rmult_le_reg_r (lengthR u * lengthR v)); [exact Hpos|].
    unfold Rdiv. rewrite Rmult_assoc, Rinv_l by lra. lra.
  - apply (Rmult_le_reg_r (lengthR u * lengthR v)); [exact Hpos|].
    unfold Rdiv. rewrite Rmult_assoc, Rinv_l by lra. lra.
Qed.

Lemma fromTo_length position center : center <> position -> 0 < lengthR (fromTo position center).
Proof.
  intros Hapart. destruct position as [[px py] pz], center as [[cx cy] cz].
  unfold lengthR. cbn. apply sqrt_lt_R0.
  pose proof (Rle_0_sqr (cx - px)) as Hxx. pose proof (Rle_0_sqr (cy - py)) as Hyy.
  pose proof (Rle_0_sqr (cz - pz)) as Hzz.
  destruct (Req_dec (cx - px) 0) as [Hx|Hx];
    [destruct (Req_dec (cy - py) 0) as [Hy|Hy];
     [destruct (Req_dec (cz - pz) 0) as [Hz|Hz]|]|].
  - exfalso. apply Hapart. f_equal; [f_equal|]; lra.
  - apply Rsqr_pos_lt in Hz. unfold Rsqr in *. lra.
  - apply Rsqr_pos_lt in Hy. unfold Rsqr in *. lra.
  - apply Rsqr_pos_lt in Hx. unfold Rsqr in *. lra.
Qed.

(** In real arithmetic and for a direction of unit length, the expression
    of the score is [(1 - cos angle) * distance]. *)
Lemma scoreIn_exact position direction center distance :
  lengthR direction = 1 ->
  center <> position ->
  scoreIn exact position direction center distance
  = (1 - cos (angleBetween direction (fromTo position center))) * distance.
Proof.
  intros Hunit Hapart. pose proof (fromTo_length position center Hapart) as Hlen.
  unfold angleBetween. rewrite cos_acos by (apply cosine_bounds; lra).
  rewrite Hunit.
  destruct position as [[px py] pz], direction as [[dx dy] dz], center as [[cx cy] cz].
  unfold lengthR in Hlen |- *. cbn in Hlen |- *.
  set (m := sqrt _) in *. field. lra.
Qed.

(** C8 (as amended). [computeTileLoadPriority] returns exactly 0 for a tile
    without surface data and for a tile without an oriented bounding box;
    whether the tile has a mesh plays no part. For a tile that has both, it
    returns the binary64 value of the expression [(1 - t . d) * distance],
    where [t] is the direction from the camera's position to the center of
    the box, divided by its length, [d] is the camera's direction and
    [distance] is the tile's last computed distance. Evaluated in real
    arithmetic, for a camera direction of unit length and a center that is
    not the camera's position, that expression is
    [(1 - cos angle) * distance] with the angle between the camera's
    direction and the direction from the camera to the center. *)
Theorem computeTileLoadPriority_score tile frameState s :
  (dataOf s tile = None -> computeTileLoadPriority tile frameState s = 0%float)
  /\ (forall d, dataOf s tile = Some d -> orientedBoundingBox d = None ->
        computeTileLoadPriority tile frameState s = 0%float)
  /\ (forall d obb, dataOf s tile = Some d -> orientedBoundingBox d = Some obb ->
        computeTileLoadPriority tile frameState s
        = scoreIn binary64
            (components (positionWC (camera frameState)))
            (components (directionWC (camera frameState)))
            (components (obb_center obb))
            (Js.num (_distance (fieldsOf s tile))))
  /\ (forall position direction center distance,
        lengthR direction = 1 ->
        center <> position ->
        scoreIn exact position direction center distance
        = (1 - cos (angleBetween direction (fromTo position center))) * distance).
Proof.
  unfold computeTileLoadPriority. split_and!.
  - by intros ->.
  - by intros d -> ->.
  - by intros d obb -> ->.
  - apply scoreIn_exact.
Qed.

(** C8, witness: the three cases on the sample tiles, and the expression in
    real arithmetic for a tile two units ahead of a camera at the origin
    that looks along the first axis. *)
Lemma computeTileLoadPriority_score_witness :
  computeTileLoadPriority Sample.leaf (Sample.frame false) Sample.emptyStore = 0%float
  /\ computeTileLoadPriority Sample.root (Sample.frame false) Sample.rootMeshStore = 0%float
  /\ computeTileLoadPriority Sample.leaf (Sample.frame false) leafAfterVisibility
     = scoreIn binary64 (0, 0, 100)%float (0, 0, -1)%float (1.5, 1.5, 27.5)%float 95%float
  /\ scoreIn exact (0, 0, 0) (1, 0, 0) (2, 0, 0) 5
     = (1 - cos (angleBetween (1, 0, 0) (fromTo (0, 0, 0) (2, 0, 0)))) * 5.
Proof.
  split_and!.
  - apply (proj1 (computeTileLoadPriority_score Sample.leaf (Sample.frame false)
                    Sample.emptyStore)).
    vm_compute. reflexivity.
  - eapply (proj1 (proj2 (computeTileLoadPriority_score Sample.root (Sample.frame false)
                            Sample.rootMeshStore))).
    + vm_compute. reflexivity.
    + reflexivity.
  - eapply eq_trans.
    + eapply (proj1 (proj2 (proj2 (computeTileLoadPriority_score Sample.leaf
                                     (Sample.frame false) leafAfterVisibility)))).
      * vm_compute. reflexivity.
      * reflexivity.
    + vm_compute. reflexivity.
  - apply (proj2 (proj2 (proj2 (computeTileLoadPriority_score Sample.leaf
                                  (Sample.frame false) Sample.emptyStore)))).
    + unfold lengthR. cbn. replace (1 * 1 + 0 * 0 + 0 * 0) with 1 by ring. apply sqrt_1.
    + intros Hsame. injection Hsame as Hfirst. lra.
Defined.

End ExactScore.

(** C8, counterexample: that leaf has no mesh, and its score is not 0. *)
Lemma computeTileLoadPriority_no_mesh_nonzero :
  mesh (surfaceOf leafAfterVisibility Sample.leaf) = None
  /\ Js.strictEq (computeTileLoadPriority Sample.leaf (Sample.frame false) leafAfterVisibility)
       0 = false
  /\ Js.gt (computeTileLoadPriority Sample.leaf (Sample.frame false) leafAfterVisibility) 0
     = true.
Proof. repeat split; vm_compute; reflexivity. Qed.

(** The spec's formula needs a camera direction of unit length: with a
    direction vector of length 2, a tile right ahead of the camera (angle 0,
    distance 95) scores -95 instead of 0. *)
Example computeTileLoadPriority_long_direction :
  computeTileLoadPriority Sample.root PrioritySample.longFrame PrioritySample.below
  = (-95)%float
  /\ computeTileLoadPriority Sample.root (Sample.frame false) PrioritySample.below
     = 0%float.
Proof. split; vm_compute; reflexivity. Qed.

(** ** Back-references *)

Section BackReferences.

Lemma backReference_setData (s : Store) (t : QuadtreeTile) (d : GlobeSurfaceTile) (k : TileKey) :
  backReference (setData s t d) k
  = if decide (k = key t) then key <$> renderableTile d else backReference s k.
Proof.
  unfold backReference, setData. case_decide as Hk.
  - subst k. by rewrite lookup_insert_eq.
  - by rewrite lookup_insert_ne.
Qed.

Lemma backReference_no_data (s : Store) (t : QuadtreeTile) :
  dataOf s t = None -> backReference s (key t) = None.
Proof.
  unfold dataOf, fieldsOf, backReference.
  destruct (s !! key t) as [f|]; simpl; [|done]. by intros ->.
Qed.

Lemma showTileThisFrame_change tile nearest p s :
  RefChange s (stateAfter (p, s) (showTileThisFrame tile nearest (p, s))).2 (key tile).
Proof.
  unfold showTileThisFrame.
  destruct (dataOf s tile) as [d|] eqn:Hd; simpl; [|by apply RefSame].
  destruct nearest as [n|]; simpl.
  - destruct (sameTile n tile) eqn:Hsame; simpl.
    + apply RefCleared.
      * rewrite backReference_setData. by rewrite decide_True.
      * intros k Hk. rewrite backReference_setData. by rewrite decide_False.
    + apply bool_decide_eq_false in Hsame.
      rewrite dataOf_setData_other by done.
      destruct (dataOf s n) as [nd|] eqn:Hn; simpl.
      * apply (RefDeferred _ _ _ (key n)); [done| | |].
        -- rewrite backReference_setData, decide_True by done.
           unfold surfaceOf. rewrite dataOf_setData_other by (by apply not_eq_sym).
           by rewrite dataOf_setData.
        -- rewrite backReference_setData, decide_False by done.
           rewrite backReference_setData. by rewrite decide_True.
        -- intros k Hk1 Hk2. rewrite !backReference_setData.
           by rewrite !decide_False.
      * apply (RefDeferred _ _ _ (key n)); [done| | |].
        -- rewrite backReference_setData. by rewrite decide_True.
        -- rewrite backReference_setData, decide_False by done.
           by apply backReference_no_data.
        -- intros k Hk1 Hk2. rewrite backReference_setData. by rewrite decide_False.
  - apply RefCleared.
    + rewrite backReference_setData. by rewrite decide_True.
    + intros k Hk. rewrite backReference_setData. by rewrite decide_False.
Qed.

Lemma tc_defersTo_first s x y : tc (defersTo s) x y -> is_Some (backReference s x).
Proof. unfold defersTo. destruct 1; eauto. Qed.

(** A path through the new references either existed before or ends at the
    tile newly deferred to. *)
Lemma tc_after_deferral s s' kt kn x y :
  backReference s' kt = Some kn ->
  backReference s' kn = None ->
  (forall k, k <> kt -> k <> kn -> backReference s' k = backReference s k) ->
  tc (defersTo s') x y -> y = kn \/ tc (defersTo s) x y.
Proof.
  intros Hkt Hkn Hother Hpath.
  induction Hpath as [x y Hxy|x z y Hxz Hzy IH].
  - unfold defersTo in Hxy.
    destruct (decide (x = kt)) as [->|Hx1]; [left; congruence|].
    destruct (decide (x = kn)) as [->|Hx2]; [congruence|].
    right. apply tc_once. unfold defersTo. by rewrite <- Hother.
  - destruct IH as [->|IH]; [by left|].
    unfold defersTo in Hxz.
    destruct (decide (x = kn)) as [->|Hx2]; [congruence|].
    destruct (decide (x = kt)) as [->|Hx1].
    + assert (z = kn) as -> by congruence.
      apply tc_defersTo_first in Hzy as [? ?]. congruence.
    + right. eapply tc_l; [|done]. unfold defersTo. by rewrite <- Hother.
Qed.

Lemma tc_after_removal s s' x y :
  (forall k b, backReference s' k = Some b -> backReference s k = Some b) ->
  tc (defersTo s') x y -> tc (defersTo s) x y.
Proof.
  intros Hsub Hpath.
  induction Hpath as [x y Hxy|x z y Hxz Hzy IH].
  - apply tc_once. by apply Hsub.
  - eapply tc_l; [|done]. by apply Hsub.
Qed.

Lemma RefChange_acyclic s s' kt :
  RefChange s s' kt -> acyclicRefs s -> acyclicRefs s'.
Proof.
  intros [Hsame|Hclear Hother|kn Hne Hkt Hkn Hother] Hacyclic k Hcycle.
  - apply (Hacyclic k). eapply tc_after_removal; [|done].
    intros a b. by rewrite Hsame.
  - apply (Hacyclic k). eapply tc_after_removal; [|done].
    intros a b Hab. destruct (decide (a = kt)) as [->|Ha]; [congruence|].
    by rewrite <- Hother.
  - destruct (tc_after_deferral s s' kt kn k k Hkt Hkn Hother Hcycle) as [->|Hold].
    + apply tc_defersTo_first in Hcycle as [? ?]. congruence.
    + by apply (Hacyclic k).
Qed.

Lemma showTiles_cons tile nearest calls st :
  showTiles ((tile, nearest) :: calls) st
  = showTiles calls (stateAfter st (showTileThisFrame tile nearest st)).
Proof. reflexivity. Qed.

Lemma showTiles_acyclic calls p s :
  acyclicRefs s -> acyclicRefs (showTiles calls (p, s)).2.
Proof.
  revert p s. induction calls as [|[tile nearest] calls IH]; intros p s Hacyclic; [done|].
  rewrite showTiles_cons.
  pose proof (showTileThisFrame_change tile nearest p s) as Hchange.
  destruct (stateAfter (p, s) (showTileThisFrame tile nearest (p, s))) as [p' s'].
  apply IH. by eapply RefChange_acyclic.
Qed.

(** C6 (as amended). A call that makes a tile defer to another tile clears,
    in the same call, that other tile's own back-reference; and no sequence
    of calls ever closes a cycle of back-references. (A tile that deferred to
    the shown tile in an earlier call keeps its reference: chains of two hops
    can form.) *)
Theorem showTileThisFrame_back_references :
  (forall tile nearest p s,
     is_Some (dataOf s tile) -> sameTile nearest tile = false ->
     let s' := (stateAfter (p, s) (showTileThisFrame tile (Some nearest) (p, s))).2 in
     defersTo s' (key tile) (key nearest) /\ backReference s' (key nearest) = None)
  /\ (forall calls p s, acyclicRefs s -> acyclicRefs (showTiles calls (p, s)).2).
Proof.
  split; [|apply showTiles_acyclic].
  intros tile nearest p s [d Hd] Hsame. simpl.
  unfold showTileThisFrame. rewrite Hd. simpl. rewrite Hsame. simpl.
  apply bool_decide_eq_false in Hsame.
  rewrite dataOf_setData_other by done.
  unfold defersTo.
  destruct (dataOf s nearest) as [nd|] eqn:Hn; simpl.
  - split.
    + rewrite backReference_setData, decide_True by done.
      unfold surfaceOf. rewrite dataOf_setData_other by (by apply not_eq_sym).
      by rewrite dataOf_setData.
    + rewrite backReference_setData, decide_False by done.
      rewrite backReference_setData. by rewrite decide_True.
  - split.
    + rewrite backReference_setData. by rewrite decide_True.
    + rewrite backReference_setData, decide_False by done.
      by apply backReference_no_data.
Qed.

End BackReferences.

Lemma acyclicRefs_threeTiles : acyclicRefs Sample.threeTiles.
Proof.
  intros k Hk. apply tc_defersTo_first in Hk as [b Hb].
  unfold Sample.threeTiles in Hb.
  rewrite !backReference_setData in Hb.
  repeat case_decide; done.
Defined.

(** C6, witness: the middle tile has been shown through the root and holds
    a back-reference to it; showing the leaf through the middle tile makes
    the leaf defer to the middle tile and clears the middle tile's
    reference. And from the three tiles without back-references, showing the
    leaf through the middle tile and then the middle tile through the root
    leaves the references leaf, middle, root, which close no cycle. *)
Lemma showTileThisFrame_back_references_witness :
  (backReference FrameSample.middleShown (key Sample.middle) = Some (key Sample.root)
   /\ defersTo
        (stateAfter (Sample.provider, FrameSample.middleShown)
           (showTileThisFrame Sample.leaf (Some Sample.middle)
              (Sample.provider, FrameSample.middleShown))).2
        (key Sample.leaf) (key Sample.middle)
   /\ backReference
        (stateAfter (Sample.provider, FrameSample.middleShown)
           (showTileThisFrame Sample.leaf (Some Sample.middle)
              (Sample.provider, FrameSample.middleShown))).2
        (key Sample.middle) = None)
  /\ (backReference
        (showTiles [(Sample.leaf, Some Sample.middle); (Sample.middle, Some Sample.root)]
           (Sample.provider, Sample.threeTiles)).2 (key Sample.leaf)
      = Some (key Sample.middle)
      /\ acyclicRefs
           (showTiles [(Sample.leaf, Some Sample.middle); (Sample.middle, Some Sample.root)]
              (Sample.provider, Sample.threeTiles)).2).
Proof.
  split; [split|split].
  - vm_compute. reflexivity.
  - apply (proj1 showTileThisFrame_back_references Sample.leaf Sample.middle
             Sample.provider FrameSample.middleShown).
    + vm_compute. eauto.
    + vm_compute. reflexivity.
  - vm_compute. reflexivity.
  - apply (proj2 showTileThisFrame_back_references
             [(Sample.leaf, Some Sample.middle); (Sample.middle, Some Sample.root)]
             Sample.provider Sample.threeTiles).
    exact acyclicRefs_threeTiles.
Defined.

(** C6, counterexample: the leaf is shown through the middle tile, then the
    middle tile is shown through the root. The leaf still defers to the
    middle tile, which now defers to the root: a chain of two hops. *)
Lemma showTiles_two_hops :
  backReference
    (showTiles [(Sample.leaf, Some Sample.middle); (Sample.middle, Some Sample.root)]
       (Sample.provider, Sample.threeTiles)).2 (key Sample.leaf)
  = Some (key Sample.middle)
  /\ backReference
       (showTiles [(Sample.leaf, Some Sample.middle); (Sample.middle, Some Sample.root)]
          (Sample.provider, Sample.threeTiles)).2 (key Sample.middle)
     = Some (key Sample.root)
  /\ oneHop Sample.threeTiles
  /\ ~ oneHop
        (showTiles [(Sample.leaf, Some Sample.middle); (Sample.middle, Some Sample.root)]
           (Sample.provider, Sample.threeTiles)).2.
Proof.
  assert (backReference
            (showTiles [(Sample.leaf, Some Sample.middle); (Sample.middle, Some Sample.root)]
               (Sample.provider, Sample.threeTiles)).2 (key Sample.leaf)
          = Some (key Sample.middle)) as Hleaf by (vm_compute; reflexivity).
  assert (backReference
            (showTiles [(Sample.leaf, Some Sample.middle); (Sample.middle, Some Sample.root)]
               (Sample.provider, Sample.threeTiles)).2 (key Sample.middle)
          = Some (key Sample.root)) as Hmiddle by (vm_compute; reflexivity).
  split; [exact Hleaf|]. split; [exact Hmiddle|]. split.
  - intros a b Hab. unfold defersTo, backReference in Hab.
    unfold Sample.threeTiles, setData in Hab.
    destruct (decide (a = key Sample.leaf)) as [->|Ha1];
      [by vm_compute in Hab|].
    destruct (decide (a = key Sample.middle)) as [->|Ha2];
      [by vm_compute in Hab|].
    destruct (decide (a = key Sample.root)) as [->|Ha3];
      [by vm_compute in Hab|].
    rewrite !lookup_insert_ne in Hab by done.
    unfold Sample.emptyStore in Hab. by rewrite lookup_empty in Hab.
  - intros Hone. specialize (Hone _ _ Hleaf). congruence.
Qed.

(** ** The fan triangulation *)

Section Fan.

Local Open Scope nat_scope.

Lemma storedFan_length boundary done : length (storedFan boundary done) = 3 * done.
Proof.
  unfold storedFan.
  assert (forall start, length (flat_map (storedTriangle boundary) (seq start done)) = 3 * done)
    as Hany; [|apply Hany].
  induction done as [|n IH]; intros start; [done|].
  simpl. rewrite IH. lia.
Qed.

Lemma storedFan_S boundary done :
  storedFan boundary (S done) = storedFan boundary done ++ storedTriangle boundary done.
Proof.
  unfold storedFan. rewrite seq_S, flat_map_app. simpl. by rewrite ?app_nil_r.
Qed.

Lemma uint16Set_app (l rest : list Z) (old v : Z) (i : nat) :
  i = length l ->
  uint16Set (l ++ old :: rest) i v = l ++ (v mod 65536)%Z :: rest.
Proof.
  intros ->. unfold uint16Set.
  rewrite insert_app_r_alt by lia. by rewrite Nat.sub_diag.
Qed.

(** Three writes of one loop iteration fill the next three zero slots. *)
Lemma three_writes (l rest : list Z) (a b c : Z) (out : nat) :
  out = length l ->
  uint16Set (uint16Set (uint16Set (l ++ 0%Z :: 0%Z :: 0%Z :: rest) out a) (out + 1) b)
    (out + 2) c
  = l ++ [(a mod 65536)%Z; (b mod 65536)%Z; (c mod 65536)%Z] ++ rest.
Proof.
  intros ->.
  rewrite uint16Set_app by done.
  replace (l ++ (a mod 65536)%Z :: 0%Z :: 0%Z :: rest)
    with ((l ++ [(a mod 65536)%Z]) ++ 0%Z :: 0%Z :: rest) by by rewrite <- app_assoc.
  rewrite uint16Set_app by (rewrite length_app; simpl; lia).
  replace ((l ++ [(a mod 65536)%Z]) ++ (b mod 65536)%Z :: 0%Z :: rest)
    with ((l ++ [(a mod 65536)%Z; (b mod 65536)%Z]) ++ 0%Z :: rest)
    by (rewrite <- !app_assoc; done).
  rewrite uint16Set_app by (rewrite length_app; simpl; lia).
  by rewrite <- !app_assoc.
Qed.

Lemma fanLoop_S n i center out l :
  fanLoop (S n) i center out l
  = fanLoop n (S i) center (out + 3)
      (uint16Set (uint16Set (uint16Set l out center) (out + 1) (Z.of_nat i))
         (out + 2) (Z.of_nat i + 1)%Z).
Proof. reflexivity. Qed.

Lemma replicate_3 (k : nat) :
  replicate (3 * S k) 0%Z = 0%Z :: 0%Z :: 0%Z :: replicate (3 * k) 0%Z.
Proof. replace (3 * S k) with (S (S (S (3 * k)))) by lia. reflexivity. Qed.

(** The loop invariant: after [i] iterations the first [i] triangles are
    stored and the rest of the array is still zero. *)
Lemma fanLoop_invariant (boundary n i : nat) :
  S (i + n) <= boundary ->
  fanLoop n i (Z.of_nat boundary) (3 * i)
    (storedFan boundary i ++ replicate (3 * (boundary - i)) 0%Z)
  = (i + n, 3 * (i + n),
     storedFan boundary (i + n) ++ replicate (3 * (boundary - (i + n))) 0%Z).
Proof.
  revert i. induction n as [|n IH]; intros i Hlt.
  - rewrite Nat.add_0_r. reflexivity.
  - rewrite fanLoop_S.
    replace (boundary - i) with (S (boundary - S i)) by lia.
    rewrite replicate_3.
    rewrite three_writes by (by rewrite storedFan_length).
    replace (3 * i + 3) with (3 * S i) by lia.
    replace (storedFan boundary i
             ++ [(Z.of_nat boundary mod 65536)%Z; (Z.of_nat i mod 65536)%Z;
                 ((Z.of_nat i + 1) mod 65536)%Z]
             ++ replicate (3 * (boundary - S i)) 0%Z)
      with (storedFan boundary (S i) ++ replicate (3 * (boundary - S i)) 0%Z).
    + rewrite IH by lia. by replace (S i + n) with (i + S n) by lia.
    + rewrite storedFan_S, <- app_assoc. unfold storedTriangle.
      rewrite (Nat.mod_small (S i)) by lia.
      replace (Z.of_nat (S i)) with (Z.of_nat i + 1)%Z by lia. done.
Qed.

(** What [createFillTile] stores, whatever the number of vertices: the
    closed fan with every entry reduced modulo 2^16. *)
Lemma createFillTile_indices_stored vertexCount :
  createFillTile_indices vertexCount = storedFan (vertexCount - 1) (vertexCount - 1).
Proof.
  unfold createFillTile_indices.
  destruct vertexCount as [|[|boundary']]; [done|done|].
  replace (S (S boundary') - 1) with (S boundary') by lia.
  replace (S (S boundary') - 2) with boundary' by lia.
  replace (Z.of_nat (S (S boundary')) - 1)%Z with (Z.of_nat (S boundary')) by lia.
  pose proof (fanLoop_invariant (S boundary') boundary' 0) as Hloop.
  change (storedFan (S boundary') 0) with (@nil Z) in Hloop.
  rewrite Nat.sub_0_r, Nat.add_0_l in Hloop.
  change (3 * 0) with 0 in Hloop. rewrite app_nil_l in Hloop.
  replace (S boundary' * 3) with (3 * S boundary') by lia.
  rewrite Hloop by lia.
  replace (S boundary' - boundary') with 1 by lia.
  rewrite (replicate_3 0). change (replicate (3 * 0) 0%Z) with (@nil Z).
  rewrite three_writes by (by rewrite storedFan_length).
  rewrite app_nil_r, storedFan_S. unfold storedTriangle.
  by rewrite Nat.Div0.mod_same.
Qed.

Lemma storedFan_lookup boundary done k :
  k < done ->
  storedFan boundary done !! (3 * k) = Some (Z.of_nat boundary mod 65536)%Z
  /\ storedFan boundary done !! (3 * k + 1) = Some (Z.of_nat k mod 65536)%Z
  /\ storedFan boundary done !! (3 * k + 2)
     = Some (Z.of_nat (S k mod boundary) mod 65536)%Z.
Proof.
  induction done as [|n IH]; [lia|]. intros Hk.
  rewrite storedFan_S.
  destruct (decide (k < n)) as [Hlt|Hge].
  - destruct (IH Hlt) as (H0 & H1 & H2).
    rewrite !lookup_app_l by (rewrite storedFan_length; lia). done.
  - assert (k = n) as -> by lia.
    rewrite !lookup_app_r by (rewrite storedFan_length; lia).
    rewrite storedFan_length.
    replace (3 * n - 3 * n) with 0 by lia.
    replace (3 * n + 1 - 3 * n) with 1 by lia.
    replace (3 * n + 2 - 3 * n) with 2 by lia. done.
Qed.

(** C4 (as amended). For a fill mesh of at most 65536 vertices (the indices
    are kept in a [Uint16Array]), the index list has [3 * (vertexCount - 1)]
    entries and is the closed fan of the spec: triangle [k] is (center, k,
    k + 1), the last one closing the loop from the final boundary vertex back
    to vertex 0. *)
Theorem createFillTile_indices_closed_fan vertexCount :
  (Z.of_nat vertexCount <= 65536)%Z ->
  length (createFillTile_indices vertexCount) = 3 * (vertexCount - 1)
  /\ createFillTile_indices vertexCount = closedFan vertexCount
  /\ forall k, k < vertexCount - 1 ->
       createFillTile_indices vertexCount !! (3 * k) = Some (Z.of_nat (vertexCount - 1))
       /\ createFillTile_indices vertexCount !! (3 * k + 1) = Some (Z.of_nat k)
       /\ createFillTile_indices vertexCount !! (3 * k + 2)
          = Some (if decide (k = vertexCount - 2) then 0%Z else Z.of_nat (k + 1)).
Proof.
  intros Hmax. rewrite createFillTile_indices_stored.
  assert (forall i, i < vertexCount - 1 -> storedTriangle (vertexCount - 1) i
            = [Z.of_nat (vertexCount - 1); Z.of_nat i; Z.of_nat (S i mod (vertexCount - 1))])
    as Hsmall.
  { intros i Hi. unfold storedTriangle.
    assert (S i mod (vertexCount - 1) < vertexCount - 1) by (apply Nat.mod_upper_bound; lia).
    rewrite !Z.mod_small by lia. done. }
  split; [by rewrite storedFan_length|]. split.
  - unfold closedFan, storedFan.
    assert (forall l, (forall i, i ∈ l -> i < vertexCount - 1) ->
              flat_map (storedTriangle (vertexCount - 1)) l
              = flat_map (fun i => [Z.of_nat (vertexCount - 1); Z.of_nat i;
                                    Z.of_nat (S i mod (vertexCount - 1))]) l) as Hext.
    { induction l as [|i l IH]; intros Hl; [done|].
      cbn [flat_map]. rewrite Hsmall by (apply Hl; left).
      rewrite IH; [done|]. intros j Hj. apply Hl. by right. }
    apply Hext. intros i Hi%elem_of_seq. lia.
  - intros k Hk. destruct (storedFan_lookup (vertexCount - 1) (vertexCount - 1) k Hk)
      as (H0 & H1 & H2).
    assert (S k mod (vertexCount - 1) < vertexCount - 1) by (apply Nat.mod_upper_bound; lia).
    rewrite H0, H1, H2. rewrite !Z.mod_small by lia.
    repeat split. f_equal. case_decide as Hlast.
    + subst k. replace (S (vertexCount - 2)) with (vertexCount - 1) by lia.
      by rewrite Nat.Div0.mod_same.
    + rewrite Nat.mod_small by lia. f_equal. lia.
Qed.

End Fan.

(** C4, witness: a ring of four vertices and the center. *)
Lemma createFillTile_indices_closed_fan_witness :
  createFillTile_indices 5 = [4; 0; 1; 4; 1; 2; 4; 2; 3; 4; 3; 0]%Z.
Proof.
  destruct (createFillTile_indices_closed_fan 5) as (_ & Hfan & _); [lia|].
  rewrite Hfan. reflexivity.
Defined.

(** C4, counterexample: with 65537 vertices the center is vertex 65536, which
    a [Uint16Array] stores as 0: the first triangle reads (0, 0, 1) and does
    not contain the center vertex. *)
Lemma createFillTile_indices_wraps :
  Z.of_nat (Z.to_nat 65537 - 1) = 65536%Z
  /\ createFillTile_indices (Z.to_nat 65537) !! 0%nat = Some 0%Z
  /\ createFillTile_indices (Z.to_nat 65537) !! 1%nat = Some 0%Z
  /\ createFillTile_indices (Z.to_nat 65537) !! 2%nat = Some 1%Z.
Proof.
  split; [lia|].
  rewrite createFillTile_indices_stored.
  destruct (storedFan_lookup (Z.to_nat 65537 - 1) (Z.to_nat 65537 - 1) 0)
    as (H0 & H1 & H2); [lia|].
  change (3 * 0)%nat with 0%nat in *.
  change (0 + 1)%nat with 1%nat in *. change (0 + 2)%nat with 2%nat in *.
  rewrite H0, H1, H2.
  replace (Z.of_nat (Z.to_nat 65537 - 1)) with 65536%Z by lia.
  rewrite (Nat.mod_small 1) by lia.
  repeat split.
Qed.

(** ** Packing textures into commands *)

Section Packing.

Local Open Scope nat_scope.

Lemma arraySet_take {A} (a : list (option A)) (n : nat) (v : A) :
  n <= length a ->
  take (S n) (Js.arraySet a n v) = take n a ++ [Some v]
  /\ S n <= length (Js.arraySet a n v).
Proof.
  intros Hn. unfold Js.arraySet. case_decide as Hlt.
  - split; [|rewrite length_insert; lia].
    rewrite (take_S_r _ n (Some v)) by (by apply list_lookup_insert_eq).
    by rewrite take_insert_ge by lia.
  - assert (n = length a) as -> by lia.
    rewrite Nat.sub_diag. simpl. split; [|rewrite length_app; simpl; lia].
    rewrite take_ge by (rewrite length_app; simpl; lia).
    by rewrite take_ge by lia.
Qed.

Lemma takeReady_length_le rest budget :
  length (takeReady rest budget).2 <= length rest.
Proof.
  revert budget. induction rest as [|t rest IH]; intros budget; [done|].
  simpl. destruct budget as [|b]; [done|].
  destruct (countsAsReady t).
  - specialize (IH b). destruct (takeReady rest b). simpl in *. lia.
  - specialize (IH (S b)). lia.
Qed.

Lemma takeReady_progress t rest budget :
  0 < budget -> length (takeReady (t :: rest) budget).2 < length (t :: rest).
Proof.
  intros Hb. destruct budget as [|b]; [lia|]. simpl.
  destruct (countsAsReady t).
  - pose proof (takeReady_length_le rest b). destruct (takeReady rest b). simpl in *. lia.
  - pose proof (takeReady_length_le rest (S b)). lia.
Qed.

(** The four ways one iteration of the inner loop goes. *)
Lemma dayTextureLoop_full maxTextures t rest n command applyAlpha :
  (Z.of_nat n <? maxTextures)%Z = false ->
  dayTextureLoop maxTextures (t :: rest) n command applyAlpha
  = mkPacked None n (t :: rest) command applyAlpha.
Proof. intros Hfull. simpl. by rewrite Hfull. Qed.

Lemma dayTextureLoop_skip maxTextures t rest n command applyAlpha :
  (Z.of_nat n <? maxTextures)%Z = true ->
  countsAsReady t = false ->
  dayTextureLoop maxTextures (t :: rest) n command applyAlpha
  = dayTextureLoop maxTextures rest n command applyAlpha.
Proof.
  intros Hroom Hskip. simpl. rewrite Hroom. unfold countsAsReady in Hskip.
  destruct (readyImagery t) as [imagery|]; [|done].
  apply negb_false_iff in Hskip. by rewrite Hskip.
Qed.

Lemma dayTextureLoop_take maxTextures t rest n command applyAlpha tex :
  (Z.of_nat n <? maxTextures)%Z = true ->
  countsAsReady t = true ->
  slotTexture t = Some tex ->
  dayTextureLoop maxTextures (t :: rest) n command applyAlpha
  = dayTextureLoop maxTextures rest (S n)
      (withDayTexture command n tex (entryAlpha t))
      (applyAlpha || negb (Js.strictEq (entryAlpha t) 1)).
Proof.
  intros Hroom Hcount Hslot. simpl. rewrite Hroom.
  unfold countsAsReady, slotTexture, entryAlpha in *.
  destruct (readyImagery t) as [imagery|]; [|done].
  apply negb_true_iff in Hcount. by rewrite Hcount, Hslot.
Qed.

Lemma dayTextureLoop_throw maxTextures t rest n command applyAlpha :
  (Z.of_nat n <? maxTextures)%Z = true ->
  countsAsReady t = true ->
  slotTexture t = None ->
  dayTextureLoop maxTextures (t :: rest) n command applyAlpha
  = mkPacked (Some notReady) n rest command applyAlpha.
Proof.
  intros Hroom Hcount Hslot. simpl. rewrite Hroom.
  unfold countsAsReady, slotTexture in *.
  destruct (readyImagery t) as [imagery|]; [|done].
  apply negb_true_iff in Hcount. by rewrite Hcount, Hslot.
Qed.

Lemma texturesOf_cons t taken tex :
  slotTexture t = Some tex -> texturesOf (t :: taken) = tex :: texturesOf taken.
Proof. intros Hslot. unfold texturesOf. simpl. by rewrite Hslot. Qed.

(** The inner loop on a collection whose counted entries all carry their
    texture: it takes what [takeReady] takes, writes the textures into the
    next slots and throws nothing. *)
Lemma dayTextureLoop_packs maxTextures rest n command applyAlpha :
  Forall (fun t => carriesTexture t = true) rest ->
  n <= length (dayTextures command) ->
  let budget := Z.to_nat (maxTextures - Z.of_nat n) in
  let packed := dayTextureLoop maxTextures rest n command applyAlpha in
  let taken := (takeReady rest budget).1 in
  thrown packed = None
  /\ remaining packed = (takeReady rest budget).2
  /\ packedCount packed = n + length taken
  /\ length (texturesOf taken) = length taken
  /\ take (n + length taken) (dayTextures (packedCommand packed))
     = take n (dayTextures command) ++ (Some <$> texturesOf taken)
  /\ n + length taken <= length (dayTextures (packedCommand packed))
  /\ commandFrame (packedCommand packed) = commandFrame command.
Proof.
  revert n command applyAlpha.
  induction rest as [|t rest IH]; intros n command applyAlpha Hcarry Hn budget.
  - simpl. rewrite Nat.add_0_r, app_nil_r. done.
  - apply Forall_cons in Hcarry as [Ht Hrest].
    destruct (Z.of_nat n <? maxTextures)%Z eqn:Hroom.
    + apply Z.ltb_lt in Hroom as Hlt.
      assert (budget = S (Z.to_nat (maxTextures - Z.of_nat (S n)))) as Hb
        by (subst budget; lia).
      destruct (countsAsReady t) eqn:Hcount.
      * unfold carriesTexture in Ht. rewrite Hcount in Ht. simpl in Ht.
        apply bool_decide_eq_true in Ht as [tex Hslot].
        rewrite (dayTextureLoop_take _ _ _ _ _ _ tex) by done.
        destruct (arraySet_take (dayTextures command) n tex Hn) as [Htake Hlen].
        specialize (IH (S n) (withDayTexture command n tex (entryAlpha t))
                      (applyAlpha || negb (Js.strictEq (entryAlpha t) 1)) Hrest Hlen).
        cbv zeta in IH. rewrite Hb. cbn [takeReady]. rewrite Hcount.
        destruct (takeReady rest (Z.to_nat (maxTextures - Z.of_nat (S n))))
          as [taken unvisited].
        cbn [fst snd] in *. destruct IH as (H1 & H2 & H3 & H4 & H5 & H6 & H7).
        rewrite (texturesOf_cons _ _ tex) by done.
        cbn [length]. rewrite Nat.add_succ_r.
        repeat split; try done.
        -- by rewrite H4.
        -- cbn [Nat.add] in H5. rewrite H5.
           change (dayTextures (withDayTexture command n tex (entryAlpha t)))
             with (Js.arraySet (dayTextures command) n tex).
           rewrite Htake, fmap_cons, <- app_assoc. done.
    * rewrite dayTextureLoop_skip by done.
      rewrite Hb. cbn [takeReady]. rewrite Hcount. rewrite <- Hb. by apply IH.
    + rewrite dayTextureLoop_full by done.
      apply Z.ltb_ge in Hroom.
      assert (budget = 0) as -> by (subst budget; lia).
      cbn. rewrite Nat.add_0_r, app_nil_r. done.
Qed.

(** One pass of the outer loop, when every counted entry carries its
    texture: the command written, where it sits in the pool, and how the loop
    goes on. *)
Lemma readsMissingRegion_pushCommand ctx frameState index :
  readsMissingRegion ctx (pushCommand frameState index) = readsMissingRegion ctx frameState.
Proof. reflexivity. Qed.

Lemma drawPasses_pass fuel ctx rest state color p frameState :
  Forall (fun t => carriesTexture t = true) rest ->
  readsMissingRegion ctx frameState = false ->
  let budget := Z.to_nat (pass_maxTextures ctx) in
  let taken := (takeReady rest budget).1 in
  let unvisited := (takeReady rest budget).2 in
  let start := _usedDrawCommands p `min` length (_drawCommands p) in
  exists c pool,
    CommandFor ctx state color taken c
    /\ pool !! start = Some c
    /\ (forall j, j < start -> pool !! j = _drawCommands p !! j)
    /\ S (_usedDrawCommands p) `min` length pool = S start
    /\ drawPasses (S fuel) ctx rest state color (p, frameState)
       = let st := (withCommands p pool (S (_usedDrawCommands p)),
                    pushCommand frameState start) in
         match unvisited with
         | [] => Return tt st
         | _ :: _ => drawPasses fuel ctx unvisited (pass_otherRenderState ctx)
                       otherPassesInitialColor st
         end.
Proof.
  intros Hcarry Hregion budget taken unvisited start.
  cbn [drawPasses]. unfold acquireCommand.
  set (used := _usedDrawCommands p). set (old := _drawCommands p).
  assert (exists index pool0,
            (if decide (length old <= used) then (length old, old ++ [newDrawCommand])
             else (used, old)) = (index, pool0)
            /\ index = start /\ index < length pool0
            /\ (forall j, j < start -> pool0 !! j = old !! j)
            /\ S used `min` length pool0 = S start) as (index & pool0 & -> & -> & Hin & Hold & Hmin).
  { subst start. fold used old. case_decide.
    - exists (length old), (old ++ [newDrawCommand]).
      rewrite length_app. cbn [length]. repeat split; try lia.
      intros j Hj. rewrite lookup_app_l by lia. done.
    - exists used, old. repeat split; try lia. }
  set (command := beginCommand (default newDrawCommand (pool0 !! start)) ctx color).
  destruct (dayTextureLoop_packs (pass_maxTextures ctx) rest 0 command false Hcarry)
    as (Hthrown & Hrem & Hcount & Hlen & Htake & Hge & Hframe); [lia|].
  replace (pass_maxTextures ctx - Z.of_nat 0)%Z with (pass_maxTextures ctx) in * by lia.
  fold budget in Hrem, Hcount, Hlen, Htake, Hge.
  fold taken in Hcount, Hlen, Htake, Hge. fold unvisited in Hrem.
  cbn [Nat.add] in Hcount, Htake, Hge.
  set (packed := dayTextureLoop (pass_maxTextures ctx) rest 0 command false) in *.
  rewrite Hthrown, Hrem, Hregion.
  exists (finishCommand (packedCommand packed) ctx (packedCount packed)
            (packedApplyAlpha packed) state).
  exists (<[start := finishCommand (packedCommand packed) ctx (packedCount packed)
                       (packedApplyAlpha packed) state]> pool0).
  split; [|split; [|split; [|split; [|reflexivity]]]].
  - unfold CommandFor, finishCommand. cbn.
    injection Hframe as Ho _ _ Hc _ _.
    repeat split; try done.
    + unfold Js.setLength. rewrite Hcount.
      replace (length taken - length (dayTextures (packedCommand packed))) with 0 by lia.
      cbn [replicate]. rewrite app_nil_r. rewrite Htake. by rewrite take_0.
    + by rewrite Hcount.
  - by apply list_lookup_insert_eq.
  - intros j Hj. rewrite list_lookup_insert_ne by lia. by apply Hold.
  - by rewrite length_insert.
Qed.

Lemma takeReady_Forall (P : TileImagery -> Prop) rest budget :
  Forall P rest -> Forall P (takeReady rest budget).2.
Proof.
  revert budget. induction rest as [|t rest IH]; intros budget Hall; [done|].
  apply Forall_cons in Hall as Hboth. destruct Hboth as [Ht Hrest].
  cbn [takeReady]. destruct budget as [|b]; [done|].
  destruct (countsAsReady t).
  - specialize (IH b Hrest). by destruct (takeReady rest b).
  - by apply IH.
Qed.

Lemma takeReady_nil budget : takeReady [] budget = ([], []).
Proof. reflexivity. Qed.

(** All passes of one tile, when every counted entry carries its texture and
    the budget is positive: the loop ends normally, it appends one command
    per group of [passesOf] to the command list, the commands sit at
    consecutive pool indices, and each is the command of its group. *)
Lemma drawPasses_commands fuel ctx rest state color p frameState :
  Forall (fun t => carriesTexture t = true) rest ->
  readsMissingRegion ctx frameState = false ->
  (0 < pass_maxTextures ctx)%Z ->
  length rest < fuel ->
  let budget := Z.to_nat (pass_maxTextures ctx) in
  let start := _usedDrawCommands p `min` length (_drawCommands p) in
  let groups := passesOf fuel budget rest in
  exists p' frameState',
    drawPasses fuel ctx rest state color (p, frameState) = Return tt (p', frameState')
    /\ commandList frameState' = commandList frameState ++ seq start (length groups)
    /\ _usedDrawCommands p' = _usedDrawCommands p + length groups
    /\ (forall j, j < start -> _drawCommands p' !! j = _drawCommands p !! j)
    /\ (forall k taken, groups !! k = Some taken ->
          exists c, _drawCommands p' !! (start + k) = Some c
                    /\ CommandFor ctx (passState k state (pass_otherRenderState ctx))
                         (passState k color otherPassesInitialColor) taken c).
Proof.
  intros Hcarry Hregion Hbudget. revert rest state color p frameState Hcarry Hregion.
  induction fuel as [|fuel IH]; intros rest state color p frameState Hcarry Hregion Hfuel;
    [lia|].
  intros budget start groups.
  destruct (drawPasses_pass fuel ctx rest state color p frameState Hcarry Hregion)
    as (c & pool & Hc & Hstart & Hold & Hmin & Hstep).
  fold budget start in Hc, Hstart, Hold, Hmin, Hstep.
  rewrite Hstep. clear Hstep.
  pose proof (takeReady_Forall _ rest budget Hcarry) as Hcarry'.
  assert (length (takeReady rest budget).2 < fuel \/ (takeReady rest budget).2 = []) as Hshort.
  { destruct rest as [|t rest]; [by right|]. left.
    pose proof (takeReady_progress t rest budget). lia. }
  subst groups. cbn [passesOf]. fold budget.
  destruct (takeReady rest budget) as [taken unvisited]. cbn [fst snd] in *.
  destruct unvisited as [|u unvisited].
  - eexists _, _. split; [reflexivity|]. cbn.
    repeat split; try done.
    + lia.
    + intros k taken' Hk. destruct k as [|k]; [|done].
      injection Hk as <-. exists c. by rewrite Nat.add_0_r.
  - destruct Hshort as [Hshort|]; [|done].
    destruct (IH (u :: unvisited) (pass_otherRenderState ctx) otherPassesInitialColor
                (withCommands p pool (S (_usedDrawCommands p)))
                (pushCommand frameState start) Hcarry' Hregion Hshort)
      as (p' & frameState' & Hrun & Hlist & Hused & Hframe & Hcommands).
    cbn [_usedDrawCommands _drawCommands withCommands] in Hlist, Hused, Hframe, Hcommands.
    rewrite Hmin in Hlist, Hframe, Hcommands.
    exists p', frameState'. split; [done|].
    subst budget.
    repeat split.
    + rewrite Hlist. cbn [commandList pushCommand length seq].
      by rewrite <- app_assoc.
    + rewrite Hused. cbn [length]. lia.
    + intros j Hj. rewrite Hframe by lia. by apply Hold.
    + intros k taken' Hk. destruct k as [|k].
      * injection Hk as <-. exists c. rewrite Nat.add_0_r.
        rewrite Hframe by lia. done.
      * cbn in Hk. destruct (Hcommands k taken' Hk) as (c' & Hc' & Hfor).
        exists c'. replace (start + S k) with (S start + k) by lia.
        split; [done|]. by destruct k.
Qed.

(** What [takeReady] takes and leaves, counted. *)
Lemma takeReady_counts rest budget :
  let taken := (takeReady rest budget).1 in
  let unvisited := (takeReady rest budget).2 in
  filter (fun t => countsAsReady t = true) rest
  = taken ++ filter (fun t => countsAsReady t = true) unvisited
  /\ length taken <= budget
  /\ (length taken < budget -> unvisited = []).
Proof.
  revert budget. induction rest as [|t rest IH]; intros budget.
  { cbn. repeat split; (done || lia). }
  cbn [takeReady]. destruct budget as [|b].
  - cbn [fst snd app length]. repeat split; (done || lia).
  - destruct (countsAsReady t) eqn:Ht.
    + specialize (IH b). destruct (takeReady rest b) as [taken unvisited].
      cbn [fst snd length] in *. destruct IH as (Hfilter & Hle & Hnil).
      rewrite filter_cons_True by done. rewrite Hfilter.
      repeat split; [lia|]. intros Hlt. apply Hnil. lia.
    + specialize (IH (S b)). cbv zeta in IH.
      rewrite filter_cons_False by (by rewrite Ht). done.
Qed.

End Packing.

(** ** Commands of one tile *)

Section TileCommands.

Local Open Scope nat_scope.


Lemma texturesOf_app a b : texturesOf (a ++ b) = texturesOf a ++ texturesOf b.
Proof. unfold texturesOf. apply omap_app. Qed.


(** The inner loop on any collection: it throws nothing but the assertion's
    error; what it has not visited is a suffix of the collection; if it did
    not throw, every entry it visited carried its texture; and it visits at
    least one entry when there is room for a texture. *)
Lemma dayTextureLoop_outcome maxTextures rest n command applyAlpha :
  let packed := dayTextureLoop maxTextures rest n command applyAlpha in
  (thrown packed = None \/ thrown packed = Some notReady)
  /\ exists visited,
       rest = visited ++ remaining packed
       /\ (thrown packed = None -> Forall (fun t => carriesTexture t = true) visited)
       /\ ((Z.of_nat n < maxTextures)%Z -> rest <> [] -> visited <> []).
Proof.
  revert n command applyAlpha.
  induction rest as [|t rest IH]; intros n command applyAlpha.
  - cbn. split; [by left|]. exists []. done.
  - destruct (Z.of_nat n <? maxTextures)%Z eqn:Hroom.
    + destruct (countsAsReady t) eqn:Hcount.
      * destruct (slotTexture t) as [tex|] eqn:Hslot.
        -- rewrite (dayTextureLoop_take _ _ _ _ _ _ tex) by done.
           destruct (IH (S n) (withDayTexture command n tex (entryAlpha t))
                       (applyAlpha || negb (Js.strictEq (entryAlpha t) 1)))
             as (Hthrown & visited & Hsplit & Hcarry & _).
           split; [done|]. exists (t :: visited). repeat split.
           ++ by rewrite <- app_comm_cons, <- Hsplit.
           ++ intros Hnone. apply Forall_cons. split; [|by apply Hcarry].
              unfold carriesTexture. rewrite Hcount, Hslot. done.
           ++ done.
        -- rewrite dayTextureLoop_throw by done. cbn. split; [by right|].
           exists [t]. done.
      * rewrite dayTextureLoop_skip by done.
        destruct (IH n command applyAlpha) as (Hthrown & visited & Hsplit & Hcarry & _).
        split; [done|]. exists (t :: visited). repeat split.
        -- by rewrite <- app_comm_cons, <- Hsplit.
        -- intros Hnone. apply Forall_cons. split; [|by apply Hcarry].
           unfold carriesTexture. by rewrite Hcount.
        -- done.
    + rewrite dayTextureLoop_full by done. cbn. split; [by left|].
      exists []. repeat split; [done|]. apply Z.ltb_ge in Hroom. lia.
Qed.


End TileCommands.

Section Assembly.
Variable maximumTextureImageUnits : Z.
Variable createFillTile :
  GlobeSurfaceTileProvider -> QuadtreeTile -> FrameState -> Store -> Store.

Local Open Scope nat_scope.

Abbreviation addDrawCommands := (addDrawCommandsForTile maximumTextureImageUnits createFillTile).
Abbreviation contextFor := (passContextFor maximumTextureImageUnits).

(** A tile that draws its own geometry goes straight to the command loop. *)
Lemma addDrawCommandsForTile_own depth tile subset p frameState s d :
  dataOf s tile = Some d ->
  renderableTile d = None ->
  is_Some (meshInUse d) ->
  addDrawCommands (S depth) tile subset (p, frameState, s)
  = match drawPasses (S (length (imagery d))) (contextFor p tile subset d)
            (imagery d) (_renderState p) (_firstPassInitialColor p) (p, frameState) with
    | Return _ (p, frameState) => Return tt (p, frameState, s)
    | Throw e (p, frameState) => Throw e (p, frameState, s)
    | Unfinished => Unfinished
    end.
Proof.
  intros Hd Hown [m Hm]. cbn [addDrawCommandsForTile].
  rewrite Hd, Hown. cbn. by rewrite Hd, Hm.
Qed.


(** Outside [SCENE3D] the bounding region is there to be read. *)
Lemma readsMissingRegion_defined p tile subset d frameState :
  mode frameState = SCENE3D \/ is_Some (tileBoundingRegion d) ->
  readsMissingRegion (contextFor p tile subset d) frameState = false.
Proof.
  unfold readsMissingRegion. cbn [pass_tileBoundingRegion passContextFor].
  intros [Hmode|Hregion].
  - by rewrite bool_decide_eq_true_2.
  - rewrite (bool_decide_eq_true_2 _ Hregion). apply andb_false_r.
Qed.






End Assembly.





(** ** Further properties of the distance and of the command loop *)

Section MoreDistance.
Context `{Collaborators}.

(** X2. When height resolution finds no source, [computeDistanceToTile]
    returns the sentinel distance 9999999999. *)
Theorem computeDistanceToTile_unresolved tile frameState s :
  (updateTileBoundingRegion tile frameState s).1 = None ->
  (computeDistanceToTile tile frameState s).1 = 9999999999%float.
Proof.
  intros Hnone. unfold computeDistanceToTile.
  destruct (updateTileBoundingRegion tile frameState s) as [hs s1].
  simpl in Hnone. by subst hs.
Qed.

Lemma ancestors_lower tile a :
  levelsDescend tile -> a ∈ ancestors tile -> (tile_level a < tile_level tile)%nat.
Proof.
  revert a. induction tile as [level x y rect [p|] IH] using QuadtreeTile_parent_ind;
    intros a Hdescend Hin; [|by inversion Hin].
  cbn in Hdescend, Hin. destruct Hdescend as [Hlt Hrest].
  apply elem_of_cons in Hin as [->|Hin]; [done|].
  specialize (IH p eq_refl a Hrest Hin). cbn. lia.
Qed.

Lemma ancestors_not_sameTile tile a :
  levelsDescend tile -> a ∈ ancestors tile -> sameTile a tile = false.
Proof.
  intros Hdescend Hin. pose proof (ancestors_lower tile a Hdescend Hin) as Hlt.
  apply bool_decide_eq_false. unfold key. intros [= Hlevel _ _]. lia.
Qed.

(** X1. Which range is measured. When the heights are the tile's own, the
    resolved range; when they come from an ancestor, the resolved minimum
    twice if it is farther from the camera's cartographic height than the
    maximum, and the maximum twice otherwise. *)
Theorem computeDistanceToTile_collapse tile frameState s source :
  let r := updateTileBoundingRegion tile frameState s in
  let region := regionOf r.2 tile in
  let h := positionCartographic_height (camera frameState) in
  let farther :=
    if Js.gt (PrimFloat.abs (h - minimumHeight region))
             (PrimFloat.abs (h - maximumHeight region))
    then minimumHeight region else maximumHeight region in
  levelsDescend tile ->
  r.1 = Some source ->
  (source = tile ->
     (computeDistanceToTile tile frameState s).1 = distanceToCamera region frameState)
  /\ (source ∈ ancestors tile ->
      (computeDistanceToTile tile frameState s).1
      = distanceToCamera (withHeights region farther farther) frameState).
Proof.
  intros r region h farther Hdescend Hr.
  rewrite (computeDistanceToTile_measures tile frameState s source Hr).
  fold r region h. unfold measuredRegion. fold h. split.
  - intros ->. unfold sameTile. by rewrite bool_decide_eq_true_2.
  - intros Hin. rewrite (ancestors_not_sameTile tile source) by done.
    subst farther. by destruct (Js.gt _ _).
Qed.

End MoreDistance.

(** X2, witness: the root without any height source. *)
Lemma computeDistanceToTile_unresolved_witness :
  (@computeDistanceToTile Sample.collaborators Sample.root (Sample.frame false)
     Sample.emptyStore).1 = 9999999999%float.
Proof.
  apply (@computeDistanceToTile_unresolved Sample.collaborators).
  vm_compute. reflexivity.
Defined.

(** X1, witness: the leaf under the root's mesh (5 m to 50 m), camera at 100 m: the
    minimum is farther, the range measured is 5 m to 5 m. *)
Lemma computeDistanceToTile_collapse_witness :
  (@computeDistanceToTile Sample.collaborators Sample.leaf (Sample.frame false)
     Sample.rootMeshStore).1
  = @distanceToCamera Sample.collaborators
      (mkTileBoundingRegion (rectangle Sample.leaf) 5 5) (Sample.frame false).
Proof.
  destruct (@computeDistanceToTile_collapse Sample.collaborators Sample.leaf
              (Sample.frame false) Sample.rootMeshStore Sample.root) as [_ Hancestor].
  - cbn. lia.
  - vm_compute. reflexivity.
  - rewrite Hancestor.
    + vm_compute. reflexivity.
    + cbn. apply elem_of_cons. right. apply elem_of_cons. by left.
Defined.

Section MoreCommands.
Variable maximumTextureImageUnits : Z.
Variable createFillTile :
  GlobeSurfaceTileProvider -> QuadtreeTile -> FrameState -> Store -> Store.

Local Open Scope nat_scope.

Lemma takeReady_nothing_counted rest budget :
  readyTextureCount rest = 0 -> takeReady rest (S budget) = ([], []).
Proof.
  unfold readyTextureCount. induction rest as [|t rest IH]; intros Hzero; [done|].
  cbn [takeReady]. destruct (countsAsReady t) eqn:Hcount.
  - rewrite filter_cons_True in Hzero by done. done.
  - rewrite filter_cons_False in Hzero by (by rewrite Hcount). by apply IH.
Qed.

Lemma carriesTexture_not_counted rest :
  readyTextureCount rest = 0 -> Forall (fun t => carriesTexture t = true) rest.
Proof.
  unfold readyTextureCount. induction rest as [|t rest IH]; intros Hzero; [done|].
  destruct (countsAsReady t) eqn:Hcount.
  - rewrite filter_cons_True in Hzero by done. done.
  - rewrite filter_cons_False in Hzero by (by rewrite Hcount).
    apply Forall_cons. split; [|by apply IH]. unfold carriesTexture. by rewrite Hcount.
Qed.

(** X3. A tile without any ready layer still gets exactly one command: no
    texture, the first-pass render state and the configured initial color.
    The tile draws its own geometry, and the frame is in [SCENE3D] or the
    tile has a bounding region to read the heights from. *)
Theorem addDrawCommandsForTile_no_layers depth tile subset p frameState s d :
  let start := _usedDrawCommands p `min` length (_drawCommands p) in
  dataOf s tile = Some d ->
  renderableTile d = None ->
  is_Some (meshInUse d) ->
  mode frameState = SCENE3D \/ is_Some (tileBoundingRegion d) ->
  (0 < maxTexturesFor maximumTextureImageUnits p d)%Z ->
  readyTextureCount (imagery d) = 0 ->
  exists p' frameState' c,
    addDrawCommandsForTile maximumTextureImageUnits createFillTile (S depth) tile subset
      (p, frameState, s) = Return tt (p', frameState', s)
    /\ commandList frameState' = commandList frameState ++ [start]
    /\ _drawCommands p' !! start = Some c
    /\ dayTextures c = []
    /\ renderState c = _renderState p
    /\ initialColor c = _firstPassInitialColor p.
Proof.
  intros start Hd Hown Hmesh Hregion Hbudget Hzero.
  rewrite (addDrawCommandsForTile_own _ _ depth tile subset p frameState s d) by done.
  destruct (drawPasses_commands (S (length (imagery d)))
              (passContextFor maximumTextureImageUnits p tile subset d)
              (imagery d) (_renderState p) (_firstPassInitialColor p) p frameState)
    as (p' & frameState' & Hrun & Hlist & _ & _ & Hcommands);
    [by apply carriesTexture_not_counted|by apply readsMissingRegion_defined|done|lia|].
  cbn [passesOf pass_maxTextures passContextFor] in Hlist, Hcommands.
  destruct (Z.to_nat (maxTexturesFor maximumTextureImageUnits p d)) as [|budget] eqn:Hb;
    [lia|].
  rewrite takeReady_nothing_counted in Hlist, Hcommands by done.
  destruct (Hcommands 0 [] eq_refl) as (c & Hc & _ & Hs & Hi & Ht & _).
  rewrite Nat.add_0_r in Hc.
  exists p', frameState', c. rewrite Hrun. done.
Qed.

Lemma texturesOf_length_le g : length (texturesOf g) <= length g.
Proof.
  unfold texturesOf. induction g as [|t g IH]; [done|].
  cbn. destruct (slotTexture t); cbn; lia.
Qed.

Lemma passesOf_concat fuel budget rest :
  length rest < fuel ->
  concat (passesOf fuel (S budget) rest) = filter (fun t => countsAsReady t = true) rest
  /\ Forall (fun g => length g <= S budget) (passesOf fuel (S budget) rest).
Proof.
  revert rest. induction fuel as [|fuel IH]; intros rest Hfuel; [lia|].
  cbn [passesOf].
  destruct (takeReady_counts rest (S budget)) as (Hfilter & Hle & _).
  assert (length (takeReady rest (S budget)).2 < fuel \/ (takeReady rest (S budget)).2 = [])
    as Hshort.
  { destruct rest as [|t rest]; [by right|]. left.
    pose proof (takeReady_progress t rest (S budget)). lia. }
  destruct (takeReady rest (S budget)) as [taken unvisited]. cbn [fst snd] in *.
  destruct unvisited as [|u unvisited].
  - rewrite filter_nil, app_nil_r in Hfilter. cbn [concat].
    rewrite app_nil_r. split; [done|]. by apply Forall_singleton.
  - destruct Hshort as [Hshort|]; [|done].
    destruct (IH (u :: unvisited) Hshort) as [Hconcat Hsizes].
    cbn [concat]. rewrite Hconcat. split; [done|]. by apply Forall_cons.
Qed.

(** X4. The contract of the assembler: for a tile that draws its own geometry
    under a positive budget, in [SCENE3D] or with a bounding region to read
    the heights from, with every counted layer carrying its texture, the
    call returns, the commands emitted sit at consecutive pool indices, none
    holds more textures than the budget, and their texture lists, one after
    the other, are exactly the tile's ready textures in layer order. *)
Theorem addDrawCommandsForTile_all_layers depth tile subset p frameState s d budget :
  let start := _usedDrawCommands p `min` length (_drawCommands p) in
  dataOf s tile = Some d ->
  renderableTile d = None ->
  is_Some (meshInUse d) ->
  mode frameState = SCENE3D \/ is_Some (tileBoundingRegion d) ->
  maxTexturesFor maximumTextureImageUnits p d = Z.of_nat (S budget) ->
  Forall (fun t => countsAsReady t = true -> is_Some (slotTexture t)) (imagery d) ->
  exists p' frameState' n,
    addDrawCommandsForTile maximumTextureImageUnits createFillTile (S depth) tile subset
      (p, frameState, s) = Return tt (p', frameState', s)
    /\ commandList frameState' = commandList frameState ++ seq start n
    /\ (forall k, k < n ->
          exists c, _drawCommands p' !! (start + k) = Some c
                    /\ length (dayTextures c) <= S budget)
    /\ concat ((fun k => default [] (dayTextures <$> _drawCommands p' !! (start + k)))
                 <$> seq 0 n)
       = Some <$> readyTextures (imagery d).
Proof.
  intros start Hd Hown Hmesh Hregion Hbudget Hgood.
  assert (Forall (fun t => carriesTexture t = true) (imagery d)) as Hcarry.
  { eapply Forall_impl; [exact Hgood|]. intros t Ht. cbv beta in Ht. unfold carriesTexture.
    destruct (countsAsReady t) eqn:Hcount; [|done].
    destruct (Ht eq_refl) as [tex Htex]. by rewrite Htex. }
  rewrite (addDrawCommandsForTile_own _ _ depth tile subset p frameState s d) by done.
  destruct (drawPasses_commands (S (length (imagery d)))
              (passContextFor maximumTextureImageUnits p tile subset d)
              (imagery d) (_renderState p) (_firstPassInitialColor p) p frameState)
    as (p' & frameState' & Hrun & Hlist & _ & _ & Hcommands);
    [done|by apply readsMissingRegion_defined| |lia|].
  { cbn [pass_maxTextures passContextFor]. lia. }
  cbn [pass_maxTextures passContextFor] in Hlist, Hcommands.
  rewrite Hbudget, Nat2Z.id in Hlist, Hcommands. fold start in Hlist, Hcommands.
  destruct (passesOf_concat (S (length (imagery d))) budget (imagery d)) as [Hconcat Hsizes];
    [lia|].
  set (groups := passesOf (S (length (imagery d))) (S budget) (imagery d)) in *.
  assert (Forall (fun t => countsAsReady t = true /\ carriesTexture t = true) (concat groups))
    as Hall.
  { rewrite Hconcat. apply Forall_forall. intros t [Hcount Hin]%list_elem_of_filter.
    split; [done|]. rewrite Forall_forall in Hcarry. by apply Hcarry. }
  assert (forall k g, groups !! k = Some g ->
            default [] (dayTextures <$> _drawCommands p' !! (start + k))
            = Some <$> texturesOf g) as Hslots.
  { intros k g Hk. destruct (Hcommands k g Hk) as (c & -> & _ & _ & _ & Ht & _). done. }
  exists p', frameState', (length groups). rewrite Hrun.
  split; [done|]. split; [done|]. split.
  - intros k Hk. destruct (lookup_lt_is_Some_2 groups k Hk) as [g Hg].
    destruct (Hcommands k g Hg) as (c & Hc & _ & _ & _ & Ht & _).
    exists c. split; [done|]. rewrite Ht, length_fmap.
    rewrite Forall_forall in Hsizes.
    assert (length g <= S budget) by (apply Hsizes; eapply list_elem_of_lookup_2; done).
    assert (length (texturesOf g) <= length g); [|lia].
    apply texturesOf_length_le.
  - unfold readyTextures. rewrite <- Hconcat.
    clear Hconcat Hsizes Hall Hcommands Hlist. revert Hslots.
    generalize groups. clear groups. intros groups.
    assert (forall offset,
              (forall k g, groups !! k = Some g ->
                 default [] (dayTextures <$> _drawCommands p' !! (offset + k))
                 = Some <$> texturesOf g) ->
              concat ((fun k => default [] (dayTextures <$> _drawCommands p' !! (offset + k)))
                        <$> seq 0 (length groups))
              = Some <$> texturesOf (concat groups)) as Hany; [|apply Hany].
    induction groups as [|g groups IH]; intros offset Hslots; [done|].
    cbn [length seq fmap list_fmap concat].
    rewrite (Hslots 0 g eq_refl), texturesOf_app, fmap_app. f_equal.
    rewrite <- (IH (S offset)).
    + rewrite <- fmap_S_seq, <- list_fmap_compose. f_equal.
      apply list_fmap_ext. intros i k _. cbn. by rewrite Nat.add_succ_r.
    + intros k g' Hk. rewrite <- (Hslots (S k) g' Hk). by rewrite Nat.add_succ_r.
Qed.

End MoreCommands.

(** X3, witness: a loading entry and a transparent one. *)
Lemma addDrawCommandsForTile_no_layers_witness :
  exists p' frameState',
    addDrawCommandsForTile 4 Sample.noFillTile 1 Sample.leaf None
      (Sample.provider, Sample.frame false,
       setData Sample.emptyStore Sample.leaf
         (Sample.surfaceWithImagery [Sample.loadingEntry; Sample.transparentEntry]))
    = Return tt (p', frameState',
                 setData Sample.emptyStore Sample.leaf
                   (Sample.surfaceWithImagery [Sample.loadingEntry; Sample.transparentEntry]))
    /\ commandList frameState' = [0%nat].
Proof.
  destruct (addDrawCommandsForTile_no_layers 4 Sample.noFillTile 0 Sample.leaf None
              Sample.provider (Sample.frame false)
              (setData Sample.emptyStore Sample.leaf
                 (Sample.surfaceWithImagery [Sample.loadingEntry; Sample.transparentEntry]))
              (Sample.surfaceWithImagery [Sample.loadingEntry; Sample.transparentEntry]))
    as (p' & frameState' & c & Hrun & Hlist & _).
  - vm_compute. reflexivity.
  - reflexivity.
  - vm_compute. eauto.
  - left. reflexivity.
  - vm_compute. reflexivity.
  - vm_compute. reflexivity.
  - exists p', frameState'. split; [exact Hrun|exact Hlist].
Defined.

(** X4, witness: the nine sample layers under a budget of four. *)
Lemma addDrawCommandsForTile_all_layers_witness :
  exists p' frameState' n,
    addDrawCommandsForTile 4 Sample.noFillTile 1 Sample.leaf None
      (Sample.provider, Sample.frame false, Sample.nineLayerStore)
    = Return tt (p', frameState', Sample.nineLayerStore)
    /\ commandList frameState' = seq 0 n.
Proof.
  destruct (addDrawCommandsForTile_all_layers 4 Sample.noFillTile 0 Sample.leaf None
              Sample.provider (Sample.frame false) Sample.nineLayerStore
              (Sample.surfaceWithImagery Sample.nineLayers) 3)
    as (p' & frameState' & n & Hrun & Hlist & _).
  - vm_compute. reflexivity.
  - reflexivity.
  - vm_compute. eauto.
  - left. reflexivity.
  - vm_compute. reflexivity.
  - unfold Sample.surfaceWithImagery, Sample.nineLayers. cbn [imagery].
    repeat (apply Forall_cons; split;
            [intros Hcount; first [by vm_compute in Hcount | vm_compute; by eauto]|]).
    by apply Forall_nil.
  - exists p', frameState', n. split; [exact Hrun|exact Hlist].
Defined.
(** ** The command pool over a frame *)

Section CommandPool.

Local Open Scope nat_scope.

Lemma commandList_pushCommands frameState l :
  commandList (foldl pushCommand frameState l) = commandList frameState ++ l.
Proof.
  revert frameState. induction l as [|i l IH]; intros frameState; cbn [foldl].
  - by rewrite app_nil_r.
  - rewrite IH. cbn. by rewrite <- app_assoc.
Qed.

Lemma pushCommands_app frameState l1 l2 :
  foldl pushCommand (foldl pushCommand frameState l1) l2
  = foldl pushCommand frameState (l1 ++ l2).
Proof. by rewrite foldl_app. Qed.

Lemma acquireCommand_spec pool used :
  used <= length pool ->
  exists pool1,
    acquireCommand pool used = (used, pool1)
    /\ used < length pool1
    /\ length pool <= length pool1
    /\ (forall j, j < used -> pool1 !! j = pool !! j).
Proof.
  intros Hused. unfold acquireCommand. case_decide as Hfull.
  - assert (used = length pool) as -> by lia.
    exists (pool ++ [newDrawCommand]). rewrite length_app. cbn. repeat split; try lia.
    intros j Hj. by rewrite lookup_app_l.
  - exists pool. repeat split; try lia.
Qed.

Lemma dayTextureLoop_frame maxTextures rest n command applyAlpha :
  commandFrame (packedCommand (dayTextureLoop maxTextures rest n command applyAlpha))
  = commandFrame command.
Proof.
  revert n command applyAlpha.
  induction rest as [|t rest IH]; intros n command applyAlpha; cbn [dayTextureLoop]; [done|].
  destruct (Z.of_nat n <? maxTextures)%Z; [|done].
  destruct (readyImagery t) as [imagery|]; [|apply IH].
  destruct (Js.strictEq _ 0); [apply IH|].
  destruct (selectedTexture t imagery); [|done].
  rewrite IH. done.
Qed.

Lemma dayTextureLoop_count maxTextures rest n command applyAlpha :
  (Z.of_nat (packedCount (dayTextureLoop maxTextures rest n command applyAlpha))
   <= Z.max (Z.of_nat n) maxTextures)%Z.
Proof.
  revert n command applyAlpha.
  induction rest as [|t rest IH]; intros n command applyAlpha; cbn [dayTextureLoop].
  - cbn. lia.
  - destruct (Z.of_nat n <? maxTextures)%Z eqn:Hroom; [|cbn; lia].
    apply Z.ltb_lt in Hroom.
    destruct (readyImagery t) as [imagery|]; [|apply IH].
    destruct (Js.strictEq _ 0); [apply IH|].
    destruct (selectedTexture t imagery); [|cbn; lia].
    etrans; [apply IH|]. lia.
Qed.

Lemma dayTextureLoop_remaining_le maxTextures rest n command applyAlpha :
  length (remaining (dayTextureLoop maxTextures rest n command applyAlpha)) <= length rest.
Proof.
  revert n command applyAlpha.
  induction rest as [|t rest IH]; intros n command applyAlpha; cbn [dayTextureLoop]; [done|].
  destruct (Z.of_nat n <? maxTextures)%Z; [|done].
  destruct (readyImagery t) as [imagery|]; [|cbn; etrans; [apply IH|lia]].
  destruct (Js.strictEq _ 0); [cbn; etrans; [apply IH|lia]|].
  destruct (selectedTexture t imagery); [|cbn; lia].
  cbn. etrans; [apply IH|lia].
Qed.

Lemma dayTextureLoop_remaining_lt maxTextures t rest command applyAlpha :
  (0 < maxTextures)%Z ->
  length (remaining (dayTextureLoop maxTextures (t :: rest) 0 command applyAlpha))
  < length (t :: rest).
Proof.
  intros Hroom. cbn [dayTextureLoop].
  replace (Z.of_nat 0 <? maxTextures)%Z with true by (symmetry; apply Z.ltb_lt; lia).
  destruct (readyImagery t) as [imagery|];
    [|cbn; eapply Nat.le_lt_trans; [apply dayTextureLoop_remaining_le|lia]].
  destruct (Js.strictEq _ 0);
    [cbn; eapply Nat.le_lt_trans; [apply dayTextureLoop_remaining_le|lia]|].
  destruct (selectedTexture t imagery); [|cbn; lia].
  cbn; eapply Nat.le_lt_trans; [apply dayTextureLoop_remaining_le|lia].
Qed.

Lemma setLength_length {A} (a : list (option A)) n : length (Js.setLength a n) = n.
Proof.
  unfold Js.setLength. rewrite length_app, length_take, length_replicate. lia.
Qed.

Lemma finishCommand_PassCommand ctx state color pooled packed :
  (Z.of_nat (packedCount packed) <= Z.max 0 (pass_maxTextures ctx))%Z ->
  commandFrame (packedCommand packed) = commandFrame (beginCommand pooled ctx color) ->
  PassCommand ctx state color
    (finishCommand (packedCommand packed) ctx (packedCount packed)
       (packedApplyAlpha packed) state).
Proof.
  intros Hcount Hframe. unfold commandFrame in Hframe. cbn in Hframe.
  injection Hframe as Howner _ _ Hcolor Hsubset _.
  unfold PassCommand. cbn. rewrite setLength_length.
  repeat split; try done.
  intros subset Hsub. rewrite Hsubset, Hsub. done.
Qed.

Lemma drawPasses_outcome fuel ctx rest state color p frameState :
  _usedDrawCommands p <= length (_drawCommands p) ->
  match drawPasses fuel ctx rest state color (p, frameState) with
  | Return _ (p', frameState') =>
      exists n, _usedDrawCommands p' = _usedDrawCommands p + S n
                /\ PassesRan ctx state color p frameState p' frameState' (S n)
  | Throw e (p', frameState') =>
      (e = notReady \/ e = TypeError)
      /\ exists n, _usedDrawCommands p' = _usedDrawCommands p + S n
                   /\ PassesRan ctx state color p frameState p' frameState' n
  | Unfinished => True
  end.
Proof.
  revert rest state color p frameState.
  induction fuel as [|fuel IH]; intros rest state color p frameState Hused; [done|].
  cbn [drawPasses].
  destruct (acquireCommand_spec _ _ Hused) as (pool1 & -> & Hlt & Hle & Hsame).
  set (pooled := default newDrawCommand (pool1 !! _usedDrawCommands p)).
  set (packed := dayTextureLoop (pass_maxTextures ctx) rest 0
                   (beginCommand pooled ctx color) false).
  pose proof (dayTextureLoop_frame (pass_maxTextures ctx) rest 0
                (beginCommand pooled ctx color) false) as Hframe.
  pose proof (dayTextureLoop_count (pass_maxTextures ctx) rest 0
                (beginCommand pooled ctx color) false) as Hcount.
  pose proof (dayTextureLoop_outcome (pass_maxTextures ctx) rest 0
                (beginCommand pooled ctx color) false) as [Herr _].
  fold packed in Hframe, Hcount, Herr.
  destruct (thrown packed) as [e|] eqn:Hthrown.
  - split; [left; destruct Herr as [?|Herr]; [done|by injection Herr]|].
    exists 0. split; [cbn; lia|].
    unfold PassesRan. cbn. rewrite length_insert.
    split_and!; [done|done|lia|lia| |intros k Hk; lia].
    intros j Hj. rewrite list_lookup_insert_ne by lia. by apply Hsame.
  - set (command := finishCommand (packedCommand packed) ctx (packedCount packed)
                      (packedApplyAlpha packed) state).
    assert (PassCommand ctx state color command) as Hcommand.
    { apply (finishCommand_PassCommand ctx state color pooled packed); [|done].
      cbn in Hcount. lia. }
    set (p1 := withCommands p (<[_usedDrawCommands p := command]> pool1)
                 (S (_usedDrawCommands p))).
    destruct (readsMissingRegion ctx frameState) eqn:Hregion.
    { split; [by right|]. exists 0. split; [cbn; lia|].
      unfold PassesRan. cbn. rewrite length_insert.
      split_and!; [done|done|lia|lia| |intros k Hk; lia].
      intros j Hj. rewrite list_lookup_insert_ne by lia. by apply Hsame. }
    destruct (remaining packed) as [|t unvisited] eqn:Hrest.
    + exists 0. split; [cbn; lia|].
      unfold PassesRan. cbn. rewrite length_insert.
      split_and!; [done|done|lia|lia| |].
      * intros j Hj. rewrite list_lookup_insert_ne by lia. by apply Hsame.
      * intros k Hk. assert (k = 0) as -> by lia. exists command.
        rewrite Nat.add_0_r, list_lookup_insert_eq by lia. done.
    + assert (_usedDrawCommands p1 <= length (_drawCommands p1)) as Hused1.
      { cbn. rewrite length_insert. lia. }
      specialize (IH (t :: unvisited) (pass_otherRenderState ctx) otherPassesInitialColor
                    p1 (pushCommand frameState (_usedDrawCommands p)) Hused1).
      fold p1.
      destruct (drawPasses fuel ctx (t :: unvisited) (pass_otherRenderState ctx)
                  otherPassesInitialColor (p1, pushCommand frameState (_usedDrawCommands p)))
        as [[] [p' frameState']|e [p' frameState']|]; [| |done].
      * destruct IH as (n & Hn & Hfs & Hown & Hinv & Hlen & Hkeep & Hcmds).
        exists (S n). split; [cbn in Hn; lia|].
        unfold PassesRan. split_and!.
        -- rewrite Hfs. cbn. done.
        -- unfold samePoolOwner in *. rewrite Hown. done.
        -- done.
        -- cbn in Hlen. rewrite length_insert in Hlen. lia.
        -- intros j Hj. rewrite Hkeep by (cbn; lia). cbn.
           rewrite list_lookup_insert_ne by lia. by apply Hsame.
        -- intros [|k] Hk.
           ++ exists command. rewrite Nat.add_0_r, Hkeep by (cbn; lia). cbn.
              rewrite list_lookup_insert_eq by lia. done.
           ++ destruct (Hcmds k ltac:(lia)) as (c & Hc & Hpass).
              exists c. split; [cbn in Hc; rewrite <- Hc; f_equal; lia|].
              destruct k; exact Hpass.
      * destruct IH as (He & n & Hn & Hfs & Hown & Hinv & Hlen & Hkeep & Hcmds).
        split; [done|]. exists (S n). split; [cbn in Hn; lia|].
        unfold PassesRan. split_and!.
        -- rewrite Hfs. cbn. done.
        -- unfold samePoolOwner in *. rewrite Hown. done.
        -- done.
        -- cbn in Hlen. rewrite length_insert in Hlen. lia.
        -- intros j Hj. rewrite Hkeep by (cbn; lia). cbn.
           rewrite list_lookup_insert_ne by lia. by apply Hsame.
        -- intros [|k] Hk.
           ++ exists command. rewrite Nat.add_0_r, Hkeep by (cbn; lia). cbn.
              rewrite list_lookup_insert_eq by lia. done.
           ++ destruct (Hcmds k ltac:(lia)) as (c & Hc & Hpass).
              exists c. split; [cbn in Hc; rewrite <- Hc; f_equal; lia|].
              destruct k; exact Hpass.
Qed.

Lemma samePoolOwner_refl p : samePoolOwner p p.
Proof. by destruct p. Qed.

Lemma samePoolOwner_trans p1 p2 p3 :
  samePoolOwner p1 p2 -> samePoolOwner p2 p3 -> samePoolOwner p1 p3.
Proof. unfold samePoolOwner. intros H12 H23. rewrite H23 at 1. rewrite H12. done. Qed.

Lemma samePoolOwner_strategy p p' :
  samePoolOwner p p' -> missingTileStrategy p' = missingTileStrategy p.
Proof. unfold samePoolOwner. by intros ->. Qed.

Lemma PoolGrew_refl p frameState :
  _usedDrawCommands p <= length (_drawCommands p) -> PoolGrew p frameState p frameState 0.
Proof.
  intros Hused. unfold PoolGrew. cbn.
  split_and!; [done|apply samePoolOwner_refl|done|done|done|lia].
Qed.

Lemma PassesRan_PoolGrew ctx state color p frameState p' frameState' n :
  PassesRan ctx state color p frameState p' frameState' n ->
  _usedDrawCommands p + n <= _usedDrawCommands p' ->
  PoolGrew p frameState p' frameState' n.
Proof.
  intros (Hfs & Hown & Hinv & Hlen & Hkeep & _) Hn. unfold PoolGrew. done.
Qed.

Lemma PoolGrew_trans p0 fs0 p1 fs1 p2 fs2 n1 n2 :
  PoolGrew p0 fs0 p1 fs1 n1 ->
  _usedDrawCommands p1 = _usedDrawCommands p0 + n1 ->
  PoolGrew p1 fs1 p2 fs2 n2 ->
  PoolGrew p0 fs0 p2 fs2 (n1 + n2).
Proof.
  intros (Hfs1 & Hown1 & Hinv1 & Hlen1 & Hkeep1 & Hn1) Hused
         (Hfs2 & Hown2 & Hinv2 & Hlen2 & Hkeep2 & Hn2).
  unfold PoolGrew. split_and!.
  - rewrite Hfs2, Hfs1, pushCommands_app, Hused, seq_app. done.
  - by eapply samePoolOwner_trans.
  - done.
  - lia.
  - intros j Hj. rewrite Hkeep2 by lia. by apply Hkeep1.
  - lia.
Qed.

End CommandPool.

Section FrameAssembly.
Variable maximumTextureImageUnits : Z.
Variable createFillTile :
  GlobeSurfaceTileProvider -> QuadtreeTile -> FrameState -> Store -> Store.

Local Open Scope nat_scope.

Lemma PassesRan_owner ctx state color p frameState p' frameState' n k :
  PassesRan ctx state color p frameState p' frameState' n ->
  k < n -> ownerOf p' (_usedDrawCommands p + k) = Some (pass_tile ctx).
Proof.
  intros (_ & _ & _ & _ & _ & Hcmds) Hk.
  destruct (Hcmds k Hk) as (c & Hc & Howner & _).
  unfold ownerOf. by rewrite Hc.
Qed.

(** One tile: however the call ends, the pool is kept in order; when it
    returns, at least one command was appended, and all appended commands
    belong to one tile, which is the tile itself unless the provider renders
    ancestor subsets. *)
Lemma addDrawCommandsForTile_outcome depth tile subset p frameState s :
  _usedDrawCommands p <= length (_drawCommands p) ->
  match addDrawCommandsForTile maximumTextureImageUnits createFillTile depth tile subset
          (p, frameState, s) with
  | Return _ (p', frameState', s') =>
      exists n drawn,
        _usedDrawCommands p' = _usedDrawCommands p + S n
        /\ PoolGrew p frameState p' frameState' (S n)
        /\ (forall k, k <= n -> ownerOf p' (_usedDrawCommands p + k) = Some drawn)
        /\ (missingTileStrategy p <> RENDER_ANCESTOR_SUBSET -> drawn = tile)
  | Throw e (p', frameState', s') => exists n, PoolGrew p frameState p' frameState' n
  | Unfinished => True
  end.
Proof.
  intros Hused. revert tile subset.
  induction depth as [|depth IH]; intros tile subset; [done|].
  cbn [addDrawCommandsForTile].
  destruct (dataOf s tile) as [surfaceTile|]; [|exists 0; by apply PoolGrew_refl].
  assert (forall s1,
    match
      match dataOf s1 tile with
      | Some surfaceTile0 =>
          match meshInUse surfaceTile0 with
          | Some _ =>
              match drawPasses (S (length (imagery surfaceTile0)))
                      (passContextFor maximumTextureImageUnits p tile subset surfaceTile0)
                      (imagery surfaceTile0) (_renderState p)
                      (_firstPassInitialColor p) (p, frameState) with
              | Return _ (p0, frameState0) => Return () (p0, frameState0, s1)
              | Throw e (p0, frameState0) => Throw e (p0, frameState0, s1)
              | Unfinished => Unfinished
              end
          | None => Throw TypeError (p, frameState, s1)
          end
      | None => Throw TypeError (p, frameState, s1)
      end
    with
    | Return _ (p', frameState', s') =>
        exists n drawn,
          _usedDrawCommands p' = _usedDrawCommands p + S n
          /\ PoolGrew p frameState p' frameState' (S n)
          /\ (forall k, k <= n -> ownerOf p' (_usedDrawCommands p + k) = Some drawn)
          /\ (missingTileStrategy p <> RENDER_ANCESTOR_SUBSET -> drawn = tile)
    | Throw e (p', frameState', s') => exists n, PoolGrew p frameState p' frameState' n
    | Unfinished => True
    end) as Hown.
  { intros s1.
    destruct (dataOf s1 tile) as [d|]; [|exists 0; by apply PoolGrew_refl].
    destruct (meshInUse d); [|exists 0; by apply PoolGrew_refl].
    pose proof (drawPasses_outcome (S (length (imagery d)))
                  (passContextFor maximumTextureImageUnits p tile subset d)
                  (imagery d) (_renderState p) (_firstPassInitialColor p)
                  p frameState Hused) as Hout.
    destruct (drawPasses _ _ _ _ _ _) as [[] [p' frameState']|e [p' frameState']|]; [| |done].
    - destruct Hout as (n & Hn & Hran). exists n, tile. split_and!; [done| | |done].
      + eapply PassesRan_PoolGrew; [done|lia].
      + intros k Hk. by eapply (PassesRan_owner _ _ _ _ _ _ _ _ k Hran); lia.
    - destruct Hout as (_ & n & Hn & Hran). exists n.
      eapply PassesRan_PoolGrew; [done|lia]. }
  destruct (renderableTile surfaceTile) as [ancestor|]; [|apply Hown].
  destruct (decide (missingTileStrategy p = RENDER_ANCESTOR_SUBSET)) as [Hsubset|_].
  - specialize (IH ancestor (Some (renderableTileSubset surfaceTile))).
    destruct (addDrawCommandsForTile _ _ depth ancestor _ _)
      as [[] [[p' frameState'] s']|e [[p' frameState'] s']|]; [|done|done].
    destruct IH as (n & drawn & Hn & Hgrew & Howner & _).
    exists n, drawn. done.
  - destruct (decide (missingTileStrategy p = CREATE_FILL_TILE)); apply Hown.
Qed.

Lemma drawTiles_Throw depth tiles e st :
  drawTiles maximumTextureImageUnits createFillTile depth tiles (Throw e st) = Throw e st.
Proof. induction tiles as [|t tiles IH]; [done|]. cbn. apply IH. Qed.

Lemma drawTiles_Unfinished depth tiles :
  drawTiles maximumTextureImageUnits createFillTile depth tiles Unfinished = Unfinished.
Proof. induction tiles as [|t tiles IH]; [done|]. cbn. apply IH. Qed.

Lemma drawTiles_cons depth tile tiles st :
  drawTiles maximumTextureImageUnits createFillTile depth (tile :: tiles) (Return tt st)
  = drawTiles maximumTextureImageUnits createFillTile depth tiles
      (addDrawCommandsForTile maximumTextureImageUnits createFillTile depth tile None st).
Proof. done. Qed.

Lemma ownerOf_kept p p' j :
  (forall i, i < _usedDrawCommands p -> _drawCommands p' !! i = _drawCommands p !! i) ->
  j < _usedDrawCommands p -> ownerOf p' j = ownerOf p j.
Proof. intros Hkeep Hj. unfold ownerOf. by rewrite Hkeep. Qed.

(** The queue: the tiles are drawn in queue order, each with at least one
    command. *)
Lemma drawTiles_outcome depth tiles p frameState s :
  _usedDrawCommands p <= length (_drawCommands p) ->
  match drawTiles maximumTextureImageUnits createFillTile depth tiles
          (Return tt (p, frameState, s)) with
  | Return _ (p', frameState', s') =>
      exists counts,
        length counts = length tiles
        /\ Forall (fun c => 1 <= c) counts
        /\ _usedDrawCommands p' = _usedDrawCommands p + sum_list counts
        /\ PoolGrew p frameState p' frameState' (sum_list counts)
        /\ (missingTileStrategy p <> RENDER_ANCESTOR_SUBSET ->
              ownerOf p' <$> seq (_usedDrawCommands p) (sum_list counts)
              = Some <$> concat (zip_with replicate counts tiles))
  | Throw e (p', frameState', s') => exists n, PoolGrew p frameState p' frameState' n
  | Unfinished => True
  end.
Proof.
  revert p frameState s.
  induction tiles as [|tile tiles IH]; intros p frameState s Hused.
  - cbn. exists []. split_and!; [done|done|cbn; lia|by apply PoolGrew_refl|done].
  - rewrite drawTiles_cons.
    pose proof (addDrawCommandsForTile_outcome depth tile None p frameState s Hused) as Hone.
    destruct (addDrawCommandsForTile _ _ depth tile None _)
      as [[] [[p1 frameState1] s1]|e [[p1 frameState1] s1]|].
    + destruct Hone as (n & drawn & Hn & Hgrew & Howner & Hdrawn).
      assert (_usedDrawCommands p1 <= length (_drawCommands p1)) as Hused1
        by apply Hgrew.
      specialize (IH p1 frameState1 s1 Hused1).
      destruct (drawTiles _ _ depth tiles _)
        as [[] [[p' frameState'] s']|e [[p' frameState'] s']|]; [| |done].
      * destruct IH as (counts & Hlen & Hpos & Hsum & Hgrew' & Howners).
        exists (S n :: counts). split_and!.
        -- cbn. by rewrite Hlen.
        -- constructor; [lia|done].
        -- change (sum_list (S n :: counts)) with (S n + sum_list counts). lia.
        -- change (sum_list (S n :: counts)) with (S n + sum_list counts).
           by eapply PoolGrew_trans.
        -- intros Hstrategy.
           change (sum_list (S n :: counts)) with (S n + sum_list counts).
           cbn [zip_with concat].
           rewrite seq_app, fmap_app, fmap_app. f_equal.
           ++ apply list_eq. intros i.
              rewrite !list_lookup_fmap.
              destruct (decide (i < S n)) as [Hi|Hi].
              ** rewrite lookup_seq_lt by done. rewrite lookup_replicate_2 by done. cbn.
                 rewrite (ownerOf_kept p1 p') by (try apply Hgrew'; lia).
                 rewrite Howner by lia. by rewrite Hdrawn.
              ** rewrite lookup_seq_ge by lia.
                 rewrite (proj1 (lookup_replicate_None _ _ _)) by lia. done.
           ++ rewrite <- Hn. apply Howners.
              by rewrite (samePoolOwner_strategy p p1) by apply Hgrew.
      * destruct IH as (m & Hgrew'). exists (S n + m). by eapply PoolGrew_trans.
    + rewrite drawTiles_Throw. done.
    + by rewrite drawTiles_Unfinished.
Qed.

End FrameAssembly.

(** ** The queue of a frame *)

Section Queue.
Variable ClippingPlaneCollection_update :
  ClippingPlaneCollection -> FrameState -> ClippingPlaneCollection.

Local Open Scope nat_scope.

Lemma arraySet_lookup {A} (a : list (option A)) (i : nat) (v : A) (j : nat) :
  mjoin (Js.arraySet a i v !! j) = if decide (j = i) then Some v else mjoin (a !! j).
Proof.
  unfold Js.arraySet. case_decide as Hin.
  - case_decide as Hj.
    + subst j. by rewrite list_lookup_insert_eq.
    + by rewrite list_lookup_insert_ne.
  - destruct (decide (j < length a)) as [Hlt|Hge].
    + rewrite lookup_app_l by done. case_decide; [lia|done].
    + rewrite lookup_app_r by lia.
      rewrite (lookup_ge_None_2 a j) by lia.
      destruct (decide (j - length a < i - length a)) as [Hhole|Hpast].
      * rewrite lookup_app_l by (rewrite length_replicate; lia).
        rewrite lookup_replicate_2 by done. case_decide; [lia|done].
      * rewrite lookup_app_r by (rewrite length_replicate; lia).
        rewrite length_replicate.
        case_decide as Hj.
        -- subst j. by replace (i - length a - (i - length a)) with 0 by lia.
        -- rewrite lookup_ge_None_2; [done|]. cbn. lia.
Qed.

Lemma arraySet_length {A} (a : list (option A)) (i : nat) (v : A) :
  length (Js.arraySet a i v) = length a `max` S i.
Proof.
  unfold Js.arraySet. case_decide.
  - rewrite length_insert. lia.
  - rewrite !length_app, length_replicate. cbn. lia.
Qed.

Lemma bucketOf_beginUpdate p frameState count :
  bucketOf (beginUpdate ClippingPlaneCollection_update p frameState) count = [].
Proof.
  unfold bucketOf, beginUpdate.
  assert (default [] (mjoin ((emptyBucket <$> _tilesToRenderByTextureCount p) !! count))
          = []) as Hempty.
  { rewrite list_lookup_fmap.
    by destruct (_tilesToRenderByTextureCount p !! count) as [[?|]|]. }
  cbn. destruct (_clippingPlanes p) as [c|]; [destruct (clipping_enabled c)|]; apply Hempty.
Qed.

(** One call: the tile joins the bucket of its texture count when it has
    surface data, and no tile gains or loses surface data or imagery. *)
Lemma showTileThisFrame_queue tile nearest p s :
  let st' := stateAfter (p, s) (showTileThisFrame tile nearest (p, s)) in
  (forall count,
     bucketOf st'.1 count
     = bucketOf p count
       ++ (if decide (is_Some (dataOf s tile) /\ textureCountOf s tile = count)
           then [tile] else []))
  /\ (forall t, imagery <$> dataOf st'.2 t = imagery <$> dataOf s t).
Proof.
  unfold showTileThisFrame, textureCountOf, surfaceOf.
  destruct (dataOf s tile) as [d|] eqn:Hd; cbn [stateAfter fst snd default].
  2:{ split; [|done]. intros count. case_decide as Hc; [by destruct Hc as [[? ?] _]|].
      by rewrite app_nil_r. }
  assert (forall count,
    bucketOf (withTilesToRender p
                (Js.arraySet (_tilesToRenderByTextureCount p) (readyTextureCount (imagery d))
                   (default [] (mjoin (_tilesToRenderByTextureCount p
                                         !! readyTextureCount (imagery d))) ++ [tile])))
      count
    = bucketOf p count
      ++ (if decide (is_Some (Some d) /\ readyTextureCount (imagery d) = count)
          then [tile] else [])) as Hbucket.
  { intros count. unfold bucketOf at 1. cbn. rewrite arraySet_lookup.
    case_decide as Hc; case_decide as Hc'; try (by destruct Hc'); subst; try done.
    all: try (by destruct Hc'; split).
    all: by rewrite app_nil_r. }
  assert (forall (s0 : Store) a d0 d1 t,
    dataOf s0 a = Some d0 -> imagery d1 = imagery d0 ->
    imagery <$> dataOf (setData s0 a d1) t = imagery <$> dataOf s0 t) as Hkeep.
  { intros s0 a d0 d1 t Ha Himg.
    destruct (decide (key t = key a)) as [Hk|Hk].
    - rewrite dataOf_setData_same by done.
      unfold dataOf, fieldsOf in *. rewrite Hk, Ha. cbn. by rewrite Himg.
    - by rewrite dataOf_setData_other. }
  destruct nearest as [nearest|]; cbn [stateAfter fst snd].
  2:{ split; [done|]. intros t. by apply (Hkeep s tile d). }
  destruct (sameTile nearest tile) eqn:Hsame; cbn [stateAfter fst snd negb].
  { split; [done|]. intros t. by apply (Hkeep s tile d). }
  set (s1 := setData s tile (withRenderableTile d (Some nearest))).
  assert (forall t, imagery <$> dataOf s1 t = imagery <$> dataOf s t) as H1
    by (intros t; by apply (Hkeep s tile d)).
  fold s1. destruct (dataOf s1 nearest) as [nearestData|] eqn:Hn; cbn [stateAfter fst snd]; [|done].
  split; [done|]. intros t.
  set (s2 := setData s1 nearest (withRenderableTile nearestData None)).
  assert (forall t, imagery <$> dataOf s2 t = imagery <$> dataOf s1 t) as H2
    by (intros t'; by apply (Hkeep s1 nearest nearestData)).
  rewrite <- H1, <- H2.
  assert (is_Some (dataOf s2 tile)) as [d2 Hd2].
  { specialize (H2 tile). specialize (H1 tile). rewrite Hd in H1. rewrite H1 in H2.
    destruct (dataOf s2 tile); [done|]. done. }
  apply (Hkeep s2 tile d2); [done|].
  unfold surfaceOf. by rewrite Hd2.
Qed.

Lemma showTiles_buckets_from calls p s count :
  bucketOf (showTiles calls (p, s)).1 count
  = bucketOf p count
    ++ filter (fun t => is_Some (dataOf s t) /\ textureCountOf s t = count) calls.*1.
Proof.
  revert p s. induction calls as [|[tile nearest] calls IH]; intros p s.
  - cbn. by rewrite app_nil_r.
  - rewrite showTiles_cons.
    destruct (showTileThisFrame_queue tile nearest p s) as [Hbucket Himagery].
    destruct (stateAfter (p, s) (showTileThisFrame tile nearest (p, s))) as [p1 s1] eqn:Hst.
    cbn [fst snd] in Hbucket, Himagery.
    rewrite IH, Hbucket, <- app_assoc. f_equal.
    assert (forall t, (is_Some (dataOf s1 t) /\ textureCountOf s1 t = count)
                      <-> (is_Some (dataOf s t) /\ textureCountOf s t = count)) as Hsame.
    { intros t. specialize (Himagery t). unfold textureCountOf, surfaceOf.
      destruct (dataOf s1 t), (dataOf s t); cbn in *; try done.
      injection Himagery as ->. split; intros [_ ?]; (split; [by eexists|done]). }
    rewrite (list_filter_iff _ _ _ Hsame).
    cbn [fmap list_fmap fst]. rewrite filter_cons.
    by destruct (decide (is_Some (dataOf s tile) /\ textureCountOf s tile = count)).
Qed.

Lemma flat_map_agree {A B} (f g : A -> list B) (l : list A) :
  (forall a, a ∈ l -> f a = g a) -> flat_map f l = flat_map g l.
Proof.
  induction l as [|x l IH]; intros Hfg; [done|].
  cbn. rewrite (Hfg x) by left. rewrite IH; [done|]. intros a Ha. apply Hfg. by right.
Qed.

Lemma queuedTiles_buckets p :
  queuedTiles p = flat_map (bucketOf p) (seq 0 (length (_tilesToRenderByTextureCount p))).
Proof.
  unfold queuedTiles, bucketOf.
  induction (_tilesToRenderByTextureCount p) as [|bucket buckets IH] using rev_ind; [done|].
  rewrite flat_map_app, length_app, Nat.add_1_r, seq_S, flat_map_app. cbn.
  rewrite lookup_app_r, Nat.sub_diag by done. cbn. rewrite !app_nil_r. f_equal.
  rewrite IH. apply flat_map_agree. intros i Hi%elem_of_seq.
  by rewrite lookup_app_l by lia.
Qed.

Lemma flat_map_sorted {A} (f : nat -> list A) (m : A -> nat) start len :
  (forall c x, x ∈ f c -> m x = c) ->
  StronglySorted (fun a b => m a <= m b) (flat_map f (seq start len)).
Proof.
  intros Hm. revert start. induction len as [|len IH]; intros start; [constructor|].
  cbn. apply StronglySorted_app; split_and!.
  - intros a b Ha Hb. apply list_elem_of_In, in_flat_map in Hb as (c & Hc%in_seq & Hb).
    apply list_elem_of_In in Hb.
    rewrite (Hm _ _ Ha), (Hm _ _ Hb). lia.
  - assert (forall l, (forall x, x ∈ l -> m x = start) ->
                      StronglySorted (fun a b => m a <= m b) l) as Hconst.
    { induction l as [|x l IHl]; intros Hl; [constructor|].
      constructor.
      - apply IHl. intros y Hy. apply Hl. by right.
      - apply Forall_forall. intros y Hy.
        rewrite (Hl x) by left. rewrite (Hl y) by (by right). done. }
    apply Hconst. intros x Hx. by apply Hm.
  - apply IH.
Qed.

Lemma flat_map_select {A} (f : nat -> list A) (x : A) c0 start len :
  start <= c0 < start + len ->
  flat_map (fun c => (if decide (c = c0) then [x] else []) ++ f c) (seq start len)
  ≡ₚ x :: flat_map f (seq start len).
Proof.
  revert start. induction len as [|len IH]; intros start Hc; [lia|].
  cbn. destruct (decide (start = c0)) as [->|Hne].
  - cbn.
    assert (flat_map (fun c => (if decide (c = c0) then [x] else []) ++ f c)
              (seq (S c0) len) = flat_map f (seq (S c0) len)) as ->; [|done].
    apply flat_map_agree. intros c Hin%elem_of_seq. case_decide; [lia|done].
  - cbn. rewrite IH by lia. by rewrite Permutation_middle.
Qed.

Lemma flat_map_filter_count {A} (m : A -> nat) (P : A -> Prop) `{forall x, Decision (P x)}
    (l : list A) n :
  (forall x, x ∈ l -> P x -> m x < n) ->
  flat_map (fun c => filter (fun x => P x /\ m x = c) l) (seq 0 n) ≡ₚ filter P l.
Proof.
  induction l as [|x l IH]; intros Hbound.
  - cbn. induction (seq 0 n) as [|c cs IHc]; [done|]. cbn. apply IHc.
  - rewrite filter_cons. destruct (decide (P x)) as [Hx|Hx].
    + rewrite <- IH by (intros y Hy; apply Hbound; by right).
      rewrite <- (flat_map_select _ x (m x) 0 n) by (split; [lia|apply Hbound; [left|done]]).
      erewrite flat_map_agree; [done|]. intros c _. cbn beta.
      rewrite filter_cons. case_decide as Hc; case_decide as Hc'; try done.
      * by destruct Hc as [_ <-].
      * destruct Hc. by split.
    + rewrite <- IH by (intros y Hy; apply Hbound; by right).
      apply reflexive_eq. apply flat_map_agree. intros c _.
      rewrite filter_cons. case_decide as Hc; [by destruct Hc|done].
Qed.

Lemma showTiles_pool calls p s :
  _drawCommands (showTiles calls (p, s)).1 = _drawCommands p
  /\ _usedDrawCommands (showTiles calls (p, s)).1 = _usedDrawCommands p
  /\ missingTileStrategy (showTiles calls (p, s)).1 = missingTileStrategy p.
Proof.
  revert p s. induction calls as [|[tile nearest] calls IH]; intros p s; [done|].
  rewrite showTiles_cons.
  assert (exists s1 b,
            stateAfter (p, s) (showTileThisFrame tile nearest (p, s))
            = (withTilesToRender p b, s1)) as (s1 & b & ->).
  { unfold showTileThisFrame.
    destruct (dataOf s tile) as [d|]; cbn [stateAfter].
    2:{ exists s, (_tilesToRenderByTextureCount p). by destruct p. }
    destruct nearest as [nearest|]; [|by eexists _, _].
    destruct (negb (sameTile nearest tile)); [|by eexists _, _].
    destruct (dataOf _ nearest); by eexists _, _. }
  destruct (IH (withTilesToRender p b) s1) as (-> & -> & ->). done.
Qed.

(** X5. The queue of a frame. After [beginUpdate], the calls of
    [showTileThisFrame] sort the shown tiles (those that have surface data)
    into buckets by their number of ready textures: each bucket holds its
    tiles in call order, every shown tile is queued exactly once per call,
    and [endUpdate] visits the queue by ascending texture count. *)
Theorem showTileThisFrame_queue_by_texture_count calls p frameState s :
  let shown := filter (fun t => is_Some (dataOf s t)) calls.*1 in
  let p' := (showTiles calls
               (beginUpdate ClippingPlaneCollection_update p frameState, s)).1 in
  (forall count, bucketOf p' count = filter (fun t => textureCountOf s t = count) shown)
  /\ queuedTiles p' ≡ₚ shown
  /\ StronglySorted (fun a b => textureCountOf s a <= textureCountOf s b) (queuedTiles p').
Proof.
  intros shown p'.
  assert (forall count,
            bucketOf p' count
            = filter (fun t => is_Some (dataOf s t) /\ textureCountOf s t = count) calls.*1)
    as Hbucket.
  { intros count. unfold p'. by rewrite showTiles_buckets_from, bucketOf_beginUpdate. }
  split_and!.
  - intros count. rewrite Hbucket. unfold shown. rewrite list_filter_filter.
    apply list_filter_iff. intros t. tauto.
  - rewrite queuedTiles_buckets.
    erewrite flat_map_agree; [|intros c _; apply Hbucket].
    apply (flat_map_filter_count (textureCountOf s) (fun t => is_Some (dataOf s t))).
    intros t Ht Hdata.
    destruct (decide (textureCountOf s t < length (_tilesToRenderByTextureCount p')))
      as [|Hout]; [done|].
    assert (t ∈ bucketOf p' (textureCountOf s t)) as Hin.
    { rewrite Hbucket. by apply list_elem_of_filter. }
    unfold bucketOf in Hin. rewrite lookup_ge_None_2 in Hin by lia.
    by apply elem_of_nil in Hin.
  - rewrite queuedTiles_buckets. apply flat_map_sorted.
    intros c t Ht. rewrite Hbucket in Ht. by apply list_elem_of_filter in Ht as [[_ ?] _].
Qed.

End Queue.

(** ** The commands of a frame *)

Section FrameCommands.
Variable ClippingPlaneCollection_update :
  ClippingPlaneCollection -> FrameState -> ClippingPlaneCollection.
Variable maximumTextureImageUnits : Z.
Variable createFillTile :
  GlobeSurfaceTileProvider -> QuadtreeTile -> FrameState -> Store -> Store.

Local Open Scope nat_scope.

Lemma endUpdate_drawTiles depth p frameState s :
  endUpdate maximumTextureImageUnits createFillTile depth (p, frameState, s)
  = drawTiles maximumTextureImageUnits createFillTile depth (queuedTiles p)
      (Return tt (ensureRenderStates p, frameState, s)).
Proof.
  unfold endUpdate, drawTiles, queuedTiles, ensureRenderStates.
  by destruct (_renderState p).
Qed.

Lemma ensureRenderStates_pool p :
  _usedDrawCommands (ensureRenderStates p) = _usedDrawCommands p
  /\ _drawCommands (ensureRenderStates p) = _drawCommands p
  /\ missingTileStrategy (ensureRenderStates p) = missingTileStrategy p.
Proof. unfold ensureRenderStates. by destruct (_renderState p). Qed.

Lemma appendedCommands_pushed frameState l :
  appendedCommands frameState (foldl pushCommand frameState l) = l.
Proof.
  unfold appendedCommands. by rewrite commandList_pushCommands, drop_app_length.
Qed.

(** X6. The queue is drawn in order. When [endUpdate] returns and the
    provider does not render ancestor subsets, every queued tile got at
    least one command, the commands were appended to the frame's command
    list in queue order, taken from consecutive pool positions, and each
    command belongs to its tile. *)
Theorem endUpdate_draws_queue_in_order depth p frameState s p' frameState' s' :
  _usedDrawCommands p <= length (_drawCommands p) ->
  missingTileStrategy p <> RENDER_ANCESTOR_SUBSET ->
  endUpdate maximumTextureImageUnits createFillTile depth (p, frameState, s)
  = Return tt (p', frameState', s') ->
  exists counts,
    length counts = length (queuedTiles p)
    /\ Forall (fun c => 1 <= c) counts
    /\ appendedCommands frameState frameState'
       = seq (_usedDrawCommands p) (sum_list counts)
    /\ ownerOf p' <$> appendedCommands frameState frameState'
       = Some <$> concat (zip_with replicate counts (queuedTiles p)).
Proof.
  intros Hused Hstrategy Hend. rewrite endUpdate_drawTiles in Hend.
  destruct (ensureRenderStates_pool p) as (Hu & Hp & Hs).
  pose proof (drawTiles_outcome maximumTextureImageUnits createFillTile depth
                (queuedTiles p) (ensureRenderStates p) frameState s) as Hout.
  rewrite Hend, Hu, Hp, Hs in Hout.
  destruct (Hout Hused) as (counts & Hlen & Hpos & Hsum & Hgrew & Howners).
  exists counts. destruct Hgrew as (-> & _).
  rewrite Hu, appendedCommands_pushed. split_and!; [done|done|done|].
  by apply Howners.
Qed.

(** X7. The pick pass replays the frame. In a frame that starts with
    [beginUpdate] and whose [endUpdate] returns, [updateForPick] appends to a
    command list exactly the commands that [endUpdate] appended to the
    frame's list, in the same order. *)
Theorem updateForPick_replays_frame depth calls p beginFrame frameState s pickFrame
    p' frameState' s' :
  let st := showTiles calls
              (beginUpdate ClippingPlaneCollection_update p beginFrame, s) in
  endUpdate maximumTextureImageUnits createFillTile depth (st.1, frameState, st.2)
  = Return tt (p', frameState', s') ->
  commandList (updateForPick p' pickFrame)
  = commandList pickFrame ++ appendedCommands frameState frameState'.
Proof.
  intros st Hend. rewrite endUpdate_drawTiles in Hend.
  destruct (ensureRenderStates_pool st.1) as (Hu & Hp & Hs).
  assert (_usedDrawCommands st.1 = 0) as Hzero.
  { unfold st.
    destruct (showTiles_pool calls
                (beginUpdate ClippingPlaneCollection_update p beginFrame) s)
      as (_ & -> & _).
    unfold beginUpdate. done. }
  pose proof (drawTiles_outcome maximumTextureImageUnits createFillTile depth
                (queuedTiles st.1) (ensureRenderStates st.1) frameState st.2) as Hout.
  rewrite Hend, Hu, Hp, Hzero in Hout.
  destruct (Hout ltac:(lia)) as (counts & _ & _ & Hsum & (-> & _) & _).
  unfold updateForPick.
  rewrite Hu, Hzero, appendedCommands_pushed, commandList_pushCommands, Hsum. done.
Qed.

(** X8. The pool is kept in order. However [endUpdate] ends, no more
    commands are in use than the pool holds, the pool has not shrunk, the
    commands that were in use before the call are untouched, and every
    reference appended to the frame's command list points into the pool. *)
Theorem endUpdate_keeps_pool depth p frameState s :
  _usedDrawCommands p <= length (_drawCommands p) ->
  let st' := stateAfter (p, frameState, s)
               (endUpdate maximumTextureImageUnits createFillTile depth
                  (p, frameState, s)) in
  _usedDrawCommands st'.1.1 <= length (_drawCommands st'.1.1)
  /\ length (_drawCommands p) <= length (_drawCommands st'.1.1)
  /\ (forall j, j < _usedDrawCommands p ->
        _drawCommands st'.1.1 !! j = _drawCommands p !! j)
  /\ Forall (fun index => index < length (_drawCommands st'.1.1))
       (appendedCommands frameState st'.1.2).
Proof.
  intros Hused. rewrite endUpdate_drawTiles.
  destruct (ensureRenderStates_pool p) as (Hu & Hp & Hs).
  pose proof (drawTiles_outcome maximumTextureImageUnits createFillTile depth
                (queuedTiles p) (ensureRenderStates p) frameState s) as Hout.
  rewrite Hu, Hp in Hout. specialize (Hout Hused).
  assert (forall p' frameState' n,
            PoolGrew (ensureRenderStates p) frameState p' frameState' n ->
            _usedDrawCommands p' <= length (_drawCommands p')
            /\ length (_drawCommands p) <= length (_drawCommands p')
            /\ (forall j, j < _usedDrawCommands p ->
                  _drawCommands p' !! j = _drawCommands p !! j)
            /\ Forall (fun index => index < length (_drawCommands p'))
                 (appendedCommands frameState frameState')) as Hgrew.
  { intros p' frameState' n (-> & _ & Hinv & Hlen & Hkeep & Hn).
    rewrite Hp in Hlen. rewrite Hu in Hkeep, Hn.
    rewrite Hp in Hkeep. rewrite appendedCommands_pushed, Hu.
    split_and!; [done|done|done|].
    apply Forall_forall. intros i Hi%elem_of_seq. lia. }
  destruct (drawTiles _ _ depth (queuedTiles p) _)
    as [[] [[p' frameState'] s']|e [[p' frameState'] s']|]; cbn [stateAfter fst snd].
  - destruct Hout as (counts & _ & _ & _ & Hg & _). by eapply Hgrew.
  - destruct Hout as (n & Hg). by eapply Hgrew.
  - split_and!; [done|done|done|].
    unfold appendedCommands. by rewrite drop_all.
Qed.

End FrameCommands.

(** ** Ancestor subsets *)

Section AncestorSubsets.
Variable maximumTextureImageUnits : Z.
Variable createFillTile :
  GlobeSurfaceTileProvider -> QuadtreeTile -> FrameState -> Store -> Store.

Local Open Scope nat_scope.

Lemma drawPasses_finishes fuel ctx rest state color st :
  (0 < pass_maxTextures ctx)%Z ->
  length rest < fuel ->
  drawPasses fuel ctx rest state color st <> Unfinished.
Proof.
  intros Hroom. revert rest state color st.
  induction fuel as [|fuel IH]; intros rest state color [p frameState] Hfuel; [lia|].
  cbn [drawPasses].
  destruct (acquireCommand (_drawCommands p) (_usedDrawCommands p)) as [index pool].
  set (command := beginCommand (default newDrawCommand (pool !! index)) ctx color).
  destruct (thrown (dayTextureLoop (pass_maxTextures ctx) rest 0 command false)); [done|].
  destruct (readsMissingRegion ctx frameState); [done|].
  destruct (remaining (dayTextureLoop (pass_maxTextures ctx) rest 0 command false))
    as [|t unvisited] eqn:Hrest; [done|].
  apply IH.
  destruct rest as [|t0 rest0].
  - cbn in Hrest. done.
  - pose proof (dayTextureLoop_remaining_lt (pass_maxTextures ctx) t0 rest0 command false
                  Hroom) as Hlt.
    rewrite Hrest in Hlt. cbn in *. lia.
Qed.

Lemma maxTexturesFor_positive p d :
  (2 < maximumTextureImageUnits)%Z -> (0 < maxTexturesFor maximumTextureImageUnits p d)%Z.
Proof.
  intros Hunits. unfold maxTexturesFor.
  destruct (hasWaterMask p && _); destruct (_ && bool_decide _); lia.
Qed.

Lemma chain_bound (s : Store) (visited : list TileKey) :
  NoDup visited -> (forall k, k ∈ visited -> is_Some (s !! k)) -> length visited <= size s.
Proof.
  intros Hnodup Hin.
  rewrite <- (size_list_to_set (C := gset TileKey)) by done.
  rewrite <- size_dom. apply subseteq_size.
  intros k Hk%elem_of_list_to_set. apply elem_of_dom. by apply Hin.
Qed.

Lemma dataOf_backReference s tile d :
  dataOf s tile = Some d -> backReference s (key tile) = key <$> renderableTile d.
Proof.
  unfold dataOf, fieldsOf, backReference.
  destruct (s !! key tile) as [f|]; cbn; [|done]. by intros ->.
Qed.

Lemma dataOf_stored s tile d : dataOf s tile = Some d -> is_Some (s !! key tile).
Proof.
  unfold dataOf, fieldsOf. destruct (s !! key tile); [by eexists|done].
Qed.

Lemma addDrawCommandsForTile_finishes depth tile subset p frameState s visited :
  acyclicRefs s ->
  (2 < maximumTextureImageUnits)%Z ->
  NoDup visited ->
  (forall k, k ∈ visited -> is_Some (s !! k) /\ tc (defersTo s) k (key tile)) ->
  size s < length visited + depth ->
  addDrawCommandsForTile maximumTextureImageUnits createFillTile depth tile subset
    (p, frameState, s) <> Unfinished.
Proof.
  intros Hacyclic Hunits. revert tile subset visited.
  induction depth as [|depth IH]; intros tile subset visited Hnodup Hvisited Hsize.
  - pose proof (chain_bound s visited Hnodup (fun k Hk => proj1 (Hvisited k Hk))). lia.
  - cbn [addDrawCommandsForTile].
    destruct (dataOf s tile) as [d|] eqn:Hd; [|done].
    assert (forall s1,
      match dataOf s1 tile with
      | Some surfaceTile =>
          match meshInUse surfaceTile with
          | Some _ =>
              match drawPasses (S (length (imagery surfaceTile)))
                      (passContextFor maximumTextureImageUnits p tile subset surfaceTile)
                      (imagery surfaceTile) (_renderState p)
                      (_firstPassInitialColor p) (p, frameState) with
              | Return _ (p0, frameState0) => Return () (p0, frameState0, s1)
              | Throw e (p0, frameState0) => Throw e (p0, frameState0, s1)
              | Unfinished => Unfinished
              end
          | None => Throw TypeError (p, frameState, s1)
          end
      | None => Throw TypeError (p, frameState, s1)
      end <> Unfinished) as Hown.
    { intros s1. destruct (dataOf s1 tile) as [d1|]; [|done].
      destruct (meshInUse d1); [|done].
      pose proof (drawPasses_finishes (S (length (imagery d1)))
                    (passContextFor maximumTextureImageUnits p tile subset d1)
                    (imagery d1) (_renderState p) (_firstPassInitialColor p)
                    (p, frameState)) as Hfin.
      destruct (drawPasses _ _ _ _ _ _) as [[] [? ?]|? [? ?]|]; [done|done|].
      exfalso. apply Hfin; [|lia|done]. cbn. by apply maxTexturesFor_positive. }
    destruct (renderableTile d) as [ancestor|] eqn:Hancestor; [|apply Hown].
    destruct (decide (missingTileStrategy p = RENDER_ANCESTOR_SUBSET)) as [_|_].
    + assert (defersTo s (key tile) (key ancestor)) as Hdefers.
      { unfold defersTo. rewrite (dataOf_backReference s tile d Hd), Hancestor. done. }
      apply (IH ancestor _ (key tile :: visited)).
      * constructor; [|done]. intros Hin.
        apply (Hacyclic (key tile)). by apply Hvisited.
      * intros k [->|Hk]%elem_of_cons.
        -- split; [by eapply dataOf_stored|by apply tc_once].
        -- destruct (Hvisited k Hk) as [Hstored Hreach].
           split; [done|]. by eapply tc_r.
      * cbn. lia.
    + destruct (decide (missingTileStrategy p = CREATE_FILL_TILE)); apply Hown.
Qed.

(** X9. Drawing through back-references ends. From a store without cyclic
    back-references, whatever tiles [showTileThisFrame] is then called for,
    the assembly of any tile's commands finishes (it returns or throws)
    within as many nested calls as the store has tiles plus one, also when
    the provider renders ancestor subsets and follows back-references from
    tile to tile. At least three texture units are assumed, so that every
    command has room for a texture. *)
Theorem addDrawCommandsForTile_terminates calls tile subset p frameState s :
  acyclicRefs s ->
  (2 < maximumTextureImageUnits)%Z ->
  let st := showTiles calls (p, s) in
  addDrawCommandsForTile maximumTextureImageUnits createFillTile (S (size st.2)) tile subset
    (st.1, frameState, st.2) <> Unfinished.
Proof.
  intros Hacyclic Hunits st.
  apply (addDrawCommandsForTile_finishes _ _ _ _ _ _ []).
  - by apply showTiles_acyclic.
  - done.
  - constructor.
  - intros k Hk. by apply elem_of_nil in Hk.
  - cbn. lia.
Qed.

(** A tile whose back-reference leads back to itself is never finished with
    when ancestor subsets are rendered: no depth of nesting is enough. *)
Lemma addDrawCommandsForTile_cycle depth tile subset p frameState s d self :
  missingTileStrategy p = RENDER_ANCESTOR_SUBSET ->
  dataOf s tile = Some d ->
  renderableTile d = Some self ->
  key self = key tile ->
  addDrawCommandsForTile maximumTextureImageUnits createFillTile depth tile subset
    (p, frameState, s) = Unfinished.
Proof.
  intros Hstrategy Hd Hself Hkey.
  assert (forall depth t subset,
            key t = key tile ->
            addDrawCommandsForTile maximumTextureImageUnits createFillTile depth t subset
              (p, frameState, s) = Unfinished) as Hall.
  { clear depth subset. induction depth as [|depth IH]; intros t subset Ht; [done|].
    cbn [addDrawCommandsForTile].
    assert (dataOf s t = Some d) as -> by (unfold dataOf, fieldsOf in *; by rewrite Ht).
    rewrite Hself. rewrite decide_True by done. by apply IH. }
  by apply Hall.
Qed.

Lemma addDrawCommandsForTile_defer depth tile subset p frameState s d ancestor :
  missingTileStrategy p = RENDER_ANCESTOR_SUBSET ->
  dataOf s tile = Some d ->
  renderableTile d = Some ancestor ->
  addDrawCommandsForTile maximumTextureImageUnits createFillTile (S depth) tile subset
    (p, frameState, s)
  = addDrawCommandsForTile maximumTextureImageUnits createFillTile depth ancestor
      (Some (renderableTileSubset d)) (p, frameState, s).
Proof.
  intros Hstrategy Hd Hancestor. cbn [addDrawCommandsForTile].
  rewrite Hd, Hancestor. by rewrite decide_True.
Qed.

(** A tile that draws its own geometry, called with a subset. *)
Lemma addDrawCommandsForTile_own_subset depth tile sub p frameState s d p' frameState' s' :
  _usedDrawCommands p <= length (_drawCommands p) ->
  dataOf s tile = Some d ->
  renderableTile d = None ->
  addDrawCommandsForTile maximumTextureImageUnits createFillTile (S depth) tile (Some sub)
    (p, frameState, s) = Return tt (p', frameState', s') ->
  s' = s
  /\ exists n,
       appendedCommands frameState frameState' = seq (_usedDrawCommands p) (S n)
       /\ forall k, k <= n ->
            exists c,
              _drawCommands p' !! (_usedDrawCommands p + k) = Some c
              /\ owner c = Some tile
              /\ textureCoordinateSubset c = sub
              /\ useSubset <$> shaderProgram c = Some true
              /\ command_vertexArray c
                 = match vertexArray d with
                   | Some v => Some v
                   | None => fillVertexArray d
                   end.
Proof.
  intros Hused Hdata Hown Hcall.
  destruct (meshInUse d) as [m|] eqn:Hmesh.
  2:{ cbn [addDrawCommandsForTile] in Hcall. rewrite Hdata, Hown, Hdata, Hmesh in Hcall.
      done. }
  rewrite (addDrawCommandsForTile_own _ _ _ _ _ _ _ _ d) in Hcall
    by (try done; by eexists).
  pose proof (drawPasses_outcome (S (length (imagery d)))
                (passContextFor maximumTextureImageUnits p tile (Some sub) d)
                (imagery d) (_renderState p) (_firstPassInitialColor p)
                p frameState Hused) as Hout.
  destruct (drawPasses _ _ _ _ _ _) as [[] [p1 frameState1]|e [p1 frameState1]|];
    [|done|done].
  injection Hcall as <- <- <-.
  destruct Hout as (n & Hn & -> & _ & _ & _ & _ & Hcmds).
  split; [done|]. exists n. split; [by rewrite appendedCommands_pushed|].
  intros k Hk.
  destruct (Hcmds k ltac:(lia)) as (c & Hc & Howner & _ & _ & Hsub & Hshader & Hva & _).
  exists c. split_and!; [done|done|by apply Hsub|done|done].
Qed.

(** X10. One hop to a renderable ancestor. When the provider renders
    ancestor subsets and a tile defers to a tile that draws its own
    geometry, the commands assembled for the tile are the ancestor's: each
    belongs to the ancestor, draws the ancestor's vertex array, carries the
    tile's subset of the ancestor's texture coordinates and asks for a
    shader with subset; the subset passed by the caller is not used and the
    tiles are left as they were. *)
Theorem addDrawCommandsForTile_ancestor_subset depth tile subset p frameState s d
    ancestor ancestorData p' frameState' s' :
  missingTileStrategy p = RENDER_ANCESTOR_SUBSET ->
  _usedDrawCommands p <= length (_drawCommands p) ->
  dataOf s tile = Some d ->
  renderableTile d = Some ancestor ->
  dataOf s ancestor = Some ancestorData ->
  renderableTile ancestorData = None ->
  addDrawCommandsForTile maximumTextureImageUnits createFillTile (S (S depth)) tile subset
    (p, frameState, s) = Return tt (p', frameState', s') ->
  s' = s
  /\ exists n,
       appendedCommands frameState frameState' = seq (_usedDrawCommands p) (S n)
       /\ forall k, k <= n ->
            exists c,
              _drawCommands p' !! (_usedDrawCommands p + k) = Some c
              /\ owner c = Some ancestor
              /\ textureCoordinateSubset c = renderableTileSubset d
              /\ useSubset <$> shaderProgram c = Some true
              /\ command_vertexArray c
                 = match vertexArray ancestorData with
                   | Some v => Some v
                   | None => fillVertexArray ancestorData
                   end.
Proof.
  intros Hstrategy Hused Hd Hancestor Hdata Hown Hcall.
  rewrite (addDrawCommandsForTile_defer _ _ _ _ _ _ d ancestor) in Hcall by done.
  by eapply addDrawCommandsForTile_own_subset.
Qed.

(** X11. Two hops. When a tile defers to a tile that itself defers to a
    tile drawing its own geometry, the commands assembled for the first tile
    belong to the last one and carry the subset of the tile in the middle:
    the first tile's own subset is dropped on the second hop. *)
Theorem addDrawCommandsForTile_two_hops_subset depth tile subset p frameState s d
    between betweenData ancestor ancestorData p' frameState' s' :
  missingTileStrategy p = RENDER_ANCESTOR_SUBSET ->
  _usedDrawCommands p <= length (_drawCommands p) ->
  dataOf s tile = Some d ->
  renderableTile d = Some between ->
  dataOf s between = Some betweenData ->
  renderableTile betweenData = Some ancestor ->
  dataOf s ancestor = Some ancestorData ->
  renderableTile ancestorData = None ->
  addDrawCommandsForTile maximumTextureImageUnits createFillTile (S (S (S depth))) tile
    subset (p, frameState, s) = Return tt (p', frameState', s') ->
  exists n,
    appendedCommands frameState frameState' = seq (_usedDrawCommands p) (S n)
    /\ forall k, k <= n ->
         exists c,
           _drawCommands p' !! (_usedDrawCommands p + k) = Some c
           /\ owner c = Some ancestor
           /\ textureCoordinateSubset c = renderableTileSubset betweenData.
Proof.
  intros Hstrategy Hused Hd Hbetween Hbd Hancestor Hdata Hown Hcall.
  rewrite (addDrawCommandsForTile_defer _ _ _ _ _ _ d between) in Hcall by done.
  rewrite (addDrawCommandsForTile_defer _ _ _ _ _ _ betweenData ancestor) in Hcall by done.
  destruct (addDrawCommandsForTile_own_subset _ _ _ _ _ _ _ _ _ _ Hused Hdata Hown Hcall)
    as (_ & n & Happended & Hcmds).
  exists n. split; [done|]. intros k Hk.
  destruct (Hcmds k Hk) as (c & Hc & Howner & Hsub & _). by exists c.
Qed.

End AncestorSubsets.

(** ** The frame theorems on the sample frames *)

(** X6, witness: the root (no textures, one command) is drawn before the
    leaf (nine textures, three commands). *)
Lemma endUpdate_draws_queue_in_order_witness :
  exists counts,
    length counts = length (queuedTiles FrameSample.shown.1)
    /\ Forall (fun c => (1 <= c)%nat) counts
    /\ appendedCommands (Sample.frame false) FrameSample.drawn.1.2
       = seq (_usedDrawCommands FrameSample.shown.1) (sum_list counts)
    /\ ownerOf FrameSample.drawn.1.1
         <$> appendedCommands (Sample.frame false) FrameSample.drawn.1.2
       = Some <$> concat (zip_with replicate counts (queuedTiles FrameSample.shown.1)).
Proof.
  apply (endUpdate_draws_queue_in_order 4 Sample.noFillTile 1
           FrameSample.shown.1 (Sample.frame false) FrameSample.shown.2
           FrameSample.drawn.1.1 FrameSample.drawn.1.2 FrameSample.drawn.2).
  - vm_compute. lia.
  - vm_compute. discriminate.
  - vm_compute. reflexivity.
Defined.

(** X7, witness: the four commands of the sample frame are replayed. *)
Lemma updateForPick_replays_frame_witness :
  commandList (updateForPick FrameSample.drawn.1.1 (Sample.frame true))
  = commandList (Sample.frame true)
    ++ appendedCommands (Sample.frame false) FrameSample.drawn.1.2.
Proof.
  apply (updateForPick_replays_frame FrameSample.noUpdate 4 Sample.noFillTile 1
           FrameSample.calls Sample.provider (Sample.frame false) (Sample.frame false)
           FrameSample.store (Sample.frame true)
           FrameSample.drawn.1.1 FrameSample.drawn.1.2 FrameSample.drawn.2).
  vm_compute. reflexivity.
Defined.

(** X8, witness: the sample frame. *)
Lemma endUpdate_keeps_pool_witness :
  (_usedDrawCommands FrameSample.drawn.1.1 <= length (_drawCommands FrameSample.drawn.1.1))%nat
  /\ (length (_drawCommands FrameSample.shown.1)
      <= length (_drawCommands FrameSample.drawn.1.1))%nat
  /\ (forall j, (j < _usedDrawCommands FrameSample.shown.1)%nat ->
        _drawCommands FrameSample.drawn.1.1 !! j = _drawCommands FrameSample.shown.1 !! j)
  /\ Forall (fun index => (index < length (_drawCommands FrameSample.drawn.1.1))%nat)
       (appendedCommands (Sample.frame false) FrameSample.drawn.1.2).
Proof.
  apply (endUpdate_keeps_pool 4 Sample.noFillTile 1
           FrameSample.shown.1 (Sample.frame false) FrameSample.shown.2).
  vm_compute. lia.
Defined.

Lemma acyclicRefs_chainStore : acyclicRefs FrameSample.chainStore.
Proof.
  intros k Hk. apply tc_defersTo_first in Hk as [b Hb].
  unfold FrameSample.chainStore in Hb.
  rewrite !backReference_setData in Hb.
  repeat case_decide; done.
Defined.

(** X9, witness: the chain leaf, middle, root under a provider that renders
    ancestor subsets; the leaf is drawn as a part of the root. *)
Lemma addDrawCommandsForTile_terminates_witness :
  addDrawCommandsForTile 4 Sample.noFillTile
    (S (size (showTiles FrameSample.twoHops
                (FrameSample.subsetProvider, FrameSample.chainStore)).2))
    Sample.leaf None
    ((showTiles FrameSample.twoHops (FrameSample.subsetProvider, FrameSample.chainStore)).1,
     Sample.frame false,
     (showTiles FrameSample.twoHops (FrameSample.subsetProvider, FrameSample.chainStore)).2)
  <> Unfinished.
Proof.
  apply (addDrawCommandsForTile_terminates 4 Sample.noFillTile FrameSample.twoHops
           Sample.leaf None FrameSample.subsetProvider (Sample.frame false)
           FrameSample.chainStore).
  - exact acyclicRefs_chainStore.
  - lia.
Defined.

(** X11, witness: the leaf, shown through the middle tile before the middle
    tile was shown through the root, is drawn with the middle tile's part
    of the root. *)
Lemma addDrawCommandsForTile_two_hops_subset_witness :
  exists n,
    appendedCommands (Sample.frame false) FrameSample.chained.1.2
    = seq (_usedDrawCommands FrameSample.chain.1) (S n)
    /\ forall k, (k <= n)%nat ->
         exists c,
           _drawCommands FrameSample.chained.1.1
             !! (_usedDrawCommands FrameSample.chain.1 + k)%nat = Some c
           /\ owner c = Some Sample.root
           /\ textureCoordinateSubset c
              = renderableTileSubset (surfaceOf FrameSample.chain.2 Sample.middle).
Proof.
  apply (addDrawCommandsForTile_two_hops_subset 4 Sample.noFillTile 0 Sample.leaf None
           FrameSample.chain.1 (Sample.frame false) FrameSample.chain.2
           (surfaceOf FrameSample.chain.2 Sample.leaf)
           Sample.middle (surfaceOf FrameSample.chain.2 Sample.middle)
           Sample.root (surfaceOf FrameSample.chain.2 Sample.root)
           FrameSample.chained.1.1 FrameSample.chained.1.2 FrameSample.chained.2).
  - reflexivity.
  - vm_compute. lia.
  - vm_compute. reflexivity.
  - vm_compute. reflexivity.
  - vm_compute. reflexivity.
  - vm_compute. reflexivity.
  - vm_compute. reflexivity.
  - vm_compute. reflexivity.
  - vm_compute. reflexivity.
Defined.

(** X10, witness: the leaf is drawn as a part of the middle
    tile. *)
Lemma addDrawCommandsForTile_ancestor_subset_witness :
  FrameSample.deferred.2 = FrameSample.deferring
  /\ exists n,
       appendedCommands (Sample.frame false) FrameSample.deferred.1.2
       = seq (_usedDrawCommands FrameSample.subsetProvider) (S n)
       /\ forall k, (k <= n)%nat ->
            exists c,
              _drawCommands FrameSample.deferred.1.1
                !! (_usedDrawCommands FrameSample.subsetProvider + k)%nat = Some c
              /\ owner c = Some Sample.middle
              /\ textureCoordinateSubset c
                 = renderableTileSubset (surfaceOf FrameSample.deferring Sample.leaf)
              /\ useSubset <$> shaderProgram c = Some true
              /\ command_vertexArray c
                 = match vertexArray (surfaceOf FrameSample.deferring Sample.middle) with
                   | Some v => Some v
                   | None => fillVertexArray (surfaceOf FrameSample.deferring Sample.middle)
                   end.
Proof.
  apply (addDrawCommandsForTile_ancestor_subset 4 Sample.noFillTile 0 Sample.leaf None
           FrameSample.subsetProvider (Sample.frame false) FrameSample.deferring
           (surfaceOf FrameSample.deferring Sample.leaf) Sample.middle
           (surfaceOf FrameSample.deferring Sample.middle)
           FrameSample.deferred.1.1 FrameSample.deferred.1.2 FrameSample.deferred.2).
  - reflexivity.
  - vm_compute. lia.
  - vm_compute. reflexivity.
  - vm_compute. reflexivity.
  - vm_compute. reflexivity.
  - vm_compute. reflexivity.
  - vm_compute. reflexivity.
Defined.
(** ** More on the bounding and visibility passes *)

Section VisibilityPasses.
Context `{Collaborators}.

Lemma sameContent_refl d : sameContent d d.
Proof. by repeat split. Qed.

Lemma sameContent_trans d1 d2 d3 :
  sameContent d1 d2 -> sameContent d2 d3 -> sameContent d1 d3.
Proof.
  unfold sameContent. intros H12 H23. destruct_and!. split_and!; congruence.
Qed.

Lemma writesBoundsOf_refl tile s : writesBoundsOf tile s s.
Proof. split; [done|apply sameContent_refl]. Qed.

Lemma writesBoundsOf_trans tile s1 s2 s3 :
  writesBoundsOf tile s1 s2 -> writesBoundsOf tile s2 s3 -> writesBoundsOf tile s1 s3.
Proof.
  intros [Hk12 Hc12] [Hk23 Hc23]. split.
  - intros k Hk. rewrite Hk23 by done. by apply Hk12.
  - by eapply sameContent_trans.
Qed.

Lemma writesBoundsOf_setData tile s d :
  sameContent (surfaceOf s tile) d -> writesBoundsOf tile s (setData s tile d).
Proof.
  intros Hd. split.
  - intros k Hk. unfold setData. by rewrite lookup_insert_ne.
  - by rewrite surfaceOf_setData.
Qed.

Lemma surfaceOf_setDistance s tile x t : surfaceOf (setDistance s tile x) t = surfaceOf s t.
Proof. unfold surfaceOf. by rewrite dataOf_setDistance. Qed.

Lemma surfaceOf_setIsClipped s tile b t : surfaceOf (setIsClipped s tile b) t = surfaceOf s t.
Proof. unfold surfaceOf. by rewrite dataOf_setIsClipped. Qed.

Lemma writesBoundsOf_setDistance tile s x : writesBoundsOf tile s (setDistance s tile x).
Proof.
  split.
  - intros k Hk. unfold setDistance. by rewrite lookup_insert_ne.
  - rewrite surfaceOf_setDistance. apply sameContent_refl.
Qed.

Lemma writesBoundsOf_setIsClipped tile s b : writesBoundsOf tile s (setIsClipped s tile b).
Proof.
  split.
  - intros k Hk. unfold setIsClipped. by rewrite lookup_insert_ne.
  - rewrite surfaceOf_setIsClipped. apply sameContent_refl.
Qed.

Lemma sameContent_withRegion d r : sameContent d (withRegion d r).
Proof. by repeat split. Qed.

Lemma sameContent_withBoundingVolume d source obb occludee :
  sameContent d (withBoundingVolume d source obb occludee).
Proof. by repeat split. Qed.

Lemma updateTileBoundingRegion_writes tile frameState s :
  writesBoundsOf tile s (updateTileBoundingRegion tile frameState s).2.
Proof.
  unfold updateTileBoundingRegion. fold (surfaceOf s tile).
  set (d := surfaceOf s tile).
  set (r := default (mkTileBoundingRegion (rectangle tile) 0 0) (tileBoundingRegion d)).
  assert (forall lo hi,
            writesBoundsOf tile s (setData s tile (withRegion d (withHeights r lo hi))))
    as Hstore.
  { intros lo hi. apply writesBoundsOf_setData. apply sameContent_withRegion. }
  destruct (meshHeights (mesh d)) as [[lo hi]|]; [apply Hstore|].
  destruct (terrainDataHeights _ (terrainData d)) as [[lo hi]|]; [apply Hstore|].
  destruct (bvhHeights _ (getBvh d tile)) as [[lo hi]|]; [apply Hstore|].
  destruct (ancestorLoop _ _ (ancestors tile)) as [[ancestor [lo hi]]|]; cbn [snd].
  - eapply writesBoundsOf_trans; [apply (Hstore nan nan)|].
    apply writesBoundsOf_setData. rewrite surfaceOf_setData. by repeat split.
  - apply Hstore.
Qed.

Lemma computeDistanceToTile_writes tile frameState s :
  writesBoundsOf tile s (computeDistanceToTile tile frameState s).2.
Proof.
  unfold computeDistanceToTile.
  pose proof (updateTileBoundingRegion_writes tile frameState s) as Hupd.
  destruct (updateTileBoundingRegion tile frameState s) as [heightSource s1].
  cbn [snd] in Hupd.
  destruct heightSource as [heightSource|]; [|done]. cbn [snd].
  eapply writesBoundsOf_trans; [exact Hupd|].
  eapply writesBoundsOf_trans;
    [|apply writesBoundsOf_setData; apply sameContent_withRegion].
  apply writesBoundsOf_setData.
  match goal with
  | |- sameContent _ (withRegion ?x _) =>
      assert (sameContent (surfaceOf s1 tile) x) as Hx;
      [|by eapply sameContent_trans; [exact Hx|apply sameContent_withRegion]]
  end.
  destruct (negb _); [apply sameContent_withBoundingVolume|apply sameContent_refl].
Qed.

(** X12. The visibility pass writes to its tile only. Whatever heights
    [computeTileVisibility] finds and wherever it finds them, the entries of
    all other tiles (the ancestors included) are left as they were, and of
    the tile's surface data only the bounding data can change: mesh, terrain
    data, height summary, imagery, back-reference and vertex arrays are
    kept. *)
Theorem computeTileVisibility_writes_own_tile clippingPlanes tile frameState occluders s :
  let s' := (computeTileVisibility clippingPlanes tile frameState occluders s).2 in
  (forall k, k <> key tile -> s' !! k = s !! k)
  /\ sameContent (surfaceOf s tile) (surfaceOf s' tile).
Proof.
  unfold computeTileVisibility.
  pose proof (computeDistanceToTile_writes tile frameState s) as Hdist.
  destruct (computeDistanceToTile tile frameState s) as [distance s1]. cbn [snd] in Hdist.
  assert (writesBoundsOf tile s (setDistance s1 tile distance)) as Hset.
  { eapply writesBoundsOf_trans; [exact Hdist|apply writesBoundsOf_setDistance]. }
  destruct (fog_enabled (fog frameState) && _); [exact Hset|].
  destruct (boundingVolumeSourceTile _); [|exact Hset].
  destruct (clippingActive clippingPlanes) as [c|].
  - assert (forall b, writesBoundsOf tile s
                        (setIsClipped (setDistance s1 tile distance) tile b)) as Hclip.
    { intros b. eapply writesBoundsOf_trans; [exact Hset|apply writesBoundsOf_setIsClipped]. }
    cbn zeta. destruct (bool_decide (_ = OUTSIDE)); [apply Hclip|].
    destruct (decide (_ = OUTSIDE)); [apply Hclip|].
    destruct occluders as [occluders|]; [|apply Hclip].
    destruct (bool_decide (mode frameState = SCENE3D) && _); [|apply Hclip].
    destruct (occludeePointInScaledSpace _); [|apply Hclip].
    destruct (isScaledSpacePointVisible _ _); apply Hclip.
  - cbn zeta.
    destruct (decide (_ = OUTSIDE)); [apply Hset|].
    destruct occluders as [occluders|]; [|apply Hset].
    destruct (bool_decide (mode frameState = SCENE3D) && _); [|apply Hset].
    destruct (occludeePointInScaledSpace _); [|apply Hset].
    destruct (isScaledSpacePointVisible _ _); apply Hset.
Qed.

Lemma regionOf_setDistance s tile x t : regionOf (setDistance s tile x) t = regionOf s t.
Proof. unfold regionOf. by rewrite surfaceOf_setDistance. Qed.

Lemma regionOf_setIsClipped s tile b t : regionOf (setIsClipped s tile b) t = regionOf s t.
Proof. unfold regionOf. by rewrite surfaceOf_setIsClipped. Qed.

Lemma testedVolume_setIsClipped tile frameState s b :
  testedVolume tile frameState (setIsClipped s tile b) = testedVolume tile frameState s.
Proof. unfold testedVolume. by rewrite surfaceOf_setIsClipped, regionOf_setIsClipped. Qed.


Lemma updateTileBoundingRegion_surface tile frameState s :
  exists r,
    dataOf (updateTileBoundingRegion tile frameState s).2 tile
    = Some (withRegion (surfaceOf s tile) r).
Proof.
  unfold updateTileBoundingRegion. fold (surfaceOf s tile). cbn zeta.
  destruct (meshHeights _) as [[lo hi]|];
    [cbn [snd]; rewrite dataOf_setData; by eexists|].
  destruct (terrainDataHeights _ _) as [[lo hi]|];
    [cbn [snd]; rewrite dataOf_setData; by eexists|].
  destruct (bvhHeights _ _) as [[lo hi]|];
    [cbn [snd]; rewrite dataOf_setData; by eexists|].
  destruct (ancestorLoop _ _ _) as [[ancestor [lo hi]]|]; cbn [snd];
    rewrite dataOf_setData; by eexists.
Qed.

Lemma fieldsOf_setDistance s tile x :
  fieldsOf (setDistance s tile x) tile
  = {| data := data (fieldsOf s tile); _distance := Some x;
       isClipped := isClipped (fieldsOf s tile) |}.
Proof. unfold setDistance. by rewrite fieldsOf_insert_same. Qed.

Lemma fieldsOf_setIsClipped s tile b :
  fieldsOf (setIsClipped s tile b) tile
  = {| data := data (fieldsOf s tile); _distance := _distance (fieldsOf s tile);
       isClipped := Some b |}.
Proof. unfold setIsClipped. by rewrite fieldsOf_insert_same. Qed.

Lemma fieldsOf_setData s tile d :
  fieldsOf (setData s tile d) tile
  = {| data := Some d; _distance := _distance (fieldsOf s tile);
       isClipped := isClipped (fieldsOf s tile) |}.
Proof. unfold setData. by rewrite fieldsOf_insert_same. Qed.

(** The visibility pass records the distance it measured. *)
Lemma computeTileVisibility_distance clippingPlanes tile frameState occluders s :
  _distance (fieldsOf (computeTileVisibility clippingPlanes tile frameState occluders s).2
               tile)
  = Some (computeDistanceToTile tile frameState s).1.
Proof.
  unfold computeTileVisibility.
  destruct (computeDistanceToTile tile frameState s) as [distance s1].
  assert (_distance (fieldsOf (setDistance s1 tile distance) tile) = Some distance) as Hset
    by (by rewrite fieldsOf_setDistance).
  assert (forall b, _distance (fieldsOf (setIsClipped (setDistance s1 tile distance) tile b)
                                 tile) = Some distance) as Hclip
    by (intros b; by rewrite fieldsOf_setIsClipped).
  destruct (fog_enabled (fog frameState) && _); [exact Hset|].
  destruct (boundingVolumeSourceTile _); [|exact Hset].
  destruct (clippingActive clippingPlanes) as [c|]; cbn zeta.
  - destruct (bool_decide (_ = OUTSIDE)); [apply Hclip|].
    destruct (decide (_ = OUTSIDE)); [apply Hclip|].
    destruct occluders as [occluders|]; [|apply Hclip].
    destruct (bool_decide (mode frameState = SCENE3D) && _); [|apply Hclip].
    destruct (occludeePointInScaledSpace _); [|apply Hclip].
    destruct (isScaledSpacePointVisible _ _); apply Hclip.
  - destruct (decide (_ = OUTSIDE)); [apply Hset|].
    destruct occluders as [occluders|]; [|apply Hset].
    destruct (bool_decide (mode frameState = SCENE3D) && _); [|apply Hset].
    destruct (occludeePointInScaledSpace _); [|apply Hset].
    destruct (isScaledSpacePointVisible _ _); apply Hset.
Qed.

(** The visibility pass leaves the tile with surface data. *)
Lemma computeTileVisibility_data clippingPlanes tile frameState occluders s :
  is_Some (dataOf (computeTileVisibility clippingPlanes tile frameState occluders s).2 tile).
Proof.
  unfold computeTileVisibility.
  pose proof (computeDistanceToTile_data tile frameState s) as Hdata.
  destruct (computeDistanceToTile tile frameState s) as [distance s1]. cbn [snd] in Hdata.
  assert (is_Some (dataOf (setDistance s1 tile distance) tile)) as Hset
    by (by rewrite dataOf_setDistance).
  assert (forall b, is_Some (dataOf (setIsClipped (setDistance s1 tile distance) tile b)
                               tile)) as Hclip
    by (intros b; by rewrite dataOf_setIsClipped).
  destruct (fog_enabled (fog frameState) && _); [exact Hset|].
  destruct (boundingVolumeSourceTile _); [|exact Hset].
  destruct (clippingActive clippingPlanes) as [c|]; cbn zeta.
  - destruct (bool_decide (_ = OUTSIDE)); [apply Hclip|].
    destruct (decide (_ = OUTSIDE)); [apply Hclip|].
    destruct occluders as [occluders|]; [|apply Hclip].
    destruct (bool_decide (mode frameState = SCENE3D) && _); [|apply Hclip].
    destruct (occludeePointInScaledSpace _); [|apply Hclip].
    destruct (isScaledSpacePointVisible _ _); apply Hclip.
  - destruct (decide (_ = OUTSIDE)); [apply Hset|].
    destruct occluders as [occluders|]; [|apply Hset].
    destruct (bool_decide (mode frameState = SCENE3D) && _); [|apply Hset].
    destruct (occludeePointInScaledSpace _); [|apply Hset].
    destruct (isScaledSpacePointVisible _ _); apply Hset.
Qed.

(** X14. From visibility to load priority. After [computeTileVisibility],
    the load priority of the tile is the score of the distance that the
    pass has just measured, taken towards the center of the tile's oriented
    bounding box; it is 0 as long as the tile has no such box. *)
Theorem computeTileLoadPriority_after_visibility clippingPlanes tile frameState occluders s :
  let r := computeTileVisibility clippingPlanes tile frameState occluders s in
  computeTileLoadPriority tile frameState r.2
  = match orientedBoundingBox (surfaceOf r.2 tile) with
    | Some obb =>
        priorityScore (camera frameState) (obb_center obb)
          (computeDistanceToTile tile frameState s).1
    | None => 0%float
    end.
Proof.
  intros r. unfold computeTileLoadPriority, surfaceOf.
  destruct (computeTileVisibility_data clippingPlanes tile frameState occluders s)
    as [d Hd].
  fold r in Hd. rewrite Hd. cbn [default id].
  destruct (orientedBoundingBox d) as [obb|]; [|done].
  unfold r. rewrite computeTileVisibility_distance. done.
Qed.

(** X15. The unknown tile. When neither the tile nor any ancestor offers a
    height range, the tile is given the sentinel distance in every case:
    the distance is stored before the fog is looked at. The tile is then
    hidden when fog is enabled and saturated at that distance; otherwise, if
    no height source was recorded for the tile before, it is reported
    partially visible without any culling test. *)
Theorem computeTileVisibility_unknown_tile clippingPlanes tile frameState occluders s :
  (updateTileBoundingRegion tile frameState s).1 = None ->
  let r := computeTileVisibility clippingPlanes tile frameState occluders s in
  let fogged :=
    fog_enabled (fog frameState)
    && Js.ge (CesiumMath_fog 9999999999 (fog_density (fog frameState))) 1 in
  _distance (fieldsOf r.2 tile) = Some 9999999999%float
  /\ (fogged = true -> r.1 = NONE)
  /\ (fogged = false -> boundingVolumeSourceTile (surfaceOf s tile) = None ->
        r.1 = PARTIAL).
Proof.
  intros Hnone r fogged.
  assert (computeDistanceToTile tile frameState s
          = (9999999999%float, (updateTileBoundingRegion tile frameState s).2)) as Hdist.
  { unfold computeDistanceToTile.
    destruct (updateTileBoundingRegion tile frameState s) as [hs s1].
    cbn [fst] in Hnone. by subst hs. }
  split_and!.
  - unfold r. rewrite computeTileVisibility_distance. by rewrite Hdist.
  - intros Hfog. unfold r, computeTileVisibility. rewrite Hdist. fold fogged.
    by rewrite Hfog.
  - intros Hfog Hsource. unfold r, computeTileVisibility. rewrite Hdist. fold fogged.
    rewrite Hfog. rewrite surfaceOf_setDistance.
    destruct (updateTileBoundingRegion_surface tile frameState s) as [reg Hreg].
    unfold surfaceOf at 1. rewrite Hreg.
    cbn [default from_option id withRegion boundingVolumeSourceTile].
    by rewrite Hsource.
Qed.

(** X16. The cached bounding volume. [computeDistanceToTile] computes the
    oriented bounding box and the occludee point anew exactly when height
    resolution names a source tile other than the one recorded: they are
    then built from the tile's rectangle and the resolved heights, and the
    source is recorded. In every other case (same source as recorded, or no
    source found) source, box and occludee point are left as they were,
    whatever the heights now are. *)
Theorem computeDistanceToTile_bounding_volume tile frameState s :
  let u := updateTileBoundingRegion tile frameState s in
  let before := surfaceOf s tile in
  let after := surfaceOf (computeDistanceToTile tile frameState s).2 tile in
  let region := regionOf u.2 tile in
  let obb := OrientedBoundingBox_fromRectangle (rectangle tile)
               (minimumHeight region) (maximumHeight region) in
  match u.1 with
  | Some source =>
      if sameTileU (boundingVolumeSourceTile before) source
      then boundingVolumeSourceTile after = boundingVolumeSourceTile before
           /\ orientedBoundingBox after = orientedBoundingBox before
           /\ occludeePointInScaledSpace after = occludeePointInScaledSpace before
      else boundingVolumeSourceTile after = Some source
           /\ orientedBoundingBox after = Some obb
           /\ occludeePointInScaledSpace after
              = Some (computeOccludeePoint (obb_center obb) (rectangle tile)
                        (maximumHeight region))
  | None =>
      boundingVolumeSourceTile after = boundingVolumeSourceTile before
      /\ orientedBoundingBox after = orientedBoundingBox before
      /\ occludeePointInScaledSpace after = occludeePointInScaledSpace before
  end.
Proof.
  cbn zeta. unfold computeDistanceToTile.
  destruct (updateTileBoundingRegion_surface tile frameState s) as [reg Hreg].
  destruct (updateTileBoundingRegion tile frameState s) as [hs s1]. cbn [fst snd] in *.
  assert (surfaceOf s1 tile = withRegion (surfaceOf s tile) reg) as Hsurface
    by (unfold surfaceOf at 1; by rewrite Hreg).
  destruct hs as [source|]; cbn [snd].
  - rewrite !surfaceOf_setData, Hsurface.
    cbn [withRegion boundingVolumeSourceTile].
    by destruct (sameTileU (boundingVolumeSourceTile (surfaceOf s tile)) source).
  - by rewrite Hsurface.
Qed.

Lemma isClipped_setData s tile d :
  isClipped (fieldsOf (setData s tile d) tile) = isClipped (fieldsOf s tile).
Proof. by rewrite fieldsOf_setData. Qed.

Lemma updateTileBoundingRegion_isClipped tile frameState s :
  isClipped (fieldsOf (updateTileBoundingRegion tile frameState s).2 tile)
  = isClipped (fieldsOf s tile).
Proof.
  unfold updateTileBoundingRegion. cbn zeta.
  repeat (case_match; cbn [snd]); by rewrite ?isClipped_setData.
Qed.

Lemma computeDistanceToTile_isClipped tile frameState s :
  isClipped (fieldsOf (computeDistanceToTile tile frameState s).2 tile)
  = isClipped (fieldsOf s tile).
Proof.
  unfold computeDistanceToTile.
  pose proof (updateTileBoundingRegion_isClipped tile frameState s) as Hupd.
  destruct (updateTileBoundingRegion tile frameState s) as [hs s1]. cbn [snd] in Hupd.
  destruct hs; cbn [snd]; by rewrite ?isClipped_setData.
Qed.

(** X17. The clipped flag. [computeTileVisibility] sets [tile.isClipped]
    only when clipping planes are defined and enabled and the tile gets as
    far as the plane test (it is not hidden by fog and a height source is
    recorded for it); the flag then says whether the tile's bounding volume
    is not entirely inside the planes. Otherwise the flag keeps the value it
    had. *)
Theorem computeTileVisibility_isClipped clippingPlanes tile frameState occluders s :
  let r := computeTileVisibility clippingPlanes tile frameState occluders s in
  let fogged :=
    fog_enabled (fog frameState)
    && Js.ge (CesiumMath_fog (computeDistanceToTile tile frameState s).1
                (fog_density (fog frameState))) 1 in
  isClipped (fieldsOf r.2 tile)
  = match clippingActive clippingPlanes with
    | Some c =>
        if negb fogged && bool_decide (is_Some (boundingVolumeSourceTile (surfaceOf r.2 tile)))
        then Some (negb (bool_decide
                           (computeIntersectionWithBoundingVolume c
                              (testedVolume tile frameState r.2) = INSIDE)))
        else isClipped (fieldsOf s tile)
    | None => isClipped (fieldsOf s tile)
    end.
Proof.
  cbn zeta. unfold computeTileVisibility.
  pose proof (computeDistanceToTile_isClipped tile frameState s) as Hkept.
  destruct (computeDistanceToTile tile frameState s) as [distance s1].
  cbn [fst snd] in *.
  assert (isClipped (fieldsOf (setDistance s1 tile distance) tile)
          = isClipped (fieldsOf s tile)) as Hset
    by (by rewrite fieldsOf_setDistance).
  destruct (fog_enabled (fog frameState) && _).
  { cbn [snd negb andb]. rewrite Hset. by destruct (clippingActive clippingPlanes). }
  destruct (boundingVolumeSourceTile (surfaceOf (setDistance s1 tile distance) tile))
    eqn:Hsource.
  2:{ cbn [snd]. rewrite Hsource, Hset. cbn.
      by destruct (clippingActive clippingPlanes). }
  assert (forall b,
            isClipped (fieldsOf (setIsClipped (setDistance s1 tile distance) tile b) tile)
            = Some b
            /\ boundingVolumeSourceTile
                 (surfaceOf (setIsClipped (setDistance s1 tile distance) tile b) tile)
               = Some q
            /\ testedVolume tile frameState
                 (setIsClipped (setDistance s1 tile distance) tile b)
               = visibilityVolume tile frameState
                   (surfaceOf (setDistance s1 tile distance) tile)
                   (regionOf (setDistance s1 tile distance) tile)) as Hclip.
  { intros b. rewrite fieldsOf_setIsClipped, surfaceOf_setIsClipped,
      testedVolume_setIsClipped. done. }
  destruct (clippingActive clippingPlanes) as [c|]; cbn zeta.
  - destruct (bool_decide (_ = OUTSIDE));
      [cbn [snd]; edestruct Hclip as (-> & -> & ->); done|].
    destruct (decide (_ = OUTSIDE));
      [cbn [snd]; edestruct Hclip as (-> & -> & ->); done|].
    destruct occluders as [occluders|];
      [|cbn [snd]; edestruct Hclip as (-> & -> & ->); done].
    destruct (bool_decide (mode frameState = SCENE3D) && _);
      [|cbn [snd]; edestruct Hclip as (-> & -> & ->); done].
    destruct (occludeePointInScaledSpace _);
      [|cbn [snd]; edestruct Hclip as (-> & -> & ->); done].
    destruct (isScaledSpacePointVisible _ _);
      cbn [snd]; edestruct Hclip as (-> & -> & ->); done.
  - destruct (decide (_ = OUTSIDE)); [done|].
    destruct occluders as [occluders|]; [|done].
    destruct (bool_decide (mode frameState = SCENE3D) && _); [|done].
    destruct (occludeePointInScaledSpace _); [|done].
    destruct (isScaledSpacePointVisible _ _); done.
Qed.

End VisibilityPasses.

(** X15, witness: the root of a store without any surface data; with the
    fog off it is partially visible, with the sample fog on it is hidden,
    and the sentinel distance is stored in both frames. *)
Lemma computeTileVisibility_unknown_tile_witness :
  (_distance (fieldsOf
                (@computeTileVisibility Sample.collaborators None Sample.root
                   (Sample.frame false) None Sample.emptyStore).2 Sample.root)
   = Some 9999999999%float
   /\ (@computeTileVisibility Sample.collaborators None Sample.root (Sample.frame false) None
         Sample.emptyStore).1 = PARTIAL)
  /\ (_distance (fieldsOf
                   (@computeTileVisibility Sample.collaborators None Sample.root
                      (Sample.frame true) None Sample.emptyStore).2 Sample.root)
      = Some 9999999999%float
      /\ (@computeTileVisibility Sample.collaborators None Sample.root (Sample.frame true) None
            Sample.emptyStore).1 = NONE).
Proof.
  split.
  - destruct (@computeTileVisibility_unknown_tile Sample.collaborators None Sample.root
                (Sample.frame false) None Sample.emptyStore)
      as (Hdistance & _ & Hpartial).
    + vm_compute. reflexivity.
    + split; [exact Hdistance|]. apply Hpartial; vm_compute; reflexivity.
  - destruct (@computeTileVisibility_unknown_tile Sample.collaborators None Sample.root
                (Sample.frame true) None Sample.emptyStore)
      as (Hdistance & Hnone & _).
    + vm_compute. reflexivity.
    + split; [exact Hdistance|]. apply Hnone. vm_compute. reflexivity.
Defined.
(** ** The distance pass, called again *)

Section DistanceAgain.
Context `{Collaborators}.

Lemma setData_setData s tile d d' : setData (setData s tile d) tile d' = setData s tile d'.
Proof.
  unfold setData. rewrite fieldsOf_insert_same by done. cbn [_distance isClipped].
  by rewrite insert_insert_eq.
Qed.

Lemma heightSourceOf_surfaceOf e s tile :
  heightSourceOf e (Some (surfaceOf s tile)) = heightSourceOf e (dataOf s tile).
Proof. unfold surfaceOf. by destruct (dataOf s tile). Qed.

(** Height resolution in one step: what the search over the tile and its
    ancestors finds is stored in the tile's region. *)
Lemma updateTileBoundingRegion_unfold tile frameState s :
  let e := terrainExaggeration frameState in
  let d := surfaceOf s tile in
  let r := default (mkTileBoundingRegion (rectangle tile) 0 0) (tileBoundingRegion d) in
  updateTileBoundingRegion tile frameState s
  = match resolveHeightRange e s tile with
    | Some (source, (lo, hi)) =>
        (Some source, setData s tile (withRegion d (withHeights r lo hi)))
    | None => (None, setData s tile (withRegion d (withHeights r nan nan)))
    end.
Proof.
  intros e d r. unfold resolveHeightRange, updateTileBoundingRegion, getBvh.
  fold (surfaceOf s tile). fold d. fold r. fold e.
  cbn [firstHeightSource]. rewrite <- heightSourceOf_surfaceOf. fold d.
  cbn [heightSourceOf].
  destruct (meshHeights (mesh d)) as [[lo hi]|] eqn:Hm; [done|].
  destruct (terrainDataHeights e (terrainData d)) as [[lo hi]|] eqn:Ht; [done|].
  destruct (bvhHeights e (_bvh d)) as [[lo hi]|] eqn:Hb; [done|].
  rewrite ancestorLoop_firstHeightSource.
  rewrite firstHeightSource_setData; [| |done].
  - destruct (firstHeightSource e s (ancestors tile)) as [[a [lo hi]]|]; [|done].
    by rewrite setData_setData.
  - rewrite <- heightSourceOf_surfaceOf. fold d. cbn [heightSourceOf].
    by rewrite Hm, Ht, Hb.
Qed.

Lemma firstHeightSource_agree e s s' chain :
  (forall t, heightSourceOf e (dataOf s' t) = heightSourceOf e (dataOf s t)) ->
  firstHeightSource e s' chain = firstHeightSource e s chain.
Proof.
  intros Hagree. induction chain as [|a rest IH]; [done|].
  cbn [firstHeightSource]. by rewrite Hagree, IH.
Qed.

(** A write of bounding data to the tile changes no tile's offer. *)
Lemma heightSourceOf_bounds e s tile d t :
  sameContent (surfaceOf s tile) d ->
  heightSourceOf e (dataOf (setData s tile d) t) = heightSourceOf e (dataOf s t).
Proof.
  intros (Hmesh & Hdata & Hbvh & _).
  destruct (decide (key t = key tile)) as [Hk|Hk].
  - rewrite dataOf_setData_same by done.
    assert (dataOf s t = dataOf s tile) as -> by (unfold dataOf, fieldsOf; by rewrite Hk).
    rewrite <- heightSourceOf_surfaceOf. cbn [heightSourceOf].
    by rewrite Hmesh, Hdata, Hbvh.
  - by rewrite dataOf_setData_other.
Qed.

Lemma sameTileU_self t : sameTileU (Some t) t = true.
Proof. cbn. by apply bool_decide_eq_true. Qed.

(** X28. The distance pass again. A second call of
    [computeDistanceToTile] for the same tile in the same frame returns the
    distance of the first call and leaves every tile as the first call left
    it: the heights are found again at the same source, so the bounding
    volume is not computed anew and the collapsed range is restored to the
    same heights. *)
Theorem computeDistanceToTile_again tile frameState s :
  let first := computeDistanceToTile tile frameState s in
  computeDistanceToTile tile frameState first.2 = first.
Proof.
  cbn zeta.
  assert (forall s0,
    computeDistanceToTile tile frameState s0
    = let e := terrainExaggeration frameState in
      let d := surfaceOf s0 tile in
      let r := default (mkTileBoundingRegion (rectangle tile) 0 0) (tileBoundingRegion d) in
      match resolveHeightRange e s0 tile with
      | Some (source, (lo, hi)) =>
          let obb := OrientedBoundingBox_fromRectangle (rectangle tile) lo hi in
          let d' :=
            if negb (sameTileU (boundingVolumeSourceTile d) source)
            then withBoundingVolume d source obb
                   (computeOccludeePoint (obb_center obb) (rectangle tile) hi)
            else d in
          (distanceToCamera
             (measuredRegion (sameTileU (boundingVolumeSourceTile d') tile)
                (positionCartographic_height (camera frameState)) (withHeights r lo hi))
             frameState,
           setData s0 tile (withRegion d' (withHeights r lo hi)))
      | None => (9999999999%float, setData s0 tile (withRegion d (withHeights r nan nan)))
      end) as Hform.
  { intros s0. unfold computeDistanceToTile.
    rewrite updateTileBoundingRegion_unfold. cbn zeta.
    destruct (resolveHeightRange _ s0 tile) as [[source [lo hi]]|]; [|done].
    rewrite !surfaceOf_setData, !regionOf_setData, !setData_setData.
    cbn [boundingVolumeSourceTile withRegion minimumHeight maximumHeight withHeights].
    f_equal.
    - by destruct (negb _).
    - f_equal. destruct (negb _); cbn; by rewrite withHeights_measuredRegion. }
  rewrite (Hform s). cbn zeta.
  set (e := terrainExaggeration frameState).
  set (d := surfaceOf s tile).
  set (r := default (mkTileBoundingRegion (rectangle tile) 0 0) (tileBoundingRegion d)).
  destruct (resolveHeightRange e s tile) as [[source [lo hi]]|] eqn:Hres; cbn [snd].
  - set (obb := OrientedBoundingBox_fromRectangle (rectangle tile) lo hi).
    set (d' := if negb (sameTileU (boundingVolumeSourceTile d) source)
               then withBoundingVolume d source obb
                      (computeOccludeePoint (obb_center obb) (rectangle tile) hi)
               else d).
    assert (sameContent d d') as Hsame.
    { subst d'. destruct (negb _); [apply sameContent_withBoundingVolume|apply sameContent_refl]. }
    assert (sameTileU (boundingVolumeSourceTile d') source = true) as Hsource.
    { subst d'. destruct (sameTileU (boundingVolumeSourceTile d) source) eqn:Hs;
        cbn [negb]; [done|]. cbn [boundingVolumeSourceTile withBoundingVolume].
      apply sameTileU_self. }
    rewrite Hform. cbn zeta. fold e.
    unfold resolveHeightRange in *.
    rewrite (firstHeightSource_agree e s); [|intros t; apply heightSourceOf_bounds;
      by eapply sameContent_trans; [exact Hsame|apply sameContent_withRegion]].
    rewrite Hres. rewrite surfaceOf_setData.
    cbn [boundingVolumeSourceTile withRegion tileBoundingRegion default from_option id].
    rewrite Hsource. cbn [negb]. rewrite setData_setData. done.
  - rewrite Hform. cbn zeta. fold e.
    unfold resolveHeightRange in *.
    rewrite (firstHeightSource_agree e s); [|intros t; apply heightSourceOf_bounds;
      apply sameContent_withRegion].
    rewrite Hres. rewrite surfaceOf_setData.
    cbn [withRegion tileBoundingRegion default from_option id].
    rewrite setData_setData. done.
Qed.

End DistanceAgain.
(** ** Removing an imagery layer *)

Section LayerRemoval.
Variable isLayer : ImageryLayer -> bool.

Local Open Scope nat_scope.

Abbreviation scan := (removalScan isLayer).
Abbreviation belongs := (ofLayer isLayer).

(** The scan after the first entry of the layer has been found at
    [start]: it runs to the end of the run. *)
Lemma removalScan_run rest i start numDestroyed freed :
  match scan rest i (Some start) numDestroyed freed with
  | Return (startIndex, n) freed' =>
      exists run post,
        rest = run ++ post
        /\ startIndex = Some start
        /\ n = numDestroyed + length run
        /\ freed' = freed ++ run
        /\ Forall (fun t => belongs t = true) run
        /\ (forall t, head post = Some t -> belongs t = false)
  | Throw e freed' =>
      e = TypeError
      /\ exists run, freed' = freed ++ run /\ Forall (fun t => belongs t = true) run
                     /\ run `prefix_of` rest
  | Unfinished => False
  end.
Proof.
  revert i numDestroyed freed.
  induction rest as [|t rest IH]; intros i numDestroyed freed; cbn [removalScan].
  - exists [], []. split_and!; rewrite ?app_nil_r; cbn [length]; try done; lia.
  - destruct (loadingOrReady t) as [imagery|] eqn:Himagery.
    2:{ split; [done|]. exists []. split_and!; rewrite ?app_nil_r; [done|done|].
        apply prefix_nil. }
    destruct (isLayer (imageryLayer imagery)) eqn:Hlayer.
    + specialize (IH (S i) (S numDestroyed) (freed ++ [t])).
      assert (belongs t = true) as Ht by (unfold ofLayer; by rewrite Himagery).
      cbn [default from_option id].
      destruct (scan rest (S i) (Some start) (S numDestroyed) (freed ++ [t]))
        as [[startIndex n] freed'|e freed'|]; [| |done].
      * destruct IH as (run & post & -> & -> & -> & -> & Hrun & Hpost).
        exists (t :: run), post.
        split_and!; rewrite <- ?app_assoc; cbn [length app]; try done;
          [lia|by constructor].
      * destruct IH as (-> & run & -> & Hrun & Hprefix).
        split; [done|]. exists (t :: run).
        split_and!; rewrite <- ?app_assoc; [done|by constructor|by apply prefix_cons].
    + exists [], (t :: rest).
      split_and!; rewrite ?app_nil_r; cbn [length]; try done; try lia.
      intros t' [= <-]. unfold ofLayer. by rewrite Himagery.
Qed.

(** The whole scan: the entries before the first entry of the layer are
    skipped, then the run is taken. *)
Lemma removalScan_first_run rest i freed :
  match scan rest i None 0 freed with
  | Return (startIndex, n) freed' =>
      exists pre run post,
        rest = pre ++ run ++ post
        /\ (startIndex = None /\ run = [] /\ post = []
            \/ startIndex = Some (i + length pre) /\ run <> [])
        /\ n = length run
        /\ freed' = freed ++ run
        /\ Forall (fun t => belongs t = false) pre
        /\ Forall (fun t => belongs t = true) run
        /\ (forall t, head post = Some t -> belongs t = false)
  | Throw e freed' =>
      e = TypeError
      /\ exists run, freed' = freed ++ run /\ Forall (fun t => belongs t = true) run
  | Unfinished => False
  end.
Proof.
  revert i freed. induction rest as [|t rest IH]; intros i freed; cbn [removalScan].
  - exists [], [], []. split_and!; rewrite ?app_nil_r; try done. by left.
  - destruct (loadingOrReady t) as [imagery|] eqn:Himagery.
    2:{ split; [done|]. exists []. by rewrite app_nil_r. }
    destruct (isLayer (imageryLayer imagery)) eqn:Hlayer.
    + pose proof (removalScan_run rest (S i) i 1 (freed ++ [t])) as Hrun.
      assert (belongs t = true) as Ht by (unfold ofLayer; by rewrite Himagery).
      cbn [default from_option id].
      destruct (scan rest (S i) (Some i) 1 (freed ++ [t]))
        as [[startIndex n] freed'|e freed'|]; [| |done].
      * destruct Hrun as (run & post & -> & -> & -> & -> & Hall & Hpost).
        exists [], (t :: run), post.
        split_and!; rewrite <- ?app_assoc; cbn [length app]; try done;
          [|by constructor].
        right. split; [f_equal; lia|done].
      * destruct Hrun as (-> & run & -> & Hall & _).
        split; [done|]. exists (t :: run). rewrite <- app_assoc.
        split; [done|by constructor].
    + specialize (IH (S i) freed).
      assert (belongs t = false) as Ht by (unfold ofLayer; by rewrite Himagery).
      destruct (scan rest (S i) None 0 freed) as [[startIndex n] freed'|e freed'|];
        [| |done].
      * destruct IH as (pre & run & post & -> & Hstart & -> & -> & Hpre & Hrun & Hpost).
        exists (t :: pre), run, post.
        split_and!; cbn [length app]; try done; [|by constructor].
        destruct Hstart as [(-> & -> & ->)|(-> & Hne)]; [by left|].
        right. split; [f_equal; lia|done].
      * done.
Qed.

Lemma splice_run {A} (pre run post : list A) :
  splice (pre ++ run ++ post) (length pre) (length run) = pre ++ post.
Proof.
  unfold splice. rewrite take_app_length.
  rewrite app_assoc, <- length_app, drop_app_length. done.
Qed.


Lemma filter_none (l : list TileImagery) :
  Forall (fun t => belongs t = true) l -> filter (fun t => belongs t = false) l = [].
Proof.
  induction 1 as [|t l Ht _ IH]; [done|].
  rewrite filter_cons_False by (by rewrite Ht). done.
Qed.

Lemma filter_all (l : list TileImagery) :
  Forall (fun t => belongs t = false) l -> filter (fun t => belongs t = false) l = l.
Proof.
  induction 1 as [|t l Ht _ IH]; [done|].
  rewrite filter_cons_True by done. by rewrite IH.
Qed.

(** Behind a run that ends before an entry of another layer, a collection
    whose layer entries sit together has no further entry of the layer. *)
Lemma layerContiguous_post pre run post :
  layerContiguous isLayer (pre ++ run ++ post) ->
  run <> [] ->
  Forall (fun t => belongs t = true) run ->
  (forall t, head post = Some t -> belongs t = false) ->
  Forall (fun t => belongs t = false) post.
Proof.
  intros Hcontiguous Hne Hrun Hhead.
  destruct run as [|a run]; [done|]. clear Hne.
  destruct post as [|b post]; [constructor|].
  assert (belongs b = false) as Hb by (by apply Hhead).
  constructor; [done|].
  apply Forall_lookup. intros m c Hc.
  destruct (belongs c) eqn:Hbelongs; [|done]. exfalso.
  destruct (Hcontiguous (length pre) (length pre + S (length run))
              (length pre + S (length run) + S m) a c) as (b' & Hb' & Hlayer).
  - lia.
  - rewrite lookup_app_r by lia. by rewrite Nat.sub_diag.
  - by apply Forall_cons in Hrun as [? _].
  - rewrite lookup_app_r by lia.
    replace (length pre + S (length run) + S m - length pre)
      with (length (a :: run) + S m) by (cbn; lia).
    rewrite lookup_app_r by lia.
    replace (length (a :: run) + S m - length (a :: run)) with (S m) by lia. done.
  - done.
  - rewrite lookup_app_r in Hb' by lia.
    replace (length pre + S (length run) - length pre)
      with (length (a :: run) + 0) in Hb' by (cbn; lia).
    rewrite lookup_app_r in Hb' by lia.
    replace (length (a :: run) + 0 - length (a :: run)) with 0 in Hb' by lia.
    cbn in Hb'. injection Hb' as <-. congruence.
Qed.

(** One tile whose layer entries sit together: the callback takes out all
    of them. *)
Lemma removeLayerFromTile_contiguous tile s freed s' freed' :
  removeLayerFromTile isLayer tile (s, freed) = Return tt (s', freed') ->
  (forall k, k <> key tile -> s' !! k = s !! k)
  /\ is_Some (dataOf s tile)
  /\ (layerContiguous isLayer (imagery (surfaceOf s tile)) ->
      imagery (surfaceOf s' tile)
      = filter (fun t => belongs t = false) (imagery (surfaceOf s tile))).
Proof.
  unfold removeLayerFromTile, surfaceOf.
  destruct (dataOf s tile) as [d|] eqn:Hd; [|done]. cbn [default from_option id].
  pose proof (removalScan_first_run (imagery d) 0 freed) as Hscan.
  destruct (scan (imagery d) 0 None 0 freed) as [[startIndex n] freed1|e freed1|];
    [|done|done].
  destruct Hscan as (pre & run & post & Hentries & Hstart & -> & -> & Hpre & Hrun & Hpost).
  destruct Hstart as [(-> & -> & ->)|(-> & Hne)].
  - intros [= <- <-]. rewrite Hd. cbn [default from_option id].
    split_and!; [done|done|]. intros _. rewrite Hentries, !app_nil_r.
    by rewrite filter_all.
  - intros [= <- <-]. rewrite dataOf_setData.
    cbn [default from_option id withImagery imagery].
    split_and!; [|done|].
    + intros k Hk. unfold setData. by rewrite lookup_insert_ne.
    + intros Hcontiguous. rewrite Hentries in *. rewrite splice_run.
      rewrite !filter_app, filter_all, filter_none, filter_all; try done.
      by eapply layerContiguous_post.
Qed.

Lemma onLayerRemoved_Throw tiles e st :
  foldl (fun acc tile =>
           match acc with
           | Return _ st => removeLayerFromTile isLayer tile st
           | other => other
           end) (Throw e st) tiles = Throw e st.
Proof. induction tiles as [|t tiles IH]; [done|]. cbn. apply IH. Qed.

Lemma onLayerRemoved_Unfinished tiles :
  foldl (fun acc tile =>
           match acc with
           | Return _ st => removeLayerFromTile isLayer tile st
           | other => other
           end) (Unfinished (S := Store * list TileImagery) (A := unit)) tiles
  = Unfinished.
Proof. induction tiles as [|t tiles IH]; [done|]. cbn. apply IH. Qed.

Lemma layerContiguous_filtered (l : list TileImagery) :
  layerContiguous isLayer (filter (fun t => belongs t = false) l).
Proof.
  intros i j k a c _ Ha Hlayer. apply list_elem_of_lookup_2 in Ha.
  apply list_elem_of_filter in Ha as [Hnot _]. congruence.
Qed.

Lemma filter_filter_same (l : list TileImagery) :
  filter (fun t => belongs t = false) (filter (fun t => belongs t = false) l)
  = filter (fun t => belongs t = false) l.
Proof.
  apply filter_all. apply Forall_forall. intros t Ht.
  by apply list_elem_of_filter in Ht as [? _].
Qed.

(** X19. Removing a layer from the loaded tiles. When [_onLayerRemoved]
    returns, a tile that [forEachLoadedTile] did not visit is left as it
    was, and a visited tile whose entries of the layer sat together in its
    collection (as sorting by layer index arranges them) has lost all of
    them and nothing else: its collection is the old one without the
    entries of the layer, in the old order. *)
Theorem onLayerRemoved_removes_layer loadedTiles s freed s' freed' :
  _onLayerRemoved isLayer loadedTiles (s, freed) = Return tt (s', freed') ->
  (forall k, k ∉ key <$> loadedTiles -> s' !! k = s !! k)
  /\ (forall tile,
        tile ∈ loadedTiles ->
        layerContiguous isLayer (imagery (surfaceOf s tile)) ->
        imagery (surfaceOf s' tile)
        = filter (fun t => belongs t = false) (imagery (surfaceOf s tile))).
Proof.
  unfold _onLayerRemoved. revert s freed.
  induction loadedTiles as [|t tiles IH]; intros s freed Hcall.
  - cbn in Hcall. injection Hcall as <- <-. split; [done|].
    intros tile Hin. by apply elem_of_nil in Hin.
  - cbn [foldl] in Hcall.
    destruct (removeLayerFromTile isLayer t (s, freed)) as [[] [s1 freed1]|e st1|] eqn:Hone.
    2:{ by rewrite onLayerRemoved_Throw in Hcall. }
    2:{ by rewrite onLayerRemoved_Unfinished in Hcall. }
    destruct (removeLayerFromTile_contiguous t s freed s1 freed1 Hone)
      as (Hother & Hdata & Hfiltered).
    destruct (IH s1 freed1 Hcall) as (Hkept & Hrest).
    split.
    + intros k Hk. rewrite fmap_cons in Hk. apply not_elem_of_cons in Hk as [Hne Hk].
      rewrite Hkept by done. by apply Hother.
    + intros tile Hin Hcontiguous.
      assert (forall (sa sb : Store), sb !! key tile = sa !! key tile ->
                imagery (surfaceOf sb tile) = imagery (surfaceOf sa tile)) as Hsame.
      { intros sa sb Heq. unfold surfaceOf, dataOf, fieldsOf. by rewrite Heq. }
      assert (forall (sa : Store), sa !! key t = sa !! key t ->
                key tile = key t ->
                imagery (surfaceOf sa tile) = imagery (surfaceOf sa t)) as Hkey.
      { intros sa _ Heq. unfold surfaceOf, dataOf, fieldsOf. by rewrite Heq. }
      destruct (decide (key tile = key t)) as [Heq|Hne].
      * assert (imagery (surfaceOf s1 tile)
                = filter (fun x => belongs x = false) (imagery (surfaceOf s tile)))
          as Hfirst.
        { rewrite (Hkey s1 eq_refl Heq), (Hkey s eq_refl Heq). apply Hfiltered.
          by rewrite <- (Hkey s eq_refl Heq). }
        destruct (decide (key tile ∈ key <$> tiles)) as [Hk|Hk].
        -- apply list_elem_of_fmap in Hk as (t2 & Hk2 & Hin2).
           assert (imagery (surfaceOf s' tile) = imagery (surfaceOf s' t2)) as ->.
           { unfold surfaceOf, dataOf, fieldsOf. by rewrite Hk2. }
           assert (imagery (surfaceOf s1 t2) = imagery (surfaceOf s1 tile)) as Ht2.
           { unfold surfaceOf, dataOf, fieldsOf. by rewrite Hk2. }
           rewrite Hrest; [|done|].
           ++ by rewrite Ht2, Hfirst, filter_filter_same.
           ++ rewrite Ht2, Hfirst. apply layerContiguous_filtered.
        -- rewrite (Hsame s1 s') by (by apply Hkept). done.
      * apply elem_of_cons in Hin as [->|Hin]; [done|].
        rewrite Hrest; [|done|].
        -- f_equal. apply Hsame. by apply Hother.
        -- rewrite (Hsame s s1) by (by apply Hother). done.
Qed.


End LayerRemoval.


(** X19, witness: the leaf with the sorted collection is the one loaded
    tile. *)
Lemma onLayerRemoved_removes_layer_witness :
  (forall k, k ∉ key <$> [Sample.leaf] ->
     (stateAfter (LayerSample.storeWith LayerSample.sorted, [])
        (_onLayerRemoved LayerSample.isLayerOne [Sample.leaf]
           (LayerSample.storeWith LayerSample.sorted, []))).1 !! k
     = LayerSample.storeWith LayerSample.sorted !! k)
  /\ (forall tile,
        tile ∈ [Sample.leaf] ->
        layerContiguous LayerSample.isLayerOne
          (imagery (surfaceOf (LayerSample.storeWith LayerSample.sorted) tile)) ->
        imagery (surfaceOf
                   (stateAfter (LayerSample.storeWith LayerSample.sorted, [])
                      (_onLayerRemoved LayerSample.isLayerOne [Sample.leaf]
                         (LayerSample.storeWith LayerSample.sorted, []))).1 tile)
        = filter (fun t => ofLayer LayerSample.isLayerOne t = false)
            (imagery (surfaceOf (LayerSample.storeWith LayerSample.sorted) tile))).
Proof.
  apply (onLayerRemoved_removes_layer LayerSample.isLayerOne [Sample.leaf]
           (LayerSample.storeWith LayerSample.sorted) []
           (stateAfter (LayerSample.storeWith LayerSample.sorted, [])
              (_onLayerRemoved LayerSample.isLayerOne [Sample.leaf]
                 (LayerSample.storeWith LayerSample.sorted, []))).1
           (stateAfter (LayerSample.storeWith LayerSample.sorted, [])
              (_onLayerRemoved LayerSample.isLayerOne [Sample.leaf]
                 (LayerSample.storeWith LayerSample.sorted, []))).2).
  vm_compute. reflexivity.
Defined.


(** Entries of the layer that do not sit together: only the first run is
    taken out, the entry behind the other layer's entry stays. *)
Example removeLayerFromTile_split_collection :
  imagery (surfaceOf
             (stateAfter (LayerSample.storeWith LayerSample.split, [])
                (removeLayerFromTile LayerSample.isLayerOne Sample.leaf
                   (LayerSample.storeWith LayerSample.split, []))).1 Sample.leaf)
  = [LayerSample.entryOf 0%nat 10%nat; LayerSample.entryOf 2%nat 13%nat; LayerSample.entryOf 1%nat 12%nat].
Proof. vm_compute. reflexivity. Qed.
(** ** Reloading an imagery layer *)

Section LayerReload.
Variable isLayer : ImageryLayer -> bool.
Variable layerIndex : nat.
Variable createTileImagerySkeletons : list TileImagery -> nat -> bool * list TileImagery.

Local Open Scope nat_scope.

Abbreviation reloaded := (ofReloadedLayer isLayer).

Lemma ofReloadedLayer_inv t b :
  reloaded t = Some b ->
  exists imagery, readyOrLoading t = Some imagery /\ isLayer (imageryLayer imagery) = b.
Proof.
  unfold ofReloadedLayer. destruct (readyOrLoading t) as [imagery|]; [|done].
  intros [= <-]. by exists imagery.
Qed.

(** The scan of the hook inside the run of the layer. *)
Lemma reloadScan_run run post i start n :
  Forall (fun t => reloaded t = Some true) run ->
  (forall t, head post = Some t -> reloaded t = Some false) ->
  reloadScan isLayer (run ++ post) i (Some start) n = inr (Some start, n + length run).
Proof.
  intros Hrun Hpost. revert i n.
  induction Hrun as [|t run Ht Hrun IH]; intros i n.
  - cbn [app length]. rewrite Nat.add_0_r.
    destruct post as [|t post]; [done|]. cbn [reloadScan].
    destruct (ofReloadedLayer_inv t false (Hpost t eq_refl)) as (imagery & -> & ->).
    done.
  - cbn [app reloadScan length].
    destruct (ofReloadedLayer_inv t true Ht) as (imagery & -> & ->).
    cbn [default from_option id]. rewrite IH. do 2 f_equal. lia.
Qed.

(** The scan of the hook from the start of the collection. *)
Lemma reloadScan_first_run pre run post i :
  Forall (fun t => reloaded t = Some false) pre ->
  run <> [] ->
  Forall (fun t => reloaded t = Some true) run ->
  (forall t, head post = Some t -> reloaded t = Some false) ->
  reloadScan isLayer (pre ++ run ++ post) i None 0 = inr (Some (i + length pre), length run).
Proof.
  intros Hpre Hne Hrun Hpost. revert i.
  induction Hpre as [|t pre Ht Hpre IH]; intros i.
  - cbn [app length]. rewrite Nat.add_0_r.
    destruct run as [|t run]; [done|]. apply Forall_cons in Hrun as [Ht Hrun].
    cbn [app reloadScan length].
    destruct (ofReloadedLayer_inv t true Ht) as (imagery & -> & ->).
    cbn [default from_option id]. by rewrite reloadScan_run.
  - cbn [app reloadScan length].
    destruct (ofReloadedLayer_inv t false Ht) as (imagery & -> & ->).
    rewrite IH. do 3 f_equal. lia.
Qed.

(** The first loop of the callback. *)
Lemma firstOfLayer_first pre rest t i :
  Forall (fun t => reloaded t = Some false) pre ->
  head rest = Some t ->
  reloaded t = Some true ->
  firstOfLayer isLayer (pre ++ rest) i = inr (Some (i + length pre)).
Proof.
  intros Hpre Hhead Ht. revert i.
  induction Hpre as [|t' pre Ht' Hpre IH]; intros i.
  - cbn [app length]. rewrite Nat.add_0_r.
    destruct rest as [|t0 rest]; [done|]. injection Hhead as ->.
    cbn [firstOfLayer].
    by destruct (ofReloadedLayer_inv t true Ht) as (imagery & -> & ->).
  - cbn [app firstOfLayer length].
    destruct (ofReloadedLayer_inv t' false Ht') as (imagery & -> & ->).
    rewrite IH. do 2 f_equal. lia.
Qed.

(** X29. Reloading a layer replaces its entries. On a tile that is not
    waiting for this layer, whose entries of the layer sit together and
    whose other entries up to the one behind them carry an imagery, the
    [_reload] hook asks for the new skeletons right behind the old entries;
    when some were created there, the first of them of the layer, it
    registers the callback under the layer's index and sets the tile to
    loading. That callback then frees exactly the old entries, takes them
    out and leaves the new ones in their place, touching no other entry,
    and returns [true], so it is removed. *)
Theorem reloadTile_replaces_entries tile pre run post new freed :
  _loadedCallbacks tile !! layerIndex = None ->
  tile_imagery tile = pre ++ run ++ post ->
  Forall (fun t => reloaded t = Some false) pre ->
  run <> [] ->
  Forall (fun t => reloaded t = Some true) run ->
  (forall t, head post = Some t -> reloaded t = Some false) ->
  createTileImagerySkeletons (tile_imagery tile) (length pre + length run)
  = (true, pre ++ run ++ new ++ post) ->
  (exists t, head new = Some t /\ reloaded t = Some true) ->
  exists tile' tileImageriesToFree,
    reloadTile isLayer layerIndex createTileImagerySkeletons tile = inr tile'
    /\ tile_imagery tile' = pre ++ run ++ new ++ post
    /\ _loadedCallbacks tile' !! layerIndex = Some tileImageriesToFree
    /\ tile_loading tile' = true
    /\ tileReadyCallback isLayer createTileImagerySkeletons tileImageriesToFree
         (tile_imagery tile', freed)
       = inr (true, (pre ++ new ++ post, freed ++ run)).
Proof.
  intros Hnone Himagery Hpre Hne Hrun Hpost Hcreate (t & Hhead & Ht).
  unfold reloadTile. rewrite Hnone. cbn zeta.
  rewrite Himagery in Hcreate. rewrite !Himagery.
  rewrite reloadScan_first_run by done.
  cbn [Nat.add]. rewrite Hcreate.
  eexists _, (length run). split; [done|].
  cbn [tile_imagery _loadedCallbacks tile_loading].
  split_and!; [done|by rewrite lookup_insert_eq|done|].
  unfold tileReadyCallback.
  destruct run as [|t0 run]; [done|]. apply Forall_cons in Hrun as [Ht0 Hrun].
  rewrite (firstOfLayer_first pre _ t0 0) by done. cbn [Nat.add].
  replace (pre ++ (t0 :: run) ++ new ++ post)
    with ((pre ++ t0 :: run) ++ new ++ post) by by rewrite <- app_assoc.
  rewrite lookup_app_r by (rewrite length_app; lia).
  rewrite length_app, Nat.sub_diag.
  destruct new as [|t1 new]; [done|]. injection Hhead as ->.
  cbn [app lookup list_lookup].
  destruct (ofReloadedLayer_inv t true Ht) as (imagery & -> & ->). cbn [negb].
  do 3 f_equal.
  - rewrite <- app_assoc. apply (splice_run pre (t0 :: run) (t :: new ++ post)).
  - f_equal. rewrite <- app_assoc, drop_app_length.
    by rewrite (take_app_length (t0 :: run)).
Qed.

End LayerReload.

(** X29, witness: the two entries of layer 1 are replaced by one new
    skeleton. *)
Lemma reloadTile_replaces_entries_witness :
  exists tile' tileImageriesToFree,
    reloadTile LayerSample.isLayerOne 1%nat ReloadSample.createSkeleton ReloadSample.tile
    = inr tile'
    /\ tile_imagery tile'
       = [LayerSample.entryOf 0%nat 10%nat]
         ++ [LayerSample.entryOf 1%nat 11%nat; LayerSample.entryOf 1%nat 12%nat]
         ++ [ReloadSample.skeleton] ++ [LayerSample.entryOf 2%nat 13%nat]
    /\ _loadedCallbacks tile' !! 1%nat = Some tileImageriesToFree
    /\ tile_loading tile' = true
    /\ tileReadyCallback LayerSample.isLayerOne ReloadSample.createSkeleton
         tileImageriesToFree (tile_imagery tile', [])
       = inr (true,
              ([LayerSample.entryOf 0%nat 10%nat] ++ [ReloadSample.skeleton]
               ++ [LayerSample.entryOf 2%nat 13%nat],
               [] ++ [LayerSample.entryOf 1%nat 11%nat; LayerSample.entryOf 1%nat 12%nat])).
Proof.
  apply (reloadTile_replaces_entries LayerSample.isLayerOne 1%nat ReloadSample.createSkeleton
           ReloadSample.tile [LayerSample.entryOf 0%nat 10%nat]
           [LayerSample.entryOf 1%nat 11%nat; LayerSample.entryOf 1%nat 12%nat]
           [LayerSample.entryOf 2%nat 13%nat] [ReloadSample.skeleton] []).
  - reflexivity.
  - reflexivity.
  - by repeat constructor.
  - discriminate.
  - by repeat constructor.
  - by intros t [= <-].
  - reflexivity.
  - by eexists.
Defined.
(** ** The rendered neighbours of a fill tile *)

Section RenderedNeighbours.

Lemma closestVisited_visited currentFrameNumber chain tile :
  closestVisited currentFrameNumber chain = Some tile ->
  tile ∈ chain /\ _lastSelectionResultFrame tile = Some currentFrameNumber.
Proof.
  induction chain as [|t chain IH]; [done|]. cbn [closestVisited].
  unfold notVisitedIn. case_bool_decide as Hframe; cbn [negb].
  - intros [= <-]. split; [left|done].
  - intros Hrest. destruct (IH Hrest). split; [by right|done].
Qed.

Lemma concatResults_Return a b tiles :
  concatResults a b = Return tiles tt ->
  exists ta tb, a = Return ta tt /\ b = Return tb tt /\ tiles = ta ++ tb.
Proof.
  unfold concatResults. destruct a as [ta ua|e ua|]; [|done|done].
  destruct b as [tb ub|e ub|]; [|done|done].
  destruct ua, ub. intros [= <-]. by exists ta, tb.
Qed.

Lemma subtree_child q frame result southwest southeast northwest northeast child t :
  child = southwest \/ child = southeast \/ child = northwest \/ child = northeast ->
  t ∈ subtreeOf child ->
  t ∈ subtree (mkSelectedTile q frame result southwest southeast northwest northeast).
Proof.
  intros Hchild Ht. cbn [subtree]. apply elem_of_cons. right.
  rewrite !elem_of_app.
  destruct Hchild as [-> | [-> | [-> | ->]]]; unfold subtreeOf in Ht; tauto.
Qed.

Lemma findRenderedFrom_sound currentFrameNumber edge tile :
  forall parents downOnly tiles,
    findRenderedFrom tile parents currentFrameNumber edge downOnly = Return tiles tt ->
    Forall (renderedIn currentFrameNumber) tiles
    /\ forall t, t ∈ tiles -> t ∈ subtree tile \/ (downOnly = false /\ t ∈ parents).
Proof.
  induction tile as [q frame result southwest southeast northwest northeast
                     IHsw IHse IHnw IHne] using SelectedTile_children_ind.
  intros parents downOnly tiles. cbn [findRenderedFrom].
  set (tile := mkSelectedTile q frame result southwest southeast northwest northeast).
  assert (forall child ta,
            child = southwest \/ child = southeast \/ child = northwest
            \/ child = northeast ->
            match child with
            | Some c => findRenderedFrom c [] currentFrameNumber edge true
            | None => Return [] tt
            end = Return ta tt ->
            Forall (renderedIn currentFrameNumber) ta
            /\ forall t, t ∈ ta -> t ∈ subtree tile) as Hbelow.
  { intros child ta Hchild Hcall.
    destruct child as [c|].
    - assert (Forall (renderedIn currentFrameNumber) ta
              /\ forall t, t ∈ ta -> t ∈ subtree c \/ (true = false /\ t ∈ [])) as [Hall Hin].
      { destruct Hchild as [Hc|[Hc|[Hc|Hc]]]; symmetry in Hc.
        - by apply (IHsw c Hc [] true).
        - by apply (IHse c Hc [] true).
        - by apply (IHnw c Hc [] true).
        - by apply (IHne c Hc [] true). }
      split; [done|]. intros t Ht.
      destruct (Hin t Ht) as [Hsub|[? _]]; [|done].
      by apply (subtree_child _ _ _ _ _ _ _ (Some c)).
    - injection Hcall as <-. split; [constructor|]. intros t Ht. by apply elem_of_nil in Ht. }
  assert (forall a b,
            (a = southwest \/ a = southeast \/ a = northwest \/ a = northeast) ->
            (b = southwest \/ b = southeast \/ b = northwest \/ b = northeast) ->
            concatResults
              match a with
              | Some c => findRenderedFrom c [] currentFrameNumber edge true
              | None => Return [] tt
              end
              match b with
              | Some c => findRenderedFrom c [] currentFrameNumber edge true
              | None => Return [] tt
              end = Return tiles tt ->
            Forall (renderedIn currentFrameNumber) tiles
            /\ forall t, t ∈ tiles ->
                 t ∈ subtree tile \/ (downOnly = false /\ t ∈ parents)) as Hpair.
  { intros a b Ha Hb Hcall.
    apply concatResults_Return in Hcall as (ta & tb & Hta & Htb & ->).
    destruct (Hbelow a ta Ha Hta) as [Halla Hina].
    destruct (Hbelow b tb Hb Htb) as [Hallb Hinb].
    split; [by apply Forall_app|].
    intros t [Ht|Ht]%elem_of_app; left; auto. }
  case_bool_decide as Hframe; cbn [negb orb].
  2:{ destruct downOnly.
      - intros [= <-]. split; [constructor|]. intros t Ht. by apply elem_of_nil in Ht.
      - destruct (closestVisited currentFrameNumber parents) as [ancestor|] eqn:Hclosest.
        + apply closestVisited_visited in Hclosest as [Hin Hvisited].
          case_bool_decide as Hrendered.
          * intros [= <-]. split; [by repeat constructor|].
            intros t ->%list_elem_of_singleton. by right.
          * intros [= <-]. split; [constructor|]. intros t Ht. by apply elem_of_nil in Ht.
        + intros [= <-]. split; [constructor|]. intros t Ht. by apply elem_of_nil in Ht. }
  case_bool_decide as Hkicked.
  { destruct downOnly.
    - intros [= <-]. split; [constructor|]. intros t Ht. by apply elem_of_nil in Ht.
    - destruct (closestVisited currentFrameNumber parents) as [ancestor|] eqn:Hclosest.
      + apply closestVisited_visited in Hclosest as [Hin Hvisited].
        case_bool_decide as Hrendered.
        * intros [= <-]. split; [by repeat constructor|].
          intros t ->%list_elem_of_singleton. by right.
        * intros [= <-]. split; [constructor|]. intros t Ht. by apply elem_of_nil in Ht.
      + intros [= <-]. split; [constructor|]. intros t Ht. by apply elem_of_nil in Ht. }
  case_bool_decide as Hrendered.
  { intros [= <-]. split; [by repeat constructor|].
    intros t ->%list_elem_of_singleton. left. cbn [subtree]. left. }
  case_bool_decide as Hculled.
  { intros [= <-]. split; [constructor|]. intros t Ht. by apply elem_of_nil in Ht. }
  destruct edge as [[| | |]|]; [..|done]; apply Hpair; tauto.
Qed.

(** X21. The rendered neighbours. Every tile that [findRenderedTiles]
    returns was visited in the current frame with the result [RENDERED]; it
    lies in the subtree of the start tile or, when the search may go up, it
    is one of the start tile's ancestors. *)
Theorem findRenderedTiles_rendered_this_frame startTile parents currentFrameNumber edge
    downOnly tiles :
  findRenderedTiles startTile parents currentFrameNumber edge downOnly = Return tiles tt ->
  Forall (renderedIn currentFrameNumber) tiles
  /\ forall t, t ∈ tiles -> t ∈ subtreeOf startTile \/ (downOnly = false /\ t ∈ parents).
Proof.
  destruct startTile as [tile|]; cbn [findRenderedTiles subtreeOf].
  - apply findRenderedFrom_sound.
  - intros [= <-]. split; [constructor|]. intros t Ht. by apply elem_of_nil in Ht.
Qed.

Lemma concatResults_outcome (P : JsError -> Prop) a b :
  match a with Return _ _ => True | Throw e _ => P e | Unfinished => False end ->
  match b with Return _ _ => True | Throw e _ => P e | Unfinished => False end ->
  match concatResults a b with
  | Return _ _ => True
  | Throw e _ => P e
  | Unfinished => False
  end.
Proof. destruct a as [? ?|? ?|], b as [? ?|? ?|]; done. Qed.

Lemma findRenderedFrom_outcome currentFrameNumber edge tile :
  forall parents downOnly,
    match findRenderedFrom tile parents currentFrameNumber edge downOnly with
    | Return _ _ => True
    | Throw e _ => edge = None /\ e = DeveloperError "Invalid edge"
    | Unfinished => False
    end.
Proof.
  induction tile as [q frame result southwest southeast northwest northeast
                     IHsw IHse IHnw IHne] using SelectedTile_children_ind.
  intros parents downOnly. cbn [findRenderedFrom].
  assert (forall child,
            child = southwest \/ child = southeast \/ child = northwest
            \/ child = northeast ->
            match
              match child with
              | Some c => findRenderedFrom c [] currentFrameNumber edge true
              | None => Return [] tt
              end
            with
            | Return _ _ => True
            | Throw e _ => edge = None /\ e = DeveloperError "Invalid edge"
            | Unfinished => False
            end) as Hbelow.
  { intros [c|] Hchild; [|done].
    destruct Hchild as [Hc|[Hc|[Hc|Hc]]]; symmetry in Hc.
    - apply (IHsw c Hc).
    - apply (IHse c Hc).
    - apply (IHnw c Hc).
    - apply (IHne c Hc). }
  destruct (negb _ || _).
  { destruct downOnly; [done|].
    destruct (closestVisited _ _); [|done]. by case_bool_decide. }
  case_bool_decide; [done|]. case_bool_decide; [done|].
  destruct edge as [[| | |]|]; [..|done];
    apply (concatResults_outcome
             (fun e => _ = None /\ e = DeveloperError "Invalid edge"));
    apply Hbelow; tauto.
Qed.

(** X22. An invalid edge. The only error that [findRenderedTiles] raises is
    the [DeveloperError] [Invalid edge], and it raises it only for an edge
    that is none of the four values of [TileEdge]. The edge is looked at
    only below a tile that was refined in the frame: for a start tile that
    was rendered in the frame the answer is the start tile, whatever the
    edge. *)
Theorem findRenderedTiles_invalid_edge startTile parents currentFrameNumber edge downOnly :
  match findRenderedTiles startTile parents currentFrameNumber edge downOnly with
  | Return _ _ => True
  | Throw e _ => edge = None /\ e = DeveloperError "Invalid edge"
  | Unfinished => False
  end
  /\ forall tile, startTile = Some tile -> renderedIn currentFrameNumber tile ->
       findRenderedTiles startTile parents currentFrameNumber edge downOnly
       = Return [tile] tt.
Proof.
  split.
  - destruct startTile as [tile|]; [|done]. apply findRenderedFrom_outcome.
  - intros tile -> [Hframe Hresult]. cbn [findRenderedTiles].
    destruct tile as [q frame result southwest southeast northwest northeast].
    cbn in Hframe, Hresult. subst frame result. cbn [findRenderedFrom].
    rewrite bool_decide_eq_true_2 by done. cbn [negb orb].
    rewrite bool_decide_eq_false_2 by done.
    by rewrite bool_decide_eq_true_2 by done.
Qed.

End RenderedNeighbours.

(** X21, witness: along the west edge of the refined sample tile, the
    south-western and the north-western child, in this order. *)
Lemma findRenderedTiles_rendered_this_frame_witness :
  Forall (renderedIn 7)
    [SelectionSample.leafTile 0 1 (Some 7%nat) TileSelectionResult.RENDERED;
     SelectionSample.leafTile 0 0 (Some 7%nat) TileSelectionResult.RENDERED]
  /\ forall t,
       t ∈ [SelectionSample.leafTile 0 1 (Some 7%nat) TileSelectionResult.RENDERED;
            SelectionSample.leafTile 0 0 (Some 7%nat) TileSelectionResult.RENDERED] ->
       t ∈ subtreeOf (Some SelectionSample.refined) \/ (false = false /\ t ∈ []).
Proof.
  apply (findRenderedTiles_rendered_this_frame (Some SelectionSample.refined) [] 7
           (Some TileEdge.WEST) false).
  vm_compute. reflexivity.
Defined.

(** X22, witness: a rendered tile is the answer also for an edge that is no
    edge. *)
Lemma findRenderedTiles_invalid_edge_witness :
  findRenderedTiles
    (Some (SelectionSample.leafTile 0 1 (Some 7%nat) TileSelectionResult.RENDERED))
    [] 7 None false
  = Return [SelectionSample.leafTile 0 1 (Some 7%nat) TileSelectionResult.RENDERED] tt.
Proof.
  apply (proj2 (findRenderedTiles_invalid_edge
                  (Some (SelectionSample.leafTile 0 1 (Some 7%nat)
                           TileSelectionResult.RENDERED))
                  [] 7 None false)).
  - reflexivity.
  - split; reflexivity.
Defined.

(** Along the east edge of the same tile no child qualifies: one was culled,
    the other was not visited in the frame. An edge that is no edge makes
    the search throw. *)
Example findRenderedTiles_east_and_invalid :
  findRenderedTiles (Some SelectionSample.refined) [] 7 (Some TileEdge.EAST) false
  = Return [] tt
  /\ findRenderedTiles (Some SelectionSample.refined) [] 7 None false
     = Throw (DeveloperError "Invalid edge") tt.
Proof. split; vm_compute; reflexivity. Qed.
(** ** The vertices along the edges of a fill tile *)

Section EdgeVertices.
Variable EPSILON4 : float.

Local Open Scope nat_scope.

(** Nothing is near an undefined value: the difference is NaN. *)
Lemma near_undefined a : near EPSILON4 a None = false.
Proof.
  unfold near, Js.lt, Js.num. cbn [default from_option].
  rewrite ltb_spec, abs_spec, sub_spec.
  replace (Prim2SF nan) with S754_nan by reflexivity.
  by destruct (Prim2SF _) as [s|s| |s m e].
Qed.

Lemma near_defined a b : near EPSILON4 a b = true -> is_Some b.
Proof.
  destruct b; [by eexists|]. by rewrite near_undefined.
Qed.

Lemma vertexAt_length vertices stride j : length (vertexAt vertices stride j) = stride.
Proof. unfold vertexAt. by rewrite length_fmap, length_seq. Qed.

Lemma flat_map_vertexAt_length vertices stride kept :
  length (flat_map (vertexAt vertices stride) kept) = length kept * stride.
Proof.
  induction kept as [|j kept IH]; [done|].
  cbn [flat_map]. rewrite length_app, vertexAt_length, IH. cbn. lia.
Qed.

Lemma pushRange_vertexAt vertices stride j tileVertices :
  pushRange vertices (j * stride) stride tileVertices
  = tileVertices ++ vertexAt vertices stride j.
Proof. done. Qed.

Lemma flat_map_snoc {A B} (f : A -> list B) l x : flat_map f (l ++ [x]) = flat_map f l ++ f x.
Proof. rewrite flat_map_app. cbn. by rewrite app_nil_r. Qed.

Section Aligned.
Variable vertices : list float.
Variable stride n : nat.
Hypothesis stride_positive : 0 < stride.
Hypothesis aligned : length vertices = n * stride.

Abbreviation V := (vertexAt vertices stride).

(** The first loop, from vertex [j] on: it stops at the last vertex, and
    what it pushed are whole vertices in increasing order. *)
Lemma copyLoop_spec steps j kept lastU lastV tileVertices :
  n - 1 - j < steps ->
  (is_Some lastU -> kept <> []) ->
  exists more lu lv,
    copyLoop EPSILON4 steps vertices stride (j * stride) lastU lastV
      (tileVertices ++ flat_map V kept)
    = Some ((j `max` (n - 1)) * stride, lu, lv, tileVertices ++ flat_map V (kept ++ more))
    /\ (is_Some lu -> kept ++ more <> [])
    /\ StronglySorted lt more
    /\ Forall (fun k => j <= k < n - 1) more
    /\ (lastU = None -> j < n - 1 -> head more = Some j).
Proof.
  revert j kept lastU lastV.
  induction steps as [|steps IH]; intros j kept lastU lastV Hsteps Hlast; [lia|].
  cbn [copyLoop]. rewrite aligned.
  destruct (Z.of_nat (j * stride) <? Z.of_nat (n * stride) - Z.of_nat stride)%Z eqn:Hmore.
  - apply Z.ltb_lt in Hmore.
    assert (j < n - 1) as Hj by nia.
    replace (j `max` (n - 1)) with (S j `max` (n - 1)) by lia.
    replace (j * stride + stride) with (S j * stride) by lia.
    destruct (near EPSILON4 (vertices !! (j * stride + 4)) lastU
              && near EPSILON4 (vertices !! (j * stride + 5)) lastV) eqn:Hnear.
    + destruct (IH (S j) kept lastU lastV ltac:(lia) Hlast)
        as (more & lu & lv & -> & Hlu & Hsorted & Hrange & Hhead).
      exists more, lu, lv. split_and!; [done|done|done| |].
      * eapply Forall_impl; [exact Hrange|]. cbn. lia.
      * intros ->. apply andb_true_iff in Hnear as [Hnear _].
        by rewrite near_undefined in Hnear.
    + rewrite pushRange_vertexAt, <- app_assoc, <- flat_map_snoc.
      destruct (IH (S j) (kept ++ [j]) (vertices !! (j * stride + 4))
                  (vertices !! (j * stride + 5)) ltac:(lia))
        as (more & lu & lv & -> & Hlu & Hsorted & Hrange & Hhead).
      { intros _. by destruct kept. }
      exists (j :: more), lu, lv. rewrite <- app_assoc. cbn [app].
      split_and!; [done|intros _; by destruct kept| | |done].
      * constructor; [done|]. eapply Forall_impl; [exact Hrange|]. cbn. lia.
      * constructor; [lia|]. eapply Forall_impl; [exact Hrange|]. cbn. lia.
  - apply Z.ltb_ge in Hmore.
    assert (n - 1 <= j) as Hj by nia.
    replace (j `max` (n - 1)) with j by lia.
    exists [], lastU, lastV. rewrite app_nil_r.
    split_and!; [done|done|constructor|constructor|lia].
Qed.

End Aligned.

Lemma take_flat_map_vertexAt vertices stride (tileVertices : list (option float)) kept j :
  take (length (tileVertices ++ flat_map (vertexAt vertices stride) (kept ++ [j])) - stride)
    (tileVertices ++ flat_map (vertexAt vertices stride) (kept ++ [j]))
  = tileVertices ++ flat_map (vertexAt vertices stride) kept.
Proof.
  rewrite flat_map_snoc, app_assoc.
  rewrite length_app, vertexAt_length.
  replace (length (tileVertices ++ flat_map (vertexAt vertices stride) kept) + stride - stride)
    with (length (tileVertices ++ flat_map (vertexAt vertices stride) kept)) by lia.
  by rewrite take_app_length.
Qed.

Lemma addVerticesToFillTile_spec vertices stride n tileVertices :
  0 < stride ->
  length vertices = n * stride ->
  exists kept,
    addVerticesToFillTile EPSILON4 vertices stride tileVertices
    = Done (tileVertices ++ flat_map (vertexAt vertices stride) kept)
    /\ StronglySorted lt kept
    /\ Forall (fun j => j < n) kept
    /\ (1 <= n -> (last kept = Some (n - 1) <-> isCorner vertices stride (n - 1) = false))
    /\ (2 <= n -> kept <> []).
Proof.
  intros Hstride Haligned. unfold addVerticesToFillTile.
  destruct (copyLoop_spec vertices stride n Hstride Haligned (S (length vertices)) 0 []
              None None tileVertices)
    as (more & lu & lv & Hloop & Hlu & Hsorted & Hrange & Hhead); [nia|by intros [? ?]|].
  cbn [flat_map app] in Hloop. rewrite app_nil_r in Hloop.
  change (0 * stride) with 0 in Hloop. rewrite Hloop. clear Hloop.
  cbn [app] in Hlu. replace (0 `max` (n - 1)) with (n - 1) by lia.
  assert (Forall (fun j => j < n - 1) more) as Hbelow.
  { eapply Forall_impl; [exact Hrange|]. cbn. lia. }
  assert (Forall (fun j => j < n) more) as Hin.
  { eapply Forall_impl; [exact Hrange|]. cbn. lia. }
  assert (forall l, Forall (fun j => j < n - 1) l -> last l <> Some (n - 1)) as Hnotlast.
  { intros l Hl Hlast. apply last_Some_elem_of in Hlast.
    eapply Forall_forall in Hl; [|done]. lia. }
  destruct (decide (n = 0)) as [->|Hn].
  { rewrite bool_decide_eq_false_2 by (rewrite Haligned; lia). cbn [andb].
    exists more. split_and!; [done|done|done|lia|lia]. }
  rewrite bool_decide_eq_true_2 by (rewrite Haligned; nia). cbn [andb].
  assert (pushRange vertices ((n - 1) * stride) (length vertices - (n - 1) * stride)
          = pushRange vertices ((n - 1) * stride) stride) as Hpush.
  { f_equal. rewrite Haligned. nia. }
  assert (forall l, Forall (fun j => j < n - 1) l -> StronglySorted lt l ->
                    StronglySorted lt (l ++ [n - 1])) as Hsnoc.
  { intros l Hl Hs. apply StronglySorted_app; split_and!; [|done|by repeat constructor].
    intros a b Ha ->%list_elem_of_singleton. by eapply Forall_forall in Hl. }
  assert (forall l, Forall (fun j => j < n - 1) l -> Forall (fun j => j < n) (l ++ [n - 1]))
    as Hall.
  { intros l Hl. apply Forall_app. split.
    - eapply Forall_impl; [exact Hl|]. cbn. lia.
    - repeat constructor. lia. }
  unfold isCorner.
  destruct ((differs (vertices !! ((n - 1) * stride + 4)) 0
             && differs (vertices !! ((n - 1) * stride + 4)) 1)
            || (differs (vertices !! ((n - 1) * stride + 5)) 0
                && differs (vertices !! ((n - 1) * stride + 5)) 1)) eqn:Hcorner;
    cbn [negb].
  - destruct (near EPSILON4 (vertices !! ((n - 1) * stride + 4)) lu
              && near EPSILON4 (vertices !! ((n - 1) * stride + 5)) lv) eqn:Hnear.
    + apply andb_true_iff in Hnear as [Hnear _]. apply near_defined in Hnear.
      specialize (Hlu Hnear).
      destruct more as [|jl more' _] using rev_ind; [done|].
      apply Forall_app in Hbelow as [Hbelow' _].
      apply StronglySorted_app in Hsorted as (_ & Hsorted' & _).
      rewrite decide_False.
      2:{ rewrite length_app, flat_map_vertexAt_length, length_app. cbn. nia. }
      rewrite take_flat_map_vertexAt, Hpush, pushRange_vertexAt, <- app_assoc,
        <- flat_map_snoc.
      exists (more' ++ [n - 1]).
      split_and!; [done|by apply Hsnoc|by apply Hall| |intros _; by destruct more'].
      intros _. by rewrite last_snoc.
    + rewrite Hpush, pushRange_vertexAt, <- app_assoc, <- flat_map_snoc.
      exists (more ++ [n - 1]).
      split_and!; [done|by apply Hsnoc|by apply Hall| |intros _; by destruct more].
      intros _. by rewrite last_snoc.
  - exists more. split_and!; [done|done|done| |].
    + intros _. split; [|done]. intros Hlast. by apply Hnotlast in Hlast.
    + intros Hn2 ->. specialize (Hhead eq_refl ltac:(lia)). done.
Qed.

(** X23. The vertices of an edge. For an edge whose array holds [n] whole
    vertices of [stride] values each, [addVerticesToFillTile] neither throws
    nor runs on: it appends whole vertices of the edge, in the order of the
    edge and each at most once, and leaves what the array held before in
    place. The last vertex of the edge is among them exactly when its
    texture coordinates are not those of a corner; with two or more
    vertices on the edge at least one is appended. *)
Theorem addVerticesToFillTile_whole_vertices vertices stride n tileVertices :
  0 < stride ->
  length vertices = n * stride ->
  exists kept,
    addVerticesToFillTile EPSILON4 vertices stride tileVertices
    = Done (tileVertices ++ flat_map (vertexAt vertices stride) kept)
    /\ StronglySorted lt kept
    /\ Forall (fun j => j < n) kept
    /\ (1 <= n -> (last kept = Some (n - 1) <-> isCorner vertices stride (n - 1) = false))
    /\ (2 <= n -> kept <> []).
Proof. apply addVerticesToFillTile_spec. Qed.

Lemma copyLoop_keeps vertices stride steps i lastU lastV (tileVertices added : list (option float)) :
  0 < stride ->
  length vertices - i < steps ->
  (is_Some lastU -> stride <= length added) ->
  exists i' lu lv added',
    copyLoop EPSILON4 steps vertices stride i lastU lastV (tileVertices ++ added)
    = Some (i', lu, lv, tileVertices ++ added')
    /\ (is_Some lu -> stride <= length added').
Proof.
  intros Hstride. revert i lastU lastV added.
  induction steps as [|steps IH]; intros i lastU lastV added Hsteps Hlast.
  - lia.
  - cbn [copyLoop].
    destruct (Z.of_nat i <? Z.of_nat (length vertices) - Z.of_nat stride)%Z eqn:Hmore.
    + apply Z.ltb_lt in Hmore.
      destruct (near EPSILON4 (vertices !! (i + 4)) lastU
                && near EPSILON4 (vertices !! (i + 5)) lastV).
      * apply IH; [lia|done].
      * unfold pushRange. rewrite <- app_assoc. apply IH; [lia|].
        intros _. rewrite length_app, length_fmap, length_seq. lia.
    + by exists i, lastU, lastV, added.
Qed.

(** X24. Never a negative length. Whatever the array of an edge holds
    (whole vertices or not), with a positive stride
    [addVerticesToFillTile] returns: the statement that shortens
    [tileVertices] by one vertex is reached only after the call itself has
    pushed one, so no [RangeError] is raised, and what the array held before
    the call stays in place at its front. *)
Theorem addVerticesToFillTile_keeps_earlier_vertices vertices stride tileVertices :
  0 < stride ->
  exists added,
    addVerticesToFillTile EPSILON4 vertices stride tileVertices
    = Done (tileVertices ++ added).
Proof.
  intros Hstride. unfold addVerticesToFillTile.
  destruct (copyLoop_keeps vertices stride (S (length vertices)) 0 None None tileVertices []
              Hstride ltac:(lia)) as (i & lu & lv & added & Hloop & Hlu);
    [by intros [? ?]|].
  rewrite app_nil_r in Hloop. rewrite Hloop.
  destruct (bool_decide (i < length vertices) && _); [|by exists added].
  destruct (near EPSILON4 (vertices !! (i + 4)) lu && near EPSILON4 (vertices !! (i + 5)) lv)
    eqn:Hnear.
  - apply andb_true_iff in Hnear as [Hnear _]. apply near_defined in Hnear.
    specialize (Hlu Hnear).
    rewrite decide_False by (rewrite length_app; lia).
    unfold pushRange. rewrite length_app.
    replace (length tileVertices + length added - stride)
      with (length tileVertices + (length added - stride)) by lia.
    rewrite take_app_add, <- app_assoc. by eexists.
  - unfold pushRange. rewrite <- app_assoc. by eexists.
Qed.

End EdgeVertices.

(** X23, witness: the west edge of four vertices of seven values each. *)
Lemma addVerticesToFillTile_whole_vertices_witness :
  exists kept,
    addVerticesToFillTile VertexSample.epsilon4 VertexSample.westEdge 7 []
    = Done ([] ++ flat_map (vertexAt VertexSample.westEdge 7) kept)
    /\ StronglySorted lt kept
    /\ Forall (fun j => j < 4)%nat kept
    /\ ((1 <= 4)%nat ->
        (last kept = Some (4 - 1)%nat <-> isCorner VertexSample.westEdge 7 (4 - 1) = false))
    /\ ((2 <= 4)%nat -> kept <> []).
Proof.
  apply (addVerticesToFillTile_whole_vertices VertexSample.epsilon4
           VertexSample.westEdge 7 4 []).
  - lia.
  - reflexivity.
Defined.

(** X24, witness: an array that ends in the middle of a vertex. *)
Lemma addVerticesToFillTile_keeps_earlier_vertices_witness :
  exists added,
    addVerticesToFillTile VertexSample.epsilon4
      (VertexSample.vertex 0 1 ++ [10; 20; 30]%float) 7 [Some 1%float]
    = Done ([Some 1%float] ++ added).
Proof.
  apply (addVerticesToFillTile_keeps_earlier_vertices VertexSample.epsilon4
           (VertexSample.vertex 0 1 ++ [10; 20; 30]%float) 7 [Some 1%float]).
  lia.
Defined.

Section CornerVertex.
Variable cartographicToCartesian : float -> float -> float -> Cartesian3.
Variable octEncodedNormal : float -> float -> float -> float * float.

Local Open Scope nat_scope.

(** X25. The corner vertex. [addCornerVertexIfNecessary] appends nothing
    when the edge starts at the corner, and otherwise exactly one vertex of
    [6 + (hasWebMercatorT ? 1 : 0) + (hasVertexNormals ? 2 : 0)] values
    whose texture coordinates equal (in the sense of [===]) those of the
    corner: the last vertex of the previous edge when that one is the
    corner, else a vertex made at the corner's longitude and latitude at
    the given height. What the array held before stays in place. *)
Theorem addCornerVertexIfNecessary_one_vertex u v longitude latitude height
    vertices previousVertices hasVertexNormals hasWebMercatorT tileVertices :
  Js.strictEq u u = true ->
  Js.strictEq v v = true ->
  let startsAtCorner :=
    Js.strictEqU (Some u) (vertices !! 4) && Js.strictEqU (Some v) (vertices !! 5) in
  exists added,
    addCornerVertexIfNecessary cartographicToCartesian octEncodedNormal
      u v longitude latitude height vertices previousVertices
      hasVertexNormals hasWebMercatorT tileVertices
    = tileVertices ++ added
    /\ (if startsAtCorner then added = []
        else length added = strideOf hasWebMercatorT hasVertexNormals
             /\ Js.strictEqU (mjoin (added !! 4)) (Some u) = true
             /\ Js.strictEqU (mjoin (added !! 5)) (Some v) = true).
Proof.
  intros Hu Hv. cbn zeta. unfold addCornerVertexIfNecessary.
  destruct (Js.strictEqU (Some u) (vertices !! 4) && Js.strictEqU (Some v) (vertices !! 5)).
  { exists []. by rewrite app_nil_r. }
  set (stride := strideOf hasWebMercatorT hasVertexNormals).
  set (lastVertexStart := (Z.of_nat (length previousVertices) - Z.of_nat stride)%Z).
  destruct (Js.strictEqU (lookupZ previousVertices (lastVertexStart + 4)) (Some u)
            && Js.strictEqU (lookupZ previousVertices (lastVertexStart + 5)) (Some v))
    eqn:Hlast.
  - apply andb_true_iff in Hlast as [HlastU HlastV].
    eexists. split; [done|]. rewrite length_fmap, length_seq.
    assert (4 < stride /\ 5 < stride) as [H4 H5]
      by (unfold stride, strideOf; destruct hasWebMercatorT, hasVertexNormals; cbn; lia).
    split_and!; [done| |].
    + rewrite list_lookup_fmap, lookup_seq_lt by done. cbn. done.
    + rewrite list_lookup_fmap, lookup_seq_lt by done. cbn. done.
  - unfold Js.strictEq in Hu, Hv.
    destruct hasWebMercatorT, hasVertexNormals; eexists;
      (split; [by rewrite <- ?app_assoc|]); cbn; by rewrite Hu, Hv.
Qed.

End CornerVertex.

(** X25, witness: the west edge does not start at the northwest corner, the
    north edge ends there. *)
Lemma addCornerVertexIfNecessary_one_vertex_witness :
  exists added,
    addCornerVertexIfNecessary VertexSample.flatEarth VertexSample.upNormal
      0 1 0 1 5 (VertexSample.vertex 0 0.5) VertexSample.northEdge false true []
    = [] ++ added
    /\ (if Js.strictEqU (Some 0%float) (VertexSample.vertex 0 0.5 !! 4%nat)
           && Js.strictEqU (Some 1%float) (VertexSample.vertex 0 0.5 !! 5%nat)
        then added = []
        else length added = strideOf true false
             /\ Js.strictEqU (mjoin (added !! 4%nat)) (Some 0%float) = true
             /\ Js.strictEqU (mjoin (added !! 5%nat)) (Some 1%float) = true).
Proof.
  apply (addCornerVertexIfNecessary_one_vertex VertexSample.flatEarth VertexSample.upNormal
           0 1 0 1 5 (VertexSample.vertex 0 0.5) VertexSample.northEdge false true []).
  - vm_compute. reflexivity.
  - vm_compute. reflexivity.
Defined.

Section Assembly.
Context `{Collaborators}.
Variable EPSILON4 : float.
Variable cartographicToCartesian : float -> float -> float -> Cartesian3.
Variable octEncodedNormal : float -> float -> float -> float * float.
Variable cartesianToCartographic : Cartesian3 -> float * float.
Variable geodeticLatitudeToMercatorAngle : float -> float.

Local Open Scope nat_scope.

Lemma addCornerVertexIfNecessary_length u v longitude latitude height
    vertices previousVertices hasVertexNormals hasWebMercatorT tileVertices :
  exists k,
    k <= 1
    /\ length (addCornerVertexIfNecessary cartographicToCartesian octEncodedNormal
                 u v longitude latitude height vertices previousVertices
                 hasVertexNormals hasWebMercatorT tileVertices)
       = length tileVertices + k * strideOf hasWebMercatorT hasVertexNormals.
Proof.
  unfold addCornerVertexIfNecessary.
  destruct (Js.strictEqU (Some u) (vertices !! 4) && _); [exists 0; split; lia|].
  exists 1. split; [done|].
  destruct (Js.strictEqU _ (Some u) && _).
  - rewrite length_app, length_fmap, length_seq. lia.
  - destruct hasWebMercatorT, hasVertexNormals; rewrite !length_app; cbn; lia.
Qed.

Lemma centerVertex_length rectangle minimumHeight maximumHeight hasVertexNormals
    hasWebMercatorT :
  length (centerVertex cartographicToCartesian octEncodedNormal cartesianToCartographic
            geodeticLatitudeToMercatorAngle rectangle minimumHeight maximumHeight
            hasVertexNormals hasWebMercatorT)
  = strideOf hasWebMercatorT hasVertexNormals.
Proof.
  unfold centerVertex. destruct (cartesianToCartographic _) as [longitude latitude].
  by destruct hasWebMercatorT, hasVertexNormals.
Qed.

Lemma addVerticesToFillTile_length vertices stride n (tileVertices : list (option float)) m :
  0 < stride ->
  length vertices = n * stride ->
  length tileVertices = m * stride ->
  exists tileVertices' k,
    addVerticesToFillTile EPSILON4 vertices stride tileVertices = Done tileVertices'
    /\ length tileVertices' = (m + k) * stride.
Proof.
  intros Hstride Haligned Hm.
  destruct (addVerticesToFillTile_spec EPSILON4 vertices stride n tileVertices
              Hstride Haligned) as (kept & -> & _).
  eexists _, (length kept). split; [done|].
  rewrite length_app, flat_map_vertexAt_length. lia.
Qed.

(** X26. The vertices of a fill tile. When the four neighbouring edges hand
    over whole vertices, the assembly of [tileVertices] in [createFillTile]
    neither throws nor runs on; the array ends up holding a whole number of
    vertices, at least one (the center, which comes last), and the three
    lengths from which the corner indices are computed are whole multiples
    of the stride, in ascending order and before the center. The indices
    [southwestIndex <= southeastIndex <= northeastIndex <= centerIndex] are
    therefore integers. *)
Theorem createFillTile_vertices_aligned rectangle minimumHeight maximumHeight
    westVertices southVertices eastVertices northVertices hasVertexNormals nw ns ne nn :
  let stride := strideOf true hasVertexNormals in
  length westVertices = nw * stride ->
  length southVertices = ns * stride ->
  length eastVertices = ne * stride ->
  length northVertices = nn * stride ->
  exists fill southwestIndex southeastIndex northeastIndex centerIndex,
    createFillTile_vertices EPSILON4 cartographicToCartesian octEncodedNormal
      cartesianToCartographic geodeticLatitudeToMercatorAngle
      rectangle minimumHeight maximumHeight
      westVertices southVertices eastVertices northVertices hasVertexNormals
    = Done fill
    /\ length (fill_tileVertices fill) = S centerIndex * stride
    /\ lengthAtSouthwest fill = southwestIndex * stride
    /\ lengthAtSoutheast fill = southeastIndex * stride
    /\ lengthAtNortheast fill = northeastIndex * stride
    /\ southwestIndex <= southeastIndex <= northeastIndex
    /\ northeastIndex <= centerIndex.
Proof.
  intros stride Hw Hs He Hn. unfold createFillTile_vertices. fold stride.
  assert (0 < stride) as Hstride by (unfold stride, strideOf; lia).
  set (middleHeight := ((minimumHeight + maximumHeight) * 0.5)%float).
  destruct (addCornerVertexIfNecessary_length 0%float 1%float (west rectangle)
              (north rectangle) middleHeight westVertices northVertices
              hasVertexNormals true []) as (k1 & Hk1 & Hc1).
  fold stride in Hc1. cbn [length] in Hc1.
  destruct (addVerticesToFillTile_length westVertices stride nw _ k1 Hstride Hw Hc1)
    as (tv1 & a1 & -> & Hl1).
  destruct (addCornerVertexIfNecessary_length 0%float 0%float (west rectangle)
              (south rectangle) middleHeight southVertices westVertices
              hasVertexNormals true tv1) as (k2 & Hk2 & Hc2).
  fold stride in Hc2. rewrite Hl1 in Hc2.
  replace ((k1 + a1) * stride + k2 * stride) with ((k1 + a1 + k2) * stride) in Hc2 by lia.
  destruct (addVerticesToFillTile_length southVertices stride ns _ _ Hstride Hs Hc2)
    as (tv2 & a2 & -> & Hl2).
  destruct (addCornerVertexIfNecessary_length 1%float 0%float (east rectangle)
              (south rectangle) middleHeight eastVertices southVertices
              hasVertexNormals true tv2) as (k3 & Hk3 & Hc3).
  fold stride in Hc3. rewrite Hl2 in Hc3.
  replace ((k1 + a1 + k2 + a2) * stride + k3 * stride)
    with ((k1 + a1 + k2 + a2 + k3) * stride) in Hc3 by lia.
  destruct (addVerticesToFillTile_length eastVertices stride ne _ _ Hstride He Hc3)
    as (tv3 & a3 & -> & Hl3).
  destruct (addCornerVertexIfNecessary_length 1%float 1%float (east rectangle)
              (north rectangle) middleHeight northVertices eastVertices
              hasVertexNormals true tv3) as (k4 & Hk4 & Hc4).
  fold stride in Hc4. rewrite Hl3 in Hc4.
  replace ((k1 + a1 + k2 + a2 + k3 + a3) * stride + k4 * stride)
    with ((k1 + a1 + k2 + a2 + k3 + a3 + k4) * stride) in Hc4 by lia.
  destruct (addVerticesToFillTile_length northVertices stride nn _ _ Hstride Hn Hc4)
    as (tv4 & a4 & -> & Hl4).
  eexists _, (k1 + a1), (k1 + a1 + k2 + a2), (k1 + a1 + k2 + a2 + k3 + a3),
    (k1 + a1 + k2 + a2 + k3 + a3 + k4 + a4).
  split; [done|]. cbn [fill_tileVertices lengthAtSouthwest lengthAtSoutheast
                        lengthAtNortheast].
  rewrite length_app, centerVertex_length, Hl4. fold stride.
  split_and!; [lia|done|done|done|lia|lia|lia].
Qed.

End Assembly.

(** X26, witness: a tile of one by one between four edges without vertex
    normals. *)
Lemma createFillTile_vertices_aligned_witness :
  exists fill southwestIndex southeastIndex northeastIndex centerIndex,
    createFillTile_vertices (H := Sample.collaborators) VertexSample.epsilon4
      VertexSample.flatEarth VertexSample.upNormal VertexSample.flatCartographic
      VertexSample.mercatorAngle VertexSample.unitRectangle 0 10
      VertexSample.westEdge VertexSample.southEdge VertexSample.eastEdge
      VertexSample.northEdge false
    = Done fill
    /\ length (fill_tileVertices fill) = (S centerIndex * strideOf true false)%nat
    /\ lengthAtSouthwest fill = (southwestIndex * strideOf true false)%nat
    /\ lengthAtSoutheast fill = (southeastIndex * strideOf true false)%nat
    /\ lengthAtNortheast fill = (northeastIndex * strideOf true false)%nat
    /\ (southwestIndex <= southeastIndex <= northeastIndex)%nat
    /\ (northeastIndex <= centerIndex)%nat.
Proof.
  apply (createFillTile_vertices_aligned (H := Sample.collaborators) VertexSample.epsilon4
           VertexSample.flatEarth VertexSample.upNormal VertexSample.flatCartographic
           VertexSample.mercatorAngle VertexSample.unitRectangle 0 10
           VertexSample.westEdge VertexSample.southEdge VertexSample.eastEdge
           VertexSample.northEdge false 4 2 2 2); reflexivity.
Defined.

Section EdgeIndexLists.

Local Open Scope Z_scope.

Lemma descending_empty highest lowest : highest < lowest -> descending highest lowest = [].
Proof.
  intros Hlt. unfold descending.
  by replace (Z.to_nat (highest - lowest + 1)) with 0%nat by lia.
Qed.

Lemma descending_cons highest lowest :
  lowest <= highest ->
  descending highest lowest = highest :: descending (highest - 1) lowest.
Proof.
  intros Hle. unfold descending.
  replace (Z.to_nat (highest - lowest + 1))
    with (S (Z.to_nat (highest - 1 - lowest + 1))) by lia.
  cbn [seq fmap list_fmap]. f_equal; [lia|].
  rewrite <- seq_shift, <- list_fmap_compose.
  apply list_fmap_ext. intros _ k _. cbn. lia.
Qed.

Lemma elem_of_descending highest lowest i :
  i ∈ descending highest lowest <-> lowest <= i <= highest.
Proof.
  unfold descending. rewrite list_elem_of_fmap. split.
  - intros (k & -> & Hk). apply elem_of_seq in Hk. lia.
  - intros Hi. exists (Z.to_nat (highest - i)). split; [lia|].
    apply elem_of_seq. lia.
Qed.

Lemma last_descending highest lowest :
  lowest <= highest -> last (descending highest lowest) = Some lowest.
Proof.
  intros Hle. unfold descending.
  replace (Z.to_nat (highest - lowest + 1)) with (S (Z.to_nat (highest - lowest))) by lia.
  rewrite seq_S, fmap_app. cbn [fmap list_fmap]. rewrite last_snoc. f_equal. lia.
Qed.

Lemma countDown_descending steps i lowest out :
  (Z.to_nat (i - lowest + 1) < steps)%nat ->
  countDown steps i lowest out = Some (out ++ descending i lowest).
Proof.
  revert i out. induction steps as [|steps IH]; intros i out Hsteps; [lia|].
  cbn [countDown]. destruct (lowest <=? i) eqn:Hle.
  - apply Z.leb_le in Hle. rewrite IH by lia.
    by rewrite (descending_cons i lowest Hle), <- app_assoc.
  - apply Z.leb_gt in Hle. by rewrite descending_empty, app_nil_r.
Qed.

(** X27. The vertex numbers along the edges. When the corner numbers are
    in ascending order and before the center, the loops of [createFillTile]
    that fill the four edge lists all end, and the lists go once around the
    tile: the west list runs from the southwest corner to vertex 0, the
    south list from the southeast to the southwest corner, the east list
    from the northeast to the southeast corner, and the north list from
    vertex 0 over the last vertices of the ring back to the northeast
    corner. Together they name every vertex of the ring, and never the
    center. *)
Theorem createFillTile_edge_indices_go_round
    southwestIndex southeastIndex northeastIndex vertexCount :
  0 <= southwestIndex <= southeastIndex ->
  southeastIndex <= northeastIndex < vertexCount - 1 ->
  exists e,
    createFillTile_edgeIndices southwestIndex southeastIndex northeastIndex vertexCount
    = Some e
    /\ (head (westIndicesSouthToNorth e) = Some southwestIndex
        /\ last (westIndicesSouthToNorth e) = Some 0)
    /\ (head (southIndicesEastToWest e) = Some southeastIndex
        /\ last (southIndicesEastToWest e) = Some southwestIndex)
    /\ (head (eastIndicesNorthToSouth e) = Some northeastIndex
        /\ last (eastIndicesNorthToSouth e) = Some southeastIndex)
    /\ (head (northIndicesWestToEast e) = Some 0
        /\ last (northIndicesWestToEast e) = Some northeastIndex)
    /\ (forall i,
          i ∈ westIndicesSouthToNorth e ++ southIndicesEastToWest e
              ++ eastIndicesNorthToSouth e ++ northIndicesWestToEast e
          <-> 0 <= i < vertexCount - 1).
Proof.
  intros Hsouth Hnorth. unfold createFillTile_edgeIndices.
  rewrite !countDown_descending by lia. cbn [mbind option_bind app].
  eexists. split; [done|].
  cbn [westIndicesSouthToNorth southIndicesEastToWest eastIndicesNorthToSouth
         northIndicesWestToEast].
  split_and!.
  - by rewrite descending_cons by lia.
  - apply last_descending. lia.
  - by rewrite descending_cons by lia.
  - apply last_descending. lia.
  - by rewrite descending_cons by lia.
  - apply last_descending. lia.
  - done.
  - change (0 :: descending (vertexCount - 1 - 1) northeastIndex)
      with ([0] ++ descending (vertexCount - 1 - 1) northeastIndex).
    rewrite last_app, last_descending by lia. done.
  - intros i. rewrite !elem_of_app, elem_of_cons, !elem_of_descending. lia.
Qed.

(** X27, witness: four corners and the center. *)
Lemma createFillTile_edge_indices_go_round_witness :
  exists e,
    createFillTile_edgeIndices 1 2 3 5 = Some e
    /\ (head (westIndicesSouthToNorth e) = Some 1
        /\ last (westIndicesSouthToNorth e) = Some 0)
    /\ (head (southIndicesEastToWest e) = Some 2
        /\ last (southIndicesEastToWest e) = Some 1)
    /\ (head (eastIndicesNorthToSouth e) = Some 3
        /\ last (eastIndicesNorthToSouth e) = Some 2)
    /\ (head (northIndicesWestToEast e) = Some 0
        /\ last (northIndicesWestToEast e) = Some 3)
    /\ (forall i,
          i ∈ westIndicesSouthToNorth e ++ southIndicesEastToWest e
              ++ eastIndicesNorthToSouth e ++ northIndicesWestToEast e
          <-> 0 <= i < 5 - 1).
Proof.
  apply (createFillTile_edge_indices_go_round 1 2 3 5); lia.
Defined.

End EdgeIndexLists.

(** ** The functions on the sample inputs *)

Section NoBudget.

(** Without room for a single texture the loop makes no progress through a
    non-empty collection: no number of passes finishes it (in [SCENE3D], or
    with a bounding region to read the heights from). *)
Lemma drawPasses_no_budget fuel ctx t rest state color p frameState :
  (pass_maxTextures ctx <= 0)%Z ->
  readsMissingRegion ctx frameState = false ->
  drawPasses fuel ctx (t :: rest) state color (p, frameState) = Unfinished.
Proof.
  intros Hnone Hregion. revert state color p frameState Hregion.
  induction fuel as [|fuel IH]; intros state color p frameState Hregion; [done|].
  cbn [drawPasses].
  destruct (acquireCommand (_drawCommands p) (_usedDrawCommands p)) as [index pool].
  rewrite dayTextureLoop_full by (apply Z.ltb_ge; lia).
  cbn [thrown remaining]. rewrite Hregion. by apply IH.
Qed.

End NoBudget.

Example updateTileBoundingRegion_own_terrain_data :
  (updateTileBoundingRegion Sample.leaf (Sample.frame false) Sample.leafDataStore).1
  = Some Sample.leaf
  /\ regionOf (updateTileBoundingRegion Sample.leaf (Sample.frame false)
                 Sample.leafDataStore).2 Sample.leaf
     = mkTileBoundingRegion (rectangle Sample.leaf) 10 20.
Proof. split; vm_compute; reflexivity. Qed.

Example updateTileBoundingRegion_from_root :
  (updateTileBoundingRegion Sample.leaf (Sample.frame false) Sample.rootMeshStore).1
  = Some Sample.root
  /\ regionOf (updateTileBoundingRegion Sample.leaf (Sample.frame false)
                 Sample.rootMeshStore).2 Sample.leaf
     = mkTileBoundingRegion (rectangle Sample.leaf) 5 50.
Proof. split; vm_compute; reflexivity. Qed.

Example computeDistanceToTile_own_heights :
  (@computeDistanceToTile Sample.collaborators Sample.leaf (Sample.frame false)
     Sample.leafDataStore).1 = 80%float.
Proof. vm_compute. reflexivity. Qed.

Example computeDistanceToTile_ancestor_heights :
  (@computeDistanceToTile Sample.collaborators Sample.leaf (Sample.frame false)
     Sample.rootMeshStore).1 = 95%float.
Proof. vm_compute. reflexivity. Qed.

Example computeTileVisibility_records_distance :
  _distance (fieldsOf leafAfterVisibility Sample.leaf) = Some 95%float
  /\ boundingVolumeSourceTile (surfaceOf leafAfterVisibility Sample.leaf) = Some Sample.root.
Proof. split; vm_compute; reflexivity. Qed.

Example showTileThisFrame_subset :
  renderableTileSubset
    (surfaceOf (stateAfter (Sample.provider, Sample.threeTiles)
                  (showTileThisFrame Sample.leaf (Some Sample.middle)
                     (Sample.provider, Sample.threeTiles))).2 Sample.leaf)
  = mkCartesian4 0.5 0.5 1 1.
Proof. vm_compute. reflexivity. Qed.

Example showTileThisFrame_bucket :
  _tilesToRenderByTextureCount
    (stateAfter (Sample.provider, Sample.nineLayerStore)
       (showTileThisFrame Sample.leaf None (Sample.provider, Sample.nineLayerStore))).1
  !! 9%nat = Some (Some [Sample.leaf]).
Proof. vm_compute. reflexivity. Qed.

Example addDrawCommandsForTile_nine_layers_textures :
  match addDrawCommandsForTile 4 Sample.noFillTile 1 Sample.leaf None
          (ensureRenderStates Sample.provider, Sample.frame false, Sample.nineLayerStore) with
  | Return _ (p, frameState, _) =>
      commandList frameState = [0; 1; 2]%nat
      /\ dayTextures <$> _drawCommands p
         = [[Some 1; Some 2; Some 3; Some 4]; [Some 5; Some 6; Some 7; Some 8]; [Some 9]]%nat
  | _ => False
  end.
Proof. vm_compute. split; reflexivity. Qed.

Example addDrawCommandsForTile_broken_layer :
  match addDrawCommandsForTile 4 Sample.noFillTile 1 Sample.leaf None
          (Sample.provider, Sample.frame false, Sample.brokenStore) with
  | Throw e (p, frameState, _) =>
      e = DeveloperError "readyImagery is not actually ready!"
      /\ commandList frameState = []
      /\ _usedDrawCommands p = 1%nat
  | _ => False
  end.
Proof. vm_compute. repeat split; reflexivity. Qed.

Example endUpdate_draws_queued_tile :
  match endUpdate 4 Sample.noFillTile 1
          ((stateAfter (Sample.provider, Sample.nineLayerStore)
              (showTileThisFrame Sample.leaf None (Sample.provider, Sample.nineLayerStore))).1,
           Sample.frame false,
           (stateAfter (Sample.provider, Sample.nineLayerStore)
              (showTileThisFrame Sample.leaf None (Sample.provider, Sample.nineLayerStore))).2) with
  | Return _ (p, frameState, _) =>
      commandList frameState = [0; 1; 2]%nat
      /\ (renderState <$> _drawCommands p)
         = [Some firstPassRenderState; Some blendRenderState; Some blendRenderState]
  | _ => False
  end.
Proof. vm_compute. split; reflexivity. Qed.
